(** * SpecSync: the change-to-specification pipeline

    A shallow embedding of the JavaScript sources of SpecSync
    (diff-parser, ast-extractor, llm-client, spec-analyzer, spec-coverage and
    lean4-generator) together with the properties its specification states
    about them, and with further properties that the code has: of the
    segmenter, the tree walks, the fallback, the cache, the stored
    specifications and the names that the generator emits.

    Conventions of the embedding.
    - A JavaScript string is a Rocq [string] holding its UTF-8 bytes.  The
      regular-expression classes [\w] and [[^>]] are read on bytes; [\s] is a
      pattern over byte sequences so that the non-ASCII white space of
      ECMAScript (U+00A0, U+2028, ...) is still recognised.
    - A JavaScript number that the sources only use as a counter or a score is
      a [Z]; multiplication by [1.5] is written on doubled integers.
    - [undefined] is [None]; a call that may throw returns a [Try], and code
      that also changes a state is an [Eff].
    - A [Map] with string keys is a [gmap string _].
    - What a call into an installed package does (the tree-sitter binding,
      the generative services, the file system, [JSON.parse]) is a
      parameter of the function that makes the call; a property that needs
      a fact about the package states it as a hypothesis. *)

From Stdlib Require Import ZArith Ascii String DecimalString List Bool Lia.
From stdpp Require Import gmap strings list.

Open Scope string_scope.
Open Scope list_scope.

(** ** Strings the way JavaScript handles them *)

Module Js.

Definition nl : string := String (ascii_of_nat 10) EmptyString.

Definition quote : string := String (ascii_of_nat 34) EmptyString.

(** [`${n}`] for a non-negative integer. *)
Definition ofNat (n : nat) : string := NilEmpty.string_of_uint (Nat.to_uint n).

(** [`${z}`] for an integer. *)
Definition ofZ (z : Z) : string := NilZero.string_of_int (Z.to_int z).

(** [s.startsWith(p)] *)
Definition startsWith (p s : string) : bool := String.prefix p s.

(** [s.includes(p)] *)
Fixpoint includes (p s : string) : bool :=
  String.prefix p s
  || match s with
     | EmptyString => false
     | String _ s' => includes p s'
     end.

(** [s.split('\n')]: the pieces between line feeds; never empty. *)
Fixpoint splitOn (sep : ascii) (s : string) : list string :=
  match s with
  | EmptyString => [EmptyString]
  | String a s' =>
      if Ascii.eqb a sep then EmptyString :: splitOn sep s'
      else match splitOn sep s' with
           | [] => [String a EmptyString]
           | x :: xs => String a x :: xs
           end
  end.

Definition lines (s : string) : list string := splitOn (ascii_of_nat 10) s.

(** [xs.join(sep)] *)
Fixpoint join (sep : string) (xs : list string) : string :=
  match xs with
  | [] => EmptyString
  | [x] => x
  | x :: xs' => x +:+ sep +:+ join sep xs'
  end.

(** A string used as a condition: only the empty string is falsy. *)
Definition truthy (s : string) : bool :=
  match s with EmptyString => false | _ => true end.

Definition lowerChar (a : ascii) : ascii :=
  let n := nat_of_ascii a in
  if (65 <=? n)%nat && (n <=? 90)%nat then ascii_of_nat (n + 32) else a.

(** [s.toLowerCase()] on the ASCII letters. *)
Fixpoint toLowerCase (s : string) : string :=
  match s with
  | EmptyString => EmptyString
  | String a s' => String (lowerChar a) (toLowerCase s')
  end.

(** [xs.some(p)] *)
Definition some {A} (p : A -> bool) (xs : list A) : bool := existsb p xs.

(** [xs.find(p)] *)
Definition find {A} (p : A -> bool) (xs : list A) : option A := List.find p xs.

(** [a || b] on values that are an object or [null]. *)
Definition orElse {A} (a b : option A) : option A :=
  match a with Some _ => a | None => b end.

Fixpoint dropSlashes (cs : list ascii) : list ascii :=
  match cs with
  | "/"%char :: cs' => dropSlashes cs'
  | _ => cs
  end.

Fixpoint untilSlash (cs : list ascii) : list ascii :=
  match cs with
  | [] => []
  | c :: cs' => if Ascii.eqb c "/" then [] else c :: untilSlash cs'
  end.

(** The reversed extension of a reversed base name: the characters up to
    and with the first dot, when some character follows that dot. *)
Fixpoint revExt (cs : list ascii) : option (list ascii) :=
  match cs with
  | [] => None
  | c :: cs' =>
      if Ascii.eqb c "." then
        match cs' with [] => None | _ => Some [c] end
      else option_map (cons c) (revExt cs')
  end.

(** [path.extname(p)] of Node.js for POSIX paths: the text from the last
    dot of the last path segment, empty when that segment has no dot,
    starts with its only dot or is [..]. *)
Definition extname (p : string) : string :=
  let base := untilSlash (dropSlashes (rev (list_ascii_of_string p))) in
  match base with
  | ["."%char; "."%char] => EmptyString
  | _ =>
      match revExt base with
      | Some e => string_of_list_ascii (rev e)
      | None => EmptyString
      end
  end.

End Js.

(** ** Exceptions *)

Inductive Try (A : Type) : Type :=
| Return (a : A)
| Throw (error : string).

Arguments Return {A} a.
Arguments Throw {A} error.

(** [try { body } catch (error) { handler }] *)
Definition tryCatch {A} (body : Try A) (handler : string -> Try A) : Try A :=
  match body with
  | Return a => Return a
  | Throw e => handler e
  end.

Definition bindTry {A B} (m : Try A) (f : A -> Try B) : Try B :=
  match m with
  | Return a => f a
  | Throw e => Throw e
  end.

Notation "'let!' x ':=' m 'in' k" := (bindTry m (fun x => k))
  (at level 10, x name, m at level 100, k at level 200).

(** A loop that collects one result per element and is left by the first
    exception. *)
Fixpoint mapTry {A B} (f : A -> Try B) (xs : list A) : Try (list B) :=
  match xs with
  | [] => Return []
  | x :: xs' =>
      let! y := f x in
      let! ys := mapTry f xs' in
      Return (y :: ys)
  end.

(** ** Code that changes a state and may throw

    A computation takes the state and gives back an outcome, a value or an
    exception, with the state it leaves; the state changes made before an
    exception stay. *)

Definition Eff (S A : Type) : Type := S -> Try A * S.

Definition ret {S A} (a : A) : Eff S A := fun st => (Return a, st).

Definition raise {S A} (e : string) : Eff S A := fun st => (Throw e, st).

Definition bind {S A B} (m : Eff S A) (f : A -> Eff S B) : Eff S B :=
  fun st =>
    match m st with
    | (Return a, st') => f a st'
    | (Throw e, st') => (Throw e, st')
    end.

(** [try { body } catch (error) { handler }] *)
Definition catch {S A} (body : Eff S A) (handler : string -> Eff S A) : Eff S A :=
  fun st =>
    match body st with
    | (Return a, st') => (Return a, st')
    | (Throw e, st') => handler e st'
    end.

(** A computation that only throws or returns. *)
Definition liftTry {S A} (m : Try A) : Eff S A := fun st => (m, st).

Notation "'do!' x '<-' m ';' k" := (bind m (fun x => k))
  (at level 10, x name, m at level 100, k at level 200).

(** ** Regular expressions: a backtracking matcher with capture groups

    The matcher follows the ECMAScript semantics of the constructs that the
    patterns of the sources use: leftmost alternative first, greedy
    quantifiers, an iteration of [*] that consumes nothing is not taken, a
    group that does not take part in the match stays unset. *)

Module Regex.

Inductive regex : Type :=
| Eps
| Chr (p : ascii -> bool)
| Cat (r1 r2 : regex)
| Alt (r1 r2 : regex)
| Star (r : regex)
| Grp (n : nat) (r : regex)
| Bol
| Eol.

Definition Opt (r : regex) : regex := Alt r Eps.
Definition Plus (r : regex) : regex := Cat r (Star r).

Definition Byte (n : nat) : regex := Chr (fun a => (nat_of_ascii a =? n)%nat).
Definition Range (lo hi : nat) : regex :=
  Chr (fun a => (lo <=? nat_of_ascii a)%nat && (nat_of_ascii a <=? hi)%nat).

Fixpoint Lit (s : string) : regex :=
  match s with
  | EmptyString => Eps
  | String a s' => Cat (Chr (Ascii.eqb a)) (Lit s')
  end.

Fixpoint Seq (rs : list regex) : regex :=
  match rs with
  | [] => Eps
  | [r] => r
  | r :: rs' => Cat r (Seq rs')
  end.

Fixpoint OneOf (rs : list regex) : regex :=
  match rs with
  | [] => Chr (fun _ => false)
  | [r] => r
  | r :: rs' => Alt r (OneOf rs')
  end.

(** [\w] *)
Definition isWord (a : ascii) : bool :=
  let n := nat_of_ascii a in
  ((48 <=? n)%nat && (n <=? 57)%nat)
  || ((65 <=? n)%nat && (n <=? 90)%nat)
  || ((97 <=? n)%nat && (n <=? 122)%nat)
  || (n =? 95)%nat.

Definition word : regex := Chr isWord.

(** The white space of [\s] and of [trim] below U+0080. *)
Definition isAsciiSpace (a : ascii) : bool :=
  let n := nat_of_ascii a in
  ((9 <=? n)%nat && (n <=? 13)%nat) || (n =? 32)%nat.

(** [\s]: WhiteSpace and LineTerminator of ECMAScript, in UTF-8. *)
Definition ws : regex :=
  OneOf
    [ Chr isAsciiSpace;
      Seq [Byte 194; Byte 160];                 (* U+00A0 *)
      Seq [Byte 225; Byte 154; Byte 128];       (* U+1680 *)
      Seq [Byte 226; Byte 128; Range 128 138];  (* U+2000 .. U+200A *)
      Seq [Byte 226; Byte 128; Range 168 169];  (* U+2028, U+2029 *)
      Seq [Byte 226; Byte 128; Byte 175];       (* U+202F *)
      Seq [Byte 226; Byte 129; Byte 159];       (* U+205F *)
      Seq [Byte 227; Byte 128; Byte 128];       (* U+3000 *)
      Seq [Byte 239; Byte 187; Byte 191] ].     (* U+FEFF *)

Definition caps : Type := list (nat * string).

Fixpoint group (n : nat) (c : caps) : option string :=
  match c with
  | [] => None
  | (m, s) :: c' => if (m =? n)%nat then Some s else group n c'
  end.

Section Matcher.
Context {A : Type}.

(** [run r pos s c k]: match [r] against [s], the input from offset [pos]
    on, then hand the new offset, the remaining input and the captures to
    the continuation [k]; [None] makes the matcher backtrack. *)
Fixpoint run (r : regex) (pos : nat) (s : string) (c : caps)
         (k : nat -> string -> caps -> option A) {struct r} : option A :=
  match r with
  | Eps => k pos s c
  | Chr p =>
      match s with
      | String a s' => if p a then k (S pos) s' c else None
      | EmptyString => None
      end
  | Cat r1 r2 => run r1 pos s c (fun pos' s' c' => run r2 pos' s' c' k)
  | Alt r1 r2 =>
      match run r1 pos s c k with
      | Some x => Some x
      | None => run r2 pos s c k
      end
  | Star r1 =>
      (fix loop (fuel : nat) (pos : nat) (s : string) (c : caps) : option A :=
         match fuel with
         | O => k pos s c
         | S fuel' =>
             match run r1 pos s c
                     (fun pos' s' c' =>
                        if (pos <? pos')%nat then loop fuel' pos' s' c' else None)
             with
             | Some x => Some x
             | None => k pos s c
             end
         end) (S (String.length s)) pos s c
  | Grp n r1 =>
      run r1 pos s c
        (fun pos' s' c' => k pos' s' ((n, String.substring 0 (pos' - pos) s) :: c'))
  | Bol => if (pos =? 0)%nat then k pos s c else None
  | Eol => match s with EmptyString => k pos s c | _ => None end
  end.
End Matcher.

(** A match that starts at offset [pos]: its end offset and captures. *)
Definition matchAt (r : regex) (pos : nat) (s : string) : option (nat * caps) :=
  run r pos s [] (fun pos' _ c' => Some (pos', c')).

(** [s.match(r)] without the [g] flag: the leftmost match. *)
Fixpoint execFrom (r : regex) (pos : nat) (s : string) : option (nat * nat * caps) :=
  match matchAt r pos s with
  | Some (e, c) => Some (pos, e, c)
  | None =>
      match s with
      | EmptyString => None
      | String _ s' => execFrom r (S pos) s'
      end
  end.

Definition exec (r : regex) (s : string) : option caps :=
  match execFrom r 0 s with
  | Some (_, _, c) => Some c
  | None => None
  end.

(** [r.test(s)] *)
Definition test (r : regex) (s : string) : bool :=
  match exec r s with Some _ => true | None => false end.

(** The scan of a [g] pattern over [s].  [skip] counts the characters that
    the previous match still covers; [onMatch] receives every match (its
    text and captures), [onChar] every character outside the matches. *)
Section Global.
Context {B : Type}.
Variable r : regex.
Variable onMatch : string -> caps -> B -> B.
Variable onChar : ascii -> B -> B.
Variable stop : B.

Fixpoint scan (pos skip : nat) (s : string) : B :=
  match skip with
  | S skip' =>
      match s with
      | EmptyString => stop
      | String _ s' => scan (S pos) skip' s'
      end
  | O =>
      match matchAt r pos s with
      | Some (e, c) =>
          onMatch (String.substring 0 (e - pos) s) c
            (match s with
             | EmptyString => stop
             | String a s' =>
                 if (e =? pos)%nat then onChar a (scan (S pos) 0 s')
                 else scan (S pos) (e - pos - 1) s'
             end)
      | None =>
          match s with
          | EmptyString => stop
          | String a s' => onChar a (scan (S pos) 0 s')
          end
      end
  end.
End Global.

(** [(s.match(r) || []).length] for a [g] pattern: the number of matches. *)
Definition countMatches (r : regex) (s : string) : nat :=
  scan r (fun _ _ n => S n) (fun _ n => n) 0%nat 0 0 s.

(** [s.replace(r, t)] for a [g] pattern; [t] builds the replacement from
    the matched text and the captures. *)
Definition replaceAll (r : regex) (t : string -> caps -> string) (s : string) : string :=
  scan r (fun m c rest => t m c +:+ rest) (fun a rest => String a rest) EmptyString 0 0 s.

(** [s.replace(r, t)] without the [g] flag: the leftmost match only. *)
Definition replaceFirst (r : regex) (t : string -> caps -> string) (s : string) : string :=
  match execFrom r 0 s with
  | Some (b, e, c) =>
      String.substring 0 b s +:+ t (String.substring b (e - b) s) c
      +:+ String.substring e (String.length s - e) s
  | None => s
  end.

(** [$n] in a replacement: the text of group [n], empty when unset. *)
Definition ref (n : nat) (c : caps) : string :=
  match group n c with Some s => s | None => EmptyString end.

End Regex.

(** [s.trim()] *)
Definition trim (s : string) : string :=
  Regex.replaceFirst (Regex.Seq [Regex.Plus Regex.ws; Regex.Eol]) (fun _ _ => EmptyString)
    (Regex.replaceFirst (Regex.Seq [Regex.Bol; Regex.Plus Regex.ws]) (fun _ _ => EmptyString) s).

(** ** diff-parser.js *)

Module DiffParser.
Import Regex.

(** The objects that [extractFunctions] collects. *)
Record Func : Type := mkFunc {
  name : string;
  body : string;
  lineNumber : nat;
  changeType : string
}.

(** [^(\+|\-)?\s*], the head that all function patterns share. *)
Definition marker : regex :=
  Seq [Bol; Opt (Grp 1 (Alt (Lit "+") (Lit "-"))); Star ws].

Definition kw (s : string) : regex := Cat (Lit s) (Plus ws).

(** [(\w+)\s*\(], the tail that all function patterns share. *)
Definition nameParen : regex :=
  Seq [Grp 2 (Plus word); Star ws; Lit "("].

Definition functionPatterns : list regex :=
  [ (* JavaScript/TypeScript *)
    Seq [marker; Opt (kw "export"); Opt (kw "async"); Lit "function"; Plus ws; nameParen];
    Seq [marker; Opt (kw "export"); OneOf [Lit "const"; Lit "let"; Lit "var"]; Plus ws;
         Grp 2 (Plus word); Star ws; Lit "="; Star ws; Opt (kw "async"); Lit "("];
    Seq [marker; Opt (kw "export"); Grp 2 (Plus word); Star ws;
         Alt (Lit ":") (Lit "="); Star ws; Opt (kw "async"); Lit "("];
    (* Python *)
    Seq [marker; Lit "def"; Plus ws; nameParen];
    (* Java *)
    Seq [marker; Opt (OneOf [Lit "public"; Lit "private"; Lit "protected"]); Star ws;
         Opt (kw "static"); Opt (kw "final");
         Opt (Seq [Lit "<"; Plus (Chr (fun a => negb (Ascii.eqb a ">"))); Lit ">"; Plus ws]);
         Plus word; Plus ws; nameParen];
    (* Go *)
    Seq [marker; Lit "func"; Plus ws; nameParen];
    (* Rust *)
    Seq [marker; Lit "fn"; Plus ws; nameParen];
    (* C/C++ *)
    Seq [marker; Opt (kw "static"); Opt (kw "inline"); Opt (kw "const");
         Plus word; Opt (Cat (Star ws) (Lit "*")); Plus ws; nameParen] ].

(** [countBraces]: opening minus closing braces of a line. *)
Definition countBraces (line : string) : Z :=
  Z.of_nat (countMatches (Lit "{") line) - Z.of_nat (countMatches (Lit "}") line).

(** The inner [for (const pattern of functionPatterns)] with its [break]:
    the captures of the first pattern that matches the line. *)
Fixpoint firstMatch (patterns : list regex) (line : string) : option caps :=
  match patterns with
  | [] => None
  | p :: ps =>
      match exec p line with
      | Some c => Some c
      | None => firstMatch ps line
      end
  end.

(** The variables of the loop of [extractFunctions]. *)
Record Scan : Type := mkScan {
  functions : list Func;
  currentFunction : option Func;
  braceCount : Z;
  inFunction : bool
}.

Definition startScan : Scan :=
  {| functions := []; currentFunction := None; braceCount := 0; inFunction := false |}.

(** The first half of the loop body: a line that starts a function closes
    the function that is still open and opens a new one. *)
Definition openFunction (i : nat) (line : string) (st : Scan) : Scan :=
  match firstMatch functionPatterns line with
  | Some c =>
      {| functions :=
           match currentFunction st with
           | Some f => functions st ++ [f]
           | None => functions st
           end;
         currentFunction :=
           Some {| name := ref 2 c;
                   body := line;
                   lineNumber := i + 1;
                   changeType := match group 1 c with
                                 | Some m => if Js.truthy m then m else "modified"
                                 | None => "modified"
                                 end |};
         braceCount := countBraces line;
         inFunction := true |}
  | None => st
  end.

(** The second half: the line is appended to the open function, which ends
    when the brace balance is zero on a line that is not blank. *)
Definition growFunction (line : string) (st : Scan) : Scan :=
  match inFunction st, currentFunction st with
  | true, Some f =>
      let f' := {| name := name f;
                   body := body f +:+ Js.nl +:+ line;
                   lineNumber := lineNumber f;
                   changeType := changeType f |} in
      let bc := (braceCount st + countBraces line)%Z in
      if (bc =? 0)%Z && Js.truthy (trim line) then
        {| functions := functions st ++ [f'];
           currentFunction := None;
           braceCount := bc;
           inFunction := false |}
      else
        {| functions := functions st;
           currentFunction := Some f';
           braceCount := bc;
           inFunction := true |}
  | _, _ => st
  end.

Fixpoint scanLines (i : nat) (ls : list string) (st : Scan) : Scan :=
  match ls with
  | [] => st
  | line :: ls' => scanLines (S i) ls' (growFunction line (openFunction i line st))
  end.

(** [extractFunctions(fileDiff)] *)
Definition extractFunctions (fileDiff : string) : list Func :=
  let st := scanLines 0 (Js.lines fileDiff) startScan in
  match currentFunction st with
  | Some f => functions st ++ [f]
  | None => functions st
  end.

(** [determineChangeType(func)] *)
Definition determineChangeType (func : Func) : string :=
  let ls := Js.lines (body func) in
  let hasAdded := Js.some (Js.startsWith "+") ls in
  let hasRemoved := Js.some (Js.startsWith "-") ls in
  if hasAdded && hasRemoved then "modified"
  else if hasAdded then "added"
  else if hasRemoved then "removed"
  else "modified".

(** [extractFileDiff(diff, filename)] *)
Fixpoint fileLines (filename : string) (ls : list string)
         (inTargetFile : bool) (fileDiff : list string) : list string :=
  match ls with
  | [] => fileDiff
  | line :: ls' =>
      if Js.startsWith "diff --git" line then
        let inTarget := Js.includes filename line in
        fileLines filename ls' inTarget (if inTarget then [] else fileDiff)
      else if inTargetFile then fileLines filename ls' inTargetFile (fileDiff ++ [line])
      else fileLines filename ls' inTargetFile fileDiff
  end.

Definition extractFileDiff (diff filename : string) : string :=
  Js.join Js.nl (fileLines filename (Js.lines diff) false []).

(** [getCommentType(comment)] *)
Definition getCommentType (comment : string) : string :=
  if Js.includes "TODO" comment || Js.includes "FIXME" comment then "todo"
  else if Js.includes "@param" comment || Js.includes "@return" comment then "documentation"
  else if Js.includes "@spec" comment || Js.includes "@pre" comment
          || Js.includes "@post" comment then "specification"
  else "general".

Record Comment : Type := mkComment {
  text : string;
  commentLine : nat;
  commentType : string
}.

(** The body of the loop of [extractComments] on line [i]. *)
Definition commentOf (i : nat) (line : string) : list Comment :=
  if Js.includes "//" line || Js.includes "/*" line || Js.includes "*/" line then
    let comment := trim (replaceFirst marker (fun _ _ => EmptyString) line) in
    if Js.truthy comment then
      [{| text := comment; commentLine := i + 1; commentType := getCommentType comment |}]
    else []
  else [].

Fixpoint commentsFrom (i : nat) (ls : list string) : list Comment :=
  match ls with
  | [] => []
  | line :: ls' => commentOf i line ++ commentsFrom (S i) ls'
  end.

(** [extractComments(fileDiff, functionLine)]: the comment lines with
    index from [max(0, functionLine - 6)] up to, and without,
    [min(lines.length, functionLine + 5)]. *)
Definition extractComments (fileDiff : string) (functionLine : nat) : list Comment :=
  let ls := Js.lines fileDiff in
  let searchRange := 5 in
  let lo := functionLine - searchRange - 1 in
  let hi := Nat.min (length ls) (functionLine + searchRange) in
  commentsFrom lo (firstn (hi - lo) (skipn lo ls)).

(** The function changes that [parseFileDiff] returns.  The field
    [testFiles], which is filled from the file system and which no
    component of the pipeline reads, is left out. *)
Record FunctionChange : Type := mkChange {
  filePath : string;
  functionName : string;
  functionBody : string;
  fcLineNumber : nat;
  fcChangeType : string;
  comments : list Comment
}.

Definition toChange (filename fileDiff : string) (func : Func) : FunctionChange :=
  {| filePath := filename;
     functionName := name func;
     functionBody := body func;
     fcLineNumber := lineNumber func;
     fcChangeType := determineChangeType func;
     comments := extractComments fileDiff (lineNumber func) |}.

(** The changes of one file diff: the loop of [parseFileDiff] over
    [extractFunctions(fileDiff)]. *)
Definition segment (filename fileDiff : string) : list FunctionChange :=
  map (toChange filename fileDiff) (extractFunctions fileDiff).

(** [parseFileDiff(file, diff)] *)
Definition parseFileDiff (filename diff : string) : list FunctionChange :=
  let fileDiff := extractFileDiff diff filename in
  if Js.truthy fileDiff then segment filename fileDiff else [].

(** [isCodeFile(filename)] *)
Definition isCodeFile (filename : string) : bool :=
  let codeExtensions :=
    [".js"; ".ts"; ".jsx"; ".tsx"; ".py"; ".java"; ".go"; ".rs"; ".cpp"; ".c"; ".h"] in
  let testPatterns := ["test"; "spec"; "Test"; "Spec"] in
  let ext := Js.extname filename in
  let isCodeFile := existsb (String.eqb ext) codeExtensions in
  let isTestFile := Js.some (fun pattern => Js.includes pattern filename) testPatterns in
  isCodeFile && negb isTestFile.

(** [parseDiff(diff, changedFiles)], on the names of the changed files. *)
Definition parseDiff (diff : string) (changedFiles : list string) : list FunctionChange :=
  flat_map (fun filename => if isCodeFile filename then parseFileDiff filename diff else [])
    changedFiles.

End DiffParser.


(** ** ast-extractor.js *)

Module ASTExtractor.

(** A tree-sitter syntax node: its type, its source text, the row where it
    starts and its children, each with the field name under which the
    parent holds it, if any. *)
#[warnings="-register-all"]
Inductive SyntaxNode : Type :=
| Node (type text : string) (row : nat) (children : list (option string * SyntaxNode)).

(** A node as the extractor holds it: the node together with its [parent]
    link, kept as the parent and the position of the node among the
    children of the parent. *)
Record NodeRef : Type := mkRef {
  self : SyntaxNode;
  up : option (SyntaxNode * nat)
}.

Definition typeOf (n : SyntaxNode) : string := match n with Node t _ _ _ => t end.
Definition textOf (n : SyntaxNode) : string := match n with Node _ t _ _ => t end.
Definition rowOf (n : SyntaxNode) : nat := match n with Node _ _ r _ => r end.
Definition kids (n : SyntaxNode) : list (option string * SyntaxNode) :=
  match n with Node _ _ _ cs => cs end.

Fixpoint refsFrom (p : SyntaxNode) (i : nat) (cs : list (option string * SyntaxNode))
  : list (option string * NodeRef) :=
  match cs with
  | [] => []
  | (f, c) :: cs' => (f, {| self := c; up := Some (p, i) |}) :: refsFrom p (S i) cs'
  end.

(** [node.children] *)
Definition children (n : NodeRef) : list NodeRef :=
  map snd (refsFrom (self n) 0 (kids (self n))).

Definition hasType (types : list string) (n : NodeRef) : bool :=
  existsb (String.eqb (typeOf (self n))) types.

(** [findNodesByType(node, types)]: the node itself when its type is asked
    for, then the matches below each child, in order. *)
Fixpoint findFrom (types : list string) (up : option (SyntaxNode * nat))
         (n : SyntaxNode) {struct n} : list NodeRef :=
  match n with
  | Node ty _ _ cs =>
      ((if existsb (String.eqb ty) types then [{| self := n; up := up |}] else [])
       ++ (fix below (i : nat) (cs : list (option string * SyntaxNode)) : list NodeRef :=
             match cs with
             | [] => []
             | (_, c) :: cs' => findFrom types (Some (n, i)) c ++ below (S i) cs'
             end) 0 cs)%list
  end.

Definition findNodesByType (node : NodeRef) (types : list string) : list NodeRef :=
  findFrom types (up node) (self node).

Definition textOr (dflt : string) (n : option NodeRef) : string :=
  match n with
  | Some n => textOf (self n)
  | None => dflt
  end.

(** [calculateMaxDepth(node, currentDepth)] *)
Fixpoint calculateMaxDepth (node : SyntaxNode) (currentDepth : nat) {struct node} : nat :=
  match node with
  | Node _ _ _ cs =>
      (fix over (cs : list (option string * SyntaxNode)) (maxDepth : nat) : nat :=
         match cs with
         | [] => maxDepth
         | (_, c) :: cs' =>
             over cs' (Nat.max maxDepth (calculateMaxDepth c (currentDepth + 1)))
         end) cs currentDepth
  end.

Record Param : Type := mkParam {
  name : string;
  type : string;
  required : bool
}.

(** The entries of [conditionalGuards], [loops] and [branching]. *)
Record Stmt : Type := mkStmt {
  stmtType : string;
  condition : string;
  lineNumber : nat
}.

Record EarlyReturn : Type := mkEarlyReturn {
  value : string;
  returnLine : nat
}.

Record ControlFlow : Type := mkControlFlow {
  hasEarlyReturns : bool;
  hasLoops : bool;
  hasConditionals : bool;
  hasBranching : bool;
  maxDepth : nat
}.

Record Ast : Type := mkAst {
  inputTypes : list Param;
  outputType : string;
  conditionalGuards : list Stmt;
  loops : list Stmt;
  branching : list Stmt;
  earlyReturns : list EarlyReturn;
  controlFlow : ControlFlow;
  complexity : Z
}.

(** The result of [analyzeFunction]: the change with the facts under [ast]. *)
Record Analysis : Type := mkAnalysis {
  change : DiffParser.FunctionChange;
  ast : Ast
}.

(** [createBasicAnalysis(change)] *)
Definition createBasicAnalysis (change : DiffParser.FunctionChange) : Analysis :=
  {| change := change;
     ast := {| inputTypes := [];
               outputType := "any";
               conditionalGuards := [];
               loops := [];
               branching := [];
               earlyReturns := [];
               controlFlow := {| hasEarlyReturns := false;
                                 hasLoops := false;
                                 hasConditionals := false;
                                 hasBranching := false;
                                 maxDepth := 1 |};
               complexity := 1 |} |}.

(** The grammar objects that the constructor registers: what
    [require('tree-sitter-javascript')] and the like give.  For [.ts] and
    [.tsx] it is what [require('tree-sitter-typescript')] gives. *)
Inductive Language : Type := JavaScript | TypeScript | Python | Java | Rust.

(** [this.parsers] *)
Definition parsers (ext : string) : option Language :=
  if String.eqb ext ".js" then Some JavaScript
  else if String.eqb ext ".jsx" then Some JavaScript
  else if String.eqb ext ".ts" then Some TypeScript
  else if String.eqb ext ".tsx" then Some TypeScript
  else if String.eqb ext ".py" then Some Python
  else if String.eqb ext ".java" then Some Java
  else if String.eqb ext ".rs" then Some Rust
  else None.

(** [getLanguageFromPath(filePath)] *)
Definition getLanguageFromPath (filePath : string) : option Language :=
  parsers (Js.extname filePath).

Definition isOptionalText (t : string) : bool :=
  Js.includes "?" t || Js.includes "default" t || Js.includes "=" t.

(** [isOptionalParameter(paramNode)] *)
Definition isOptionalParameter (paramNode : NodeRef) : bool :=
  isOptionalText (textOf (self paramNode)).

Definition nonEmpty {A} (xs : list A) : bool := (0 <? length xs)%nat.

(** ** What the extractor asks of the tree-sitter binding

    The sources call the binding of the installed [tree-sitter] package;
    what the calls do is the binding's, not the sources', and is a parameter
    here.  Every call may throw. *)

Section Binding.

(** [node.childForFieldName(field)]: the child, [null], or an exception.
    On a node that has no such method, as with the [tree-sitter] version
    that [package.json] asks for, the call throws a TypeError. *)
Variable childForFieldName : string -> NodeRef -> Try (option NodeRef).

(** Whether the binding hands out one object per node.  It decides
    [siblings.indexOf(returnStmt)], which compares objects: the position of
    the node among the children of its parent when [parent.children] holds
    the node itself, and -1 when it holds new objects. *)
Variable cachedNodes : bool.

(** [new Parser()] followed by [parser.setLanguage(language)], which both
    stand before the [try] block of [analyzeFunction]. *)
Variable setLanguage : Language -> Try unit.

(** [parser.parse(fileContent)]: the root node, or an exception. *)
Variable parse : Language -> string -> Try SyntaxNode.

(** The request to the source accessor, [octokit.repos.getContent]: it
    throws, or answers with [data.content], here after its decoding from
    base64, or with no content. *)
Variable getContent : string -> Try (option string).

(** [a || b] on two node lookups, of which the second is not made when the
    first gives a node. *)
Definition orNode (a b : Try (option NodeRef)) : Try (option NodeRef) :=
  let! found := a in
  match found with
  | Some _ => Return found
  | None => b
  end.

(** [getFunctionName(node)] *)
Definition getFunctionName (node : NodeRef) : Try string :=
  let! nameNode :=
    orNode (childForFieldName "name" node)
      (orNode (childForFieldName "identifier" node)
         (Return (Js.find (hasType ["identifier"]) (children node)))) in
  Return (textOr "" nameNode).

(** The loop of [findFunctionNode] over the function nodes. *)
Fixpoint firstNamed (functionName : string) (functionNodes : list NodeRef)
  : Try (option NodeRef) :=
  match functionNodes with
  | [] => Return None
  | node :: rest =>
      let! name := getFunctionName node in
      if String.eqb name functionName then Return (Some node)
      else firstNamed functionName rest
  end.

(** [findFunctionNode(rootNode, functionName)] *)
Definition findFunctionNode (rootNode : NodeRef) (functionName : string)
  : Try (option NodeRef) :=
  firstNamed functionName
    (findNodesByType rootNode
       ["function_declaration"; "method_definition"; "arrow_function";
        "function_expression"; "function_definition"]).

(** [getParameterName(paramNode)] *)
Definition getParameterName (paramNode : NodeRef) : Try string :=
  let! nameNode :=
    orNode (childForFieldName "name" paramNode)
      (Return (Js.find (hasType ["identifier"]) (children paramNode))) in
  Return (textOr "" nameNode).

(** [getParameterType(paramNode)] *)
Definition getParameterType (paramNode : NodeRef) : Try string :=
  let! typeNode :=
    orNode (childForFieldName "type" paramNode)
      (Return (Js.find (hasType ["type_annotation"; "type_identifier"])
                 (children paramNode))) in
  Return (textOr "any" typeNode).

(** [extractInputTypes(functionNode, language)] *)
Definition extractInputTypes (functionNode : NodeRef) : Try (list Param) :=
  let! paramList :=
    orNode (childForFieldName "parameters" functionNode)
      (Return (Js.find (hasType ["formal_parameters"]) (children functionNode))) in
  match paramList with
  | None => Return []
  | Some paramList =>
      mapTry
        (fun param =>
           let! name := getParameterName param in
           let! type := getParameterType param in
           Return {| name := name; type := type;
                     required := negb (isOptionalParameter param) |})
        (List.filter (hasType ["parameter"; "formal_parameter"]) (children paramList))
  end.

(** [extractOutputType(functionNode, language)] *)
Definition extractOutputType (functionNode : NodeRef) : Try string :=
  let! returnTypeNode :=
    orNode (childForFieldName "return_type" functionNode)
      (Return (Js.find (hasType ["type_annotation"; "return_type"])
                 (children functionNode))) in
  Return (textOr "any" returnTypeNode).

(** [extractConditionalGuards(functionNode)] *)
Definition extractConditionalGuards (functionNode : NodeRef) : Try (list Stmt) :=
  let! guards :=
    mapTry
      (fun ifStmt =>
         let! condition := childForFieldName "condition" ifStmt in
         Return match condition with
                | Some c => [{| stmtType := "if"; condition := textOf (self c);
                                lineNumber := rowOf (self c) |}]
                | None => []
                end)
      (findNodesByType functionNode ["if_statement"]) in
  Return (concat guards).

(** [getLoopCondition(loopNode)] *)
Definition getLoopCondition (loopNode : NodeRef) : Try string :=
  let! condition :=
    orNode (childForFieldName "condition" loopNode)
      (Return (Js.find (hasType ["condition"; "test"]) (children loopNode))) in
  Return (textOr "" condition).

(** The nodes of the given types, type after type, each with its type: the
    two nested loops of [extractLoops] and of [extractBranching]. *)
Definition nodesOfTypes (functionNode : NodeRef) (types : list string) : list (string * NodeRef) :=
  flat_map (fun type => map (pair type) (findNodesByType functionNode [type])) types.

(** [extractLoops(functionNode)] *)
Definition extractLoops (functionNode : NodeRef) : Try (list Stmt) :=
  mapTry
    (fun '(loopType, loop) =>
       let! condition := getLoopCondition loop in
       Return {| stmtType := loopType; condition := condition;
                 lineNumber := rowOf (self loop) |})
    (nodesOfTypes functionNode
       ["for_statement"; "while_statement"; "do_statement"; "for_in_statement"]).

(** [getBranchCondition(branchNode)] *)
Definition getBranchCondition (branchNode : NodeRef) : Try string :=
  let! condition :=
    orNode (childForFieldName "condition" branchNode)
      (orNode (childForFieldName "test" branchNode)
         (Return (Js.find (hasType ["condition"; "test"]) (children branchNode)))) in
  Return (textOr "" condition).

(** [extractBranching(functionNode)] *)
Definition extractBranching (functionNode : NodeRef) : Try (list Stmt) :=
  mapTry
    (fun '(branchType, branch) =>
       let! condition := getBranchCondition branch in
       Return {| stmtType := branchType; condition := condition;
                 lineNumber := rowOf (self branch) |})
    (nodesOfTypes functionNode ["if_statement"; "switch_statement"; "conditional_expression"]).

(** [getReturnValue(returnNode)] *)
Definition getReturnValue (returnNode : NodeRef) : Try string :=
  let! value :=
    orNode (childForFieldName "value" returnNode)
      (Return (Js.find (hasType ["expression"; "identifier"]) (children returnNode))) in
  Return (textOr "" value).

(** [returnIndex < siblings.length - 1], where the siblings are the
    children of the parent and there are none without a parent. *)
Definition notLast (returnStmt : NodeRef) : bool :=
  match up returnStmt with
  | Some (parent, position) =>
      let returnIndex := if cachedNodes then Z.of_nat position else (-1)%Z in
      (returnIndex <? Z.of_nat (length (kids parent)) - 1)%Z
  | None => (-1 <? 0 - 1)%Z
  end.

(** [extractEarlyReturns(functionNode)] *)
Definition extractEarlyReturns (functionNode : NodeRef) : Try (list EarlyReturn) :=
  mapTry
    (fun returnStmt =>
       let! value := getReturnValue returnStmt in
       Return {| value := value; returnLine := rowOf (self returnStmt) |})
    (List.filter notLast (findNodesByType functionNode ["return_statement"])).

(** [extractControlFlow(functionNode)] *)
Definition extractControlFlow (functionNode : NodeRef) : Try ControlFlow :=
  let! earlyReturns := extractEarlyReturns functionNode in
  let! loops := extractLoops functionNode in
  let! guards := extractConditionalGuards functionNode in
  let! branching := extractBranching functionNode in
  Return {| hasEarlyReturns := nonEmpty earlyReturns;
            hasLoops := nonEmpty loops;
            hasConditionals := nonEmpty guards;
            hasBranching := nonEmpty branching;
            maxDepth := calculateMaxDepth (self functionNode) 0 |}.

(** [calculateComplexity(functionNode)] *)
Definition calculateComplexity (functionNode : NodeRef) : Try Z :=
  let complexity := 1%Z in
  let! guards := extractConditionalGuards functionNode in
  let complexity := (complexity + Z.of_nat (length guards))%Z in
  let! loops := extractLoops functionNode in
  let complexity := (complexity + Z.of_nat (length loops))%Z in
  let! earlyReturns := extractEarlyReturns functionNode in
  let complexity := (complexity + Z.of_nat (length earlyReturns))%Z in
  Return complexity.

(** The object [ast] that [analyzeFunction] builds for a function node that
    was found, property after property. *)
Definition extractFacts (functionNode : NodeRef) : Try Ast :=
  let! inputTypes := extractInputTypes functionNode in
  let! outputType := extractOutputType functionNode in
  let! conditionalGuards := extractConditionalGuards functionNode in
  let! loops := extractLoops functionNode in
  let! branching := extractBranching functionNode in
  let! earlyReturns := extractEarlyReturns functionNode in
  let! controlFlow := extractControlFlow functionNode in
  let! complexity := calculateComplexity functionNode in
  Return {| inputTypes := inputTypes;
            outputType := outputType;
            conditionalGuards := conditionalGuards;
            loops := loops;
            branching := branching;
            earlyReturns := earlyReturns;
            controlFlow := controlFlow;
            complexity := complexity |}.

(** [getFileContent(filePath, context)] *)
Definition getFileContent (filePath : string) : Try string :=
  tryCatch
    (let! response := getContent filePath in
     match response with
     | Some content => Return content
     | None => Return ""
     end)
    (fun _ => Return "").

(** [analyzeFunction(change, context)] *)
Definition analyzeFunction (change : DiffParser.FunctionChange) : Try Analysis :=
  let! fileContent := getFileContent (DiffParser.filePath change) in
  match getLanguageFromPath (DiffParser.filePath change) with
  | None => Return (createBasicAnalysis change)
  | Some language =>
      let! parser := setLanguage language in
      tryCatch
        (let! tree := parse language fileContent in
         let! functionNode :=
           findFunctionNode {| self := tree; up := None |}
             (DiffParser.functionName change) in
         match functionNode with
         | None => Return (createBasicAnalysis change)
         | Some functionNode =>
             let! facts := extractFacts functionNode in
             Return {| change := change; ast := facts |}
         end)
        (fun _ => Return (createBasicAnalysis change))
  end.

(** The loop of [extractAST(functionChanges, context)]: an analysis that
    throws is dropped and the loop goes on. *)
Definition extractAST (functionChanges : list DiffParser.FunctionChange) : list Analysis :=
  flat_map (fun change =>
              match analyzeFunction change with
              | Return a => [a]
              | Throw _ => []
              end) functionChanges.
End Binding.

End ASTExtractor.

(** ** llm-client.js *)

Module LLMClient.
Import Regex.

(** The values of [JSON.parse]; a number is kept on its integer values. *)
#[warnings="-register-all"]
Inductive json : Type :=
| JNull
| JBool (b : bool)
| JNum (z : Z)
| JStr (s : string)
| JArr (items : list json)
| JObj (fields : list (string * json)).

(** A value used as a condition. *)
Definition truthy (v : json) : bool :=
  match v with
  | JNull => false
  | JBool b => b
  | JNum z => negb (z =? 0)%Z
  | JStr s => Js.truthy s
  | JArr _ => true
  | JObj _ => true
  end.

(** [parsed[field]]; [None] is [undefined]. *)
Fixpoint lookup (field : string) (fields : list (string * json)) : option json :=
  match fields with
  | [] => None
  | (k, v) :: fields' => if String.eqb k field then Some v else lookup field fields'
  end.

Definition present (fields : list (string * json)) (field : string) : bool :=
  match lookup field fields with
  | Some v => truthy v
  | None => false
  end.

(** The entries of [context.inputTypes], [context.conditionalGuards] and
    [context.earlyReturns], with the properties that the fallback reads. *)
Record Input : Type := mkInput {
  name : string;
  type : option string;
  required : option bool
}.

Record Guard : Type := mkGuard { condition : string }.

Record EarlyReturn : Type := mkEarlyReturn { value : option string }.

(** The context that [generateSpec] receives.  The four properties that
    [generateMockSpec] destructures may be missing; the others only feed
    the prompt. *)
Record Context : Type := mkContext {
  functionName : string;
  language : string;
  functionBody : string;
  inputTypes : option (list Input);
  outputType : string;
  conditionalGuards : option (list Guard);
  loops : list ASTExtractor.Stmt;
  branching : list ASTExtractor.Stmt;
  earlyReturns : option (list EarlyReturn);
  controlFlow : option ASTExtractor.ControlFlow;
  complexity : option Z;
  comments : string
}.

(** The context [{}]. *)
Definition emptyContext : Context :=
  {| functionName := ""; language := ""; functionBody := "";
     inputTypes := None; outputType := ""; conditionalGuards := None;
     loops := []; branching := []; earlyReturns := None; controlFlow := None;
     complexity := None; comments := "" |}.

(** The specification record that the client returns. *)
Record Spec : Type := mkSpec {
  preconditions : list json;
  postconditions : list json;
  invariants : list json;
  edgeCases : list json;
  specComplexity : json;
  security : json;
  confidence : Z;
  reasoning : json
}.

Definition strings (xs : list string) : list json := map JStr xs.

(** A destructuring default: [{ x = d } = context]. *)
Definition orDefault {A} (x : option A) (d : A) : A :=
  match x with Some a => a | None => d end.

(** The preconditions that one input contributes. *)
Definition inputPreconditions (input : Input) : list string :=
  (match type input with
   | Some t =>
       if Js.truthy t && negb (String.eqb t "any")
       then [name input +:+ " is of type " +:+ t] else []
   | None => []
   end)
  ++ (match required input with
      | Some false => []
      | _ => [name input +:+ " is not null/undefined"]
      end).

Definition returnPostconditions (earlyReturn : EarlyReturn) : list string :=
  match value earlyReturn with
  | Some v =>
      if Js.truthy v
      then ["Function may return " +:+ v +:+ " under certain conditions"] else []
  | None => []
  end.

Definition guardEdgeCase (guard : Guard) : string :=
  "Handle case where " +:+ condition guard +:+ " is false".

(** [xs.length > 0 ? xs : [placeholder]] *)
Definition orPlaceholder (xs : list string) (placeholder : string) : list string :=
  if (0 <? length xs)%nat then xs else [placeholder].

(** [generateMockSpec(context)] *)
Definition generateMockSpec (context : Context) : Spec :=
  let inputTypes := orDefault (inputTypes context) [] in
  let conditionalGuards := orDefault (conditionalGuards context) [] in
  let earlyReturns := orDefault (earlyReturns context) [] in
  let complexity := orDefault (complexity context) 1%Z in
  let preconditions := flat_map inputPreconditions inputTypes in
  let postconditions := flat_map returnPostconditions earlyReturns in
  let invariants :=
    if (5 <? complexity)%Z then ["Function maintains internal state consistency"] else [] in
  let edgeCases :=
    map guardEdgeCase conditionalGuards
    ++ (if (0 <? length inputTypes)%nat
        then ["Handle empty/null input values"; "Handle boundary conditions"] else []) in
  {| preconditions :=
       strings (orPlaceholder preconditions "No specific preconditions identified");
     postconditions := strings (orPlaceholder postconditions "Function completes execution");
     invariants := strings (orPlaceholder invariants "No specific invariants identified");
     edgeCases := strings (orPlaceholder edgeCases "Consider null/undefined inputs");
     specComplexity :=
       JObj [("time", JStr (if (3 <? complexity)%Z then "O(n)" else "O(1)"));
             ("space", JStr "O(1)")];
     security :=
       JObj [("vulnerabilities",
              JArr (strings ["Potential input validation bypass";
                             "Possible information disclosure"]));
             ("mitigations",
              JArr (strings ["Implement strict input validation";
                             "Use parameterized queries";
                             "Validate all inputs"]))];
     confidence := Z.min 85 (100 - complexity * 5);
     reasoning :=
       JStr ("Mock analysis of function with " +:+ Js.ofNat (length inputTypes)
             +:+ " inputs, " +:+ Js.ofNat (length conditionalGuards)
             +:+ " conditionals, and complexity " +:+ Js.ofZ complexity
             +:+ ". Advanced security and performance analysis included.") |}.

Definition requiredFields : list string :=
  ["preconditions"; "postconditions"; "invariants"; "edgeCases"; "confidence"].

(** [Array.isArray(v) ? v : []] *)
Definition arrayOrEmpty (v : option json) : list json :=
  match v with
  | Some (JArr items) => items
  | _ => []
  end.

(** [v || d] *)
Definition orValue (v : option json) (d : json) : json :=
  match v with
  | Some x => if truthy x then x else d
  | None => d
  end.

(** The record that [parseLLMResponse] builds when no field is missing. *)
Definition specOfFields (parsed : list (string * json)) : Spec :=
  {| preconditions := arrayOrEmpty (lookup "preconditions" parsed);
     postconditions := arrayOrEmpty (lookup "postconditions" parsed);
     invariants := arrayOrEmpty (lookup "invariants" parsed);
     edgeCases := arrayOrEmpty (lookup "edgeCases" parsed);
     specComplexity :=
       orValue (lookup "complexity" parsed)
         (JObj [("time", JStr "O(1)"); ("space", JStr "O(1)")]);
     security :=
       orValue (lookup "security" parsed)
         (JObj [("vulnerabilities", JArr []); ("mitigations", JArr [])]);
     confidence :=
       match lookup "confidence" parsed with
       | Some (JNum z) => z
       | _ => 50%Z
       end;
     reasoning := orValue (lookup "reasoning" parsed) (JStr "Generated by LLM") |}.

(** [response.match(/\{[\s\S]*\}/)]: the text from the first opening to
    the last closing brace. *)
Definition jsonMatch (response : string) : option string :=
  option_map (ref 0)
    (exec (Grp 0 (Seq [Lit "{"; Star (Chr (fun _ => true)); Lit "}"])) response).

Inductive Backend : Type := OpenAI | Anthropic.

(** The clients that [initializeClients] has created. *)
Record Clients : Type := mkClients {
  openai : bool;
  anthropic : bool
}.

(** The requests sent so far, oldest first. *)
Definition Calls : Type := list (Backend * Context).

Section Client.
(** [JSON.parse]: the value, or a [SyntaxError]. *)
Variable JSON_parse : string -> Try json.

(** A generative service.  The request is the prompt that [buildPrompt]
    makes of the context; the answer, the text of the completion or an
    exception, may depend on all earlier requests. *)
Variable complete : Backend -> Context -> Calls -> Try string.

Variable clients : Clients.

(** The body of the [try] block of [parseLLMResponse]. *)
Definition decode (response : string) : Try Spec :=
  match jsonMatch response with
  | Some text =>
      let! parsed := JSON_parse text in
      match parsed with
      | JObj fields =>
          let missing := List.filter (fun field => negb (present fields field)) requiredFields in
          if (length missing =? 0)%nat then Return (specOfFields fields)
          else Throw "Invalid JSON response"
      | JNull => Throw "TypeError"
      | _ => Throw "Invalid JSON response"
      end
  | None => Throw "Invalid JSON response"
  end.

(** [parseLLMResponse(response)] *)
Definition parseLLMResponse (response : string) : Try Spec :=
  tryCatch (decode response) (fun _ => Return (generateMockSpec emptyContext)).

(** The common body of [generateWithOpenAI] and [generateWithAnthropic]: the
    request is sent and recorded, then the completion is parsed. *)
Definition generateWith (backend : Backend) (context : Context) : Eff Calls Spec :=
  do! content <- (fun calls => (complete backend context calls,
                                calls ++ [(backend, context)]));
  liftTry (parseLLMResponse content).

(** [generateWithOpenAI(context)] *)
Definition generateWithOpenAI (context : Context) : Eff Calls Spec :=
  generateWith OpenAI context.

(** [generateWithAnthropic(context)] *)
Definition generateWithAnthropic (context : Context) : Eff Calls Spec :=
  generateWith Anthropic context.

(** [generateSpec(context)] *)
Definition generateSpec (context : Context) : Eff Calls Spec :=
  catch
    (if openai clients then generateWithOpenAI context
     else if anthropic clients then generateWithAnthropic context
     else ret (generateMockSpec context))
    (fun _ => ret (generateMockSpec context)).
End Client.

End LLMClient.

(** ** lean4-generator.js *)

Module Lean4Generator.
Import Regex.

Definition notAlnum (a : ascii) : bool := negb (isWord a).

(** [sanitizeName(name)] *)
Definition sanitizeName (name : string) : string :=
  Js.toLowerCase
    (replaceAll (Alt (Cat Bol (Lit "_")) (Cat (Lit "_") Eol)) (fun _ _ => "")
       (replaceAll (Plus (Lit "_")) (fun _ _ => "_")
          (replaceAll (Chr notAlnum) (fun _ _ => "_") name))).

(** The rewriting table of [convertToLeanPredicates], in the order in which
    the function applies it. *)
Definition rewrites : list (regex * (string -> caps -> string)) :=
  let w1 := Grp 1 (Plus word) in
  [ (Lit "is not null/undefined", fun _ _ => "≠ none");
    (Lit "is null/undefined", fun _ _ => "= none");
    (Cat (Lit "is of type ") w1, fun _ c => ": " +:+ ref 1 c);
    (Cat w1 (Lit " > 0"), fun _ c => ref 1 c +:+ " > 0");
    (Cat w1 (Lit " < 0"), fun _ c => ref 1 c +:+ " < 0");
    (Cat w1 (Lit " >= 0"), fun _ c => ref 1 c +:+ " ≥ 0");
    (Cat w1 (Lit " <= 0"), fun _ c => ref 1 c +:+ " ≤ 0");
    (Cat w1 (Lit ".length > 0"),
     fun _ c => "¬(" +:+ ref 1 c +:+ " = " +:+ Js.quote +:+ Js.quote +:+ ")");
    (Cat w1 (Lit ".length === 0"),
     fun _ c => ref 1 c +:+ " = " +:+ Js.quote +:+ Js.quote);
    (Lit "is true", fun _ _ => "= true");
    (Lit "is false", fun _ _ => "= false");
    (Cat w1 (Lit "("), fun _ c => ref 1 c +:+ " ") ].

Definition convertPredicate (predicate : string) : string :=
  fold_left (fun leanPred rw => replaceAll (fst rw) (snd rw) leanPred) rewrites predicate.

(** [convertToLeanPredicates(predicates)] *)
Definition convertToLeanPredicates (predicates : list string) : list string :=
  map convertPredicate predicates.

(** [xs[0]] inside a template literal. *)
Definition first (xs : list string) : string :=
  match xs with
  | x :: _ => x
  | [] => "undefined"
  end.

Definition lemmaFor (prefix : string) (i : nat) (predicate : string) : string :=
  let lemmaName := prefix +:+ Js.ofNat (i + 1) +:+ "_" +:+ sanitizeName predicate in
  let leanPredicate := first (convertToLeanPredicates [predicate]) in
  "lemma " +:+ lemmaName +:+ " : " +:+ leanPredicate +:+ " := sorry".

(** The body of a counting loop of [generateHelperLemmas] on an entry of
    the record.  [sanitizeName(entry)] starts with [name.replace], which a
    text has; on every other value of a JSON array, a number, a boolean,
    [null], an array or an object, the call throws a TypeError. *)
Definition lemmaOf (prefix : string) (i : nat) (entry : LLMClient.json) : Try string :=
  match entry with
  | LLMClient.JStr predicate => Return (lemmaFor prefix i predicate)
  | _ => Throw "TypeError"
  end.

(** One of the two counting loops of [generateHelperLemmas]. *)
Fixpoint lemmasFrom (prefix : string) (i : nat) (entries : list LLMClient.json)
  : Try (list string) :=
  match entries with
  | [] => Return []
  | entry :: rest =>
      let! lemma := lemmaOf prefix i entry in
      let! lemmas := lemmasFrom prefix (S i) rest in
      Return (lemma :: lemmas)
  end.

(** [generateHelperLemmas(invariants, edgeCases)] on the two arrays of a
    record, whose entries are the JSON values of the response. *)
Definition generateHelperLemmas (invariants edgeCases : list LLMClient.json)
  : Try (list string) :=
  let! fromInvariants := lemmasFrom "invariant_" 0 invariants in
  let! fromEdgeCases := lemmasFrom "edge_case_" 0 edgeCases in
  Return (fromInvariants ++ fromEdgeCases).

End Lean4Generator.

(** ** spec-analyzer.js *)

Module SpecAnalyzer.

(** The suggestion that [generateSpecSuggestion] builds and caches. *)
Record Suggestion : Type := mkSuggestion {
  functionName : string;
  filePath : string;
  lineNumber : nat;
  preconditions : list LLMClient.json;
  postconditions : list LLMClient.json;
  invariants : list LLMClient.json;
  edgeCases : list LLMClient.json;
  confidence : Z;
  reasoning : LLMClient.json
}.

(** The analyzer: its [specCache] and the requests that its [llmClient]
    has sent. *)
Record State : Type := mkState {
  specCache : gmap string Suggestion;
  calls : LLMClient.Calls
}.

(** [cleanFunctionBody(functionBody)] *)
Definition cleanFunctionBody (functionBody : string) : string :=
  Js.join Js.nl
    (List.filter (fun line => Js.truthy (trim line))
       (map (Regex.replaceFirst DiffParser.marker (fun _ _ => ""))
          (Js.lines functionBody))).

(** [getLanguageFromPath(filePath)] *)
Definition getLanguageFromPath (filePath : string) : string :=
  let ext := Js.extname filePath in
  if String.eqb ext ".js" then "JavaScript"
  else if String.eqb ext ".jsx" then "JavaScript"
  else if String.eqb ext ".ts" then "TypeScript"
  else if String.eqb ext ".tsx" then "TypeScript"
  else if String.eqb ext ".py" then "Python"
  else if String.eqb ext ".java" then "Java"
  else if String.eqb ext ".rs" then "Rust"
  else if String.eqb ext ".cpp" then "C++"
  else if String.eqb ext ".c" then "C"
  else "Unknown".

Definition inputOf (p : ASTExtractor.Param) : LLMClient.Input :=
  {| LLMClient.name := ASTExtractor.name p;
     LLMClient.type := Some (ASTExtractor.type p);
     LLMClient.required := Some (ASTExtractor.required p) |}.

Definition guardOf (g : ASTExtractor.Stmt) : LLMClient.Guard :=
  {| LLMClient.condition := ASTExtractor.condition g |}.

Definition returnOf (r : ASTExtractor.EarlyReturn) : LLMClient.EarlyReturn :=
  {| LLMClient.value := Some (ASTExtractor.value r) |}.

(** [prepareLLMContext(analysis)] *)
Definition prepareLLMContext (analysis : ASTExtractor.Analysis) : LLMClient.Context :=
  let change := ASTExtractor.change analysis in
  let ast := ASTExtractor.ast analysis in
  {| LLMClient.functionName := DiffParser.functionName change;
     LLMClient.functionBody := cleanFunctionBody (DiffParser.functionBody change);
     LLMClient.inputTypes := Some (map inputOf (ASTExtractor.inputTypes ast));
     LLMClient.outputType := ASTExtractor.outputType ast;
     LLMClient.conditionalGuards := Some (map guardOf (ASTExtractor.conditionalGuards ast));
     LLMClient.loops := ASTExtractor.loops ast;
     LLMClient.branching := ASTExtractor.branching ast;
     LLMClient.earlyReturns := Some (map returnOf (ASTExtractor.earlyReturns ast));
     LLMClient.controlFlow := Some (ASTExtractor.controlFlow ast);
     LLMClient.complexity := Some (ASTExtractor.complexity ast);
     LLMClient.comments :=
       Js.join Js.nl (map DiffParser.text (DiffParser.comments change));
     LLMClient.language := getLanguageFromPath (DiffParser.filePath change) |}.

(** The key under which a suggestion is cached. *)
Definition cacheKey (analysis : ASTExtractor.Analysis) : string :=
  DiffParser.filePath (ASTExtractor.change analysis) +:+ ":"
  +:+ DiffParser.functionName (ASTExtractor.change analysis).

(** [spec.reasoning || ''] *)
Definition reasoningOr (v : LLMClient.json) : LLMClient.json :=
  if LLMClient.truthy v then v else LLMClient.JStr "".

Definition suggestionOf (analysis : ASTExtractor.Analysis) (spec : LLMClient.Spec) : Suggestion :=
  let change := ASTExtractor.change analysis in
  {| functionName := DiffParser.functionName change;
     filePath := DiffParser.filePath change;
     lineNumber := DiffParser.fcLineNumber change;
     preconditions := LLMClient.preconditions spec;
     postconditions := LLMClient.postconditions spec;
     invariants := LLMClient.invariants spec;
     edgeCases := LLMClient.edgeCases spec;
     confidence := if (LLMClient.confidence spec =? 0)%Z then 0%Z else LLMClient.confidence spec;
     reasoning := reasoningOr (LLMClient.reasoning spec) |}.

Section Analyzer.
Variable JSON_parse : string -> Try LLMClient.json.
Variable complete : LLMClient.Backend -> LLMClient.Context -> LLMClient.Calls -> Try string.
Variable clients : LLMClient.Clients.

(** [callLLM(context)]: the client works on the requests of the state. *)
Definition callLLM (context : LLMClient.Context) : Eff State LLMClient.Spec :=
  fun st =>
    let (r, calls') := LLMClient.generateSpec JSON_parse complete clients context (calls st) in
    (r, {| specCache := specCache st; calls := calls' |}).

(** [this.specCache.set(cacheKey, suggestion)] *)
Definition cacheSet (key : string) (suggestion : Suggestion) : Eff State unit :=
  fun st => (Return tt, {| specCache := <[key := suggestion]> (specCache st);
                           calls := calls st |}).

(** [generateSpecSuggestion(analysis, context)] *)
Definition generateSpecSuggestion (analysis : ASTExtractor.Analysis) : Eff State Suggestion :=
  fun st =>
    let cacheKey := cacheKey analysis in
    match specCache st !! cacheKey with
    | Some cached => (Return cached, st)
    | None =>
        (let llmContext := prepareLLMContext analysis in
         do! spec <- callLLM llmContext;
         let suggestion := suggestionOf analysis spec in
         do! _ <- cacheSet cacheKey suggestion;
         ret suggestion) st
    end.

(** [analyzeChanges(astAnalysis, context)]: a suggestion that throws is
    logged and left out. *)
Fixpoint analyzeChanges (astAnalysis : list ASTExtractor.Analysis) (st : State)
  : list Suggestion * State :=
  match astAnalysis with
  | [] => ([], st)
  | analysis :: rest =>
      match generateSpecSuggestion analysis st with
      | (Return suggestion, st') =>
          let (suggestions, st'') := analyzeChanges rest st' in
          (suggestion :: suggestions, st'')
      | (Throw _, st') => analyzeChanges rest st'
      end
  end.
End Analyzer.

End SpecAnalyzer.

(** ** spec-coverage.js *)

Module SpecCoverage.
Import Regex.

(** [analyzeCurrentImplementation]: the coarse fingerprint of a body. *)
Record Implementation : Type := mkImplementation {
  complexity : Z;
  hasValidation : bool;
  hasReturn : bool;
  lines : nat
}.

(** [calculateComplexity(functionBody)] *)
Definition calculateComplexity (functionBody : string) : Z :=
  let complexity := 1%Z in
  let ifMatches := countMatches (Seq [Lit "if"; Star ws; Lit "("]) functionBody in
  let complexity := (complexity + Z.of_nat ifMatches)%Z in
  let loopMatches :=
    countMatches (Seq [OneOf [Lit "for"; Lit "while"; Lit "do"]; Star ws; Lit "("])
      functionBody in
  let complexity := (complexity + Z.of_nat loopMatches)%Z in
  let returnMatches := countMatches (Lit "return") functionBody in
  if (0 <? returnMatches)%nat then (complexity + (Z.of_nat returnMatches - 1))%Z
  else complexity.

Definition analyzeCurrentImplementation (functionBody : string) : Implementation :=
  {| complexity := calculateComplexity functionBody;
     hasValidation := Js.includes "if" functionBody || Js.includes "throw" functionBody;
     hasReturn := Js.includes "return" functionBody;
     lines := length (Js.lines functionBody) |}.

(** A stored specification as [compareWithSpec] reads it.  Of the two
    properties that the comparison looks at, [specComplexity] is [None]
    when [spec.complexity * 1.5] is not a number and [specHasValidation]
    is [None] when [spec.hasValidation] is not a boolean, as for a record
    that does not carry the property. *)
Record ExistingSpec : Type := mkExistingSpec {
  preconditions : list string;
  postconditions : list string;
  invariants : list string;
  edgeCases : list string;
  specConfidence : Z;
  specComplexity : option Z;
  specHasValidation : option bool
}.

Record Drift : Type := mkDrift {
  hasDrift : bool;
  details : list string;
  confidence : Z
}.

(** [current.complexity > spec.complexity * 1.5]; a comparison with
    [undefined * 1.5] is false. *)
Definition complexityIncreased (current : Implementation) (spec : ExistingSpec) : bool :=
  match specComplexity spec with
  | Some previous => (3 * previous <? 2 * complexity current)%Z
  | None => false
  end.

(** [current.hasValidation !== spec.hasValidation] *)
Definition validationChanged (current : Implementation) (spec : ExistingSpec) : bool :=
  match specHasValidation spec with
  | Some previous => negb (Bool.eqb (hasValidation current) previous)
  | None => true
  end.

(** [compareWithSpec(current, spec)] *)
Definition compareWithSpec (current : Implementation) (spec : ExistingSpec) : Drift :=
  let drift := {| hasDrift := false; details := []; confidence := 0 |} in
  let drift :=
    if complexityIncreased current spec then
      {| hasDrift := true;
         details := details drift ++ ["Function complexity increased significantly"];
         confidence := confidence drift |}
    else drift in
  let drift :=
    if validationChanged current spec then
      {| hasDrift := true;
         details := details drift ++ ["Input validation patterns changed"];
         confidence := confidence drift |}
    else drift in
  let changes := Z.of_nat (length (details drift)) in
  {| hasDrift := hasDrift drift;
     details := details drift;
     confidence := Z.min 100 (changes * 25) |}.

(** The result of [analyzeFunctionDrift]; a property that the returned
    object does not have is [None]. *)
Record DriftResult : Type := mkDriftResult {
  functionName : string;
  filePath : string;
  resultHasDrift : bool;
  reason : option string;
  previousSpec : option ExistingSpec;
  currentImplementation : option Implementation;
  driftDetails : option (list string);
  resultConfidence : option Z
}.

Section Tracker.
(** [findExistingSpec(functionName)]: the stored specification read from
    the specification files, [None] when there is none. *)
Variable findExistingSpec : string -> option ExistingSpec.

(** [analyzeFunctionDrift(functionData, context)] *)
Definition analyzeFunctionDrift (functionData : DiffParser.FunctionChange) : DriftResult :=
  let functionName := DiffParser.functionName functionData in
  let functionBody := DiffParser.functionBody functionData in
  let filePath := DiffParser.filePath functionData in
  match findExistingSpec functionName with
  | None =>
      {| functionName := functionName;
         filePath := filePath;
         resultHasDrift := false;
         reason := Some "No existing spec found";
         previousSpec := None;
         currentImplementation := None;
         driftDetails := None;
         resultConfidence := None |}
  | Some existingSpec =>
      let currentAnalysis := analyzeCurrentImplementation functionBody in
      let drift := compareWithSpec currentAnalysis existingSpec in
      {| functionName := functionName;
         filePath := filePath;
         resultHasDrift := hasDrift drift;
         reason := None;
         previousSpec := Some existingSpec;
         currentImplementation := Some currentAnalysis;
         driftDetails := Some (details drift);
         resultConfidence := Some (confidence drift) |}
  end.
End Tracker.

End SpecCoverage.

(** ** spec-coverage.js: the stored specifications and the source files *)

Module SpecFiles.
Import Regex SpecCoverage.

(** [.*?] under the [s] flag on an input of at most [n] characters: the
    shortest run of characters first, one character more at every retry. *)
Fixpoint lazyAny (n : nat) : regex :=
  match n with
  | O => Eps
  | S n' => Alt Eps (Cat (Chr (fun _ => true)) (lazyAny n'))
  end.

(** [\d] *)
Definition digit : regex := Range 48 57.

Fixpoint parseDigits (acc : Z) (s : string) : Z :=
  match s with
  | EmptyString => acc
  | String a s' => parseDigits (10 * acc + (Z.of_nat (nat_of_ascii a) - 48)) s'
  end.

(** [parseInt(s)] for a run of decimal digits [s]: its value, which is the
    number that JavaScript gives while the value is below 2^53. *)
Definition parseInt (s : string) : Z := parseDigits 0 s.

(** [s.split(sep)] for a separator [sep] that is not empty; [skip] counts
    the characters of a separator that are still to be passed. *)
Fixpoint split (sep : string) (skip : nat) (s : string) : list string :=
  match s with
  | EmptyString => [EmptyString]
  | String a s' =>
      match skip with
      | S skip' => split sep skip' s'
      | O =>
          if String.prefix sep s then
            EmptyString :: split sep (String.length sep - 1) s'
          else
            match split sep 0 s' with
            | [] => [String a EmptyString]
            | x :: xs => String a x :: xs
            end
      end
  end.

(** [s.endsWith(p)] *)
Definition endsWith (p s : string) : bool :=
  (String.length p <=? String.length s)%nat
  && String.eqb (String.substring (String.length s - String.length p) (String.length p) s) p.

(** [parsePredicates(predicateString)] *)
Definition parsePredicates (predicateString : string) : list string :=
  let parts := split "∧" 0 predicateString in
  flat_map
    (fun part =>
       let clean := trim part in
       if Js.truthy clean && negb (Js.includes "sorry" clean) then [clean] else [])
    parts.

(** [parseSpecFile(content)]: the record has the five properties that the
    function sets and no other, so that neither [complexity] nor
    [hasValidation] is there to be read. *)
Definition parseSpecFile (content : string) : ExistingSpec :=
  let confidence :=
    match exec (Seq [Lit "-- Confidence: "; Grp 1 (Plus digit); Lit "%"]) content with
    | Some confidenceMatch => parseInt (ref 1 confidenceMatch)
    | None => 0%Z
    end in
  let preconditions :=
    match exec (Seq [Lit "theorem"; lazyAny (String.length content); Lit ":";
                     Grp 1 (lazyAny (String.length content)); Lit " :="]) content with
    | Some theoremMatch =>
        let theorem := ref 1 theoremMatch in
        match exec (Seq [Lit "∀"; lazyAny (String.length theorem); Lit ":";
                         Grp 1 (lazyAny (String.length theorem)); Lit "→"]) theorem with
        | Some precondMatch => parsePredicates (ref 1 precondMatch)
        | None => []
        end
    | None => []
    end in
  {| preconditions := preconditions;
     postconditions := [];
     invariants := [];
     edgeCases := [];
     specConfidence := confidence;
     specComplexity := None;
     specHasValidation := None |}.

(** [extractFunctionNameFromSpec(content)] *)
Definition extractFunctionNameFromSpec (content : string) : option string :=
  match exec (Cat (Lit "-- Function: ") (Grp 1 (Plus word))) content with
  | Some m => Some (ref 1 m)
  | None => None
  end.

(** The patterns of [countFunctionsInFile] for an extension. *)
Definition patternsFor (extension : string) : list regex :=
  let declared (keyword : string) :=
    Seq [Lit keyword; Plus ws; Plus word; Star ws; Lit "="; Star ws; Lit "("] in
  if String.eqb extension ".js" || String.eqb extension ".ts" then
    [ Seq [Lit "function"; Plus ws; Plus word; Star ws; Lit "("];
      declared "const"; declared "let"; declared "var";
      Seq [Lit "=>"; Star ws; Lit "{"] ]
  else if String.eqb extension ".py" then
    [ Seq [Lit "def"; Plus ws; Plus word; Star ws; Lit "("] ]
  else if String.eqb extension ".java" then
    [ Seq [Opt (Grp 1 (OneOf [Lit "public"; Lit "private"; Lit "protected"]));
           Star ws; Opt (Grp 2 (Cat (Lit "static") (Plus ws)));
           Plus word; Plus ws; Plus word; Star ws; Lit "("] ]
  else if String.eqb extension ".rs" then
    [ Seq [Lit "fn"; Plus ws; Plus word; Star ws; Lit "("] ]
  else [].

(** [countFunctionsInFile(content, extension)] *)
Definition countFunctionsInFile (content extension : string) : nat :=
  fold_left (fun count pattern => (count + countMatches pattern content)%nat)
    (patternsFor extension) 0%nat.

(** [s.match(r)] for a [g] pattern that matches somewhere: the matched
    texts, in order. *)
Definition matchAll (r : regex) (s : string) : list string :=
  scan r (fun m _ rest => m :: rest) (fun _ rest => rest) [] 0 0 s.

(** [match.match(/keyword\s+(\w+)/)[1]]; reading [[1]] of [null] throws. *)
Definition nameIn (keyword : string) (matched : string) : Try string :=
  match exec (Seq [Lit keyword; Plus ws; Grp 1 (Plus word)]) matched with
  | Some m => Return (ref 1 m)
  | None => Throw "TypeError"
  end.

(** The [forEach] of [extractFunctionNames] over the matched texts. *)
Fixpoint namesIn (keyword : string) (matches : list string) : Try (list string) :=
  match matches with
  | [] => Return []
  | matched :: rest =>
      let! name := nameIn keyword matched in
      let! names := namesIn keyword rest in
      Return (name :: names)
  end.

(** [extractFunctionNames(content, extension)] *)
Definition extractFunctionNames (content extension : string) : Try (list string) :=
  let declared (keyword : string) :=
    Seq [Lit keyword; Plus ws; Grp 1 (Plus word); Star ws; Lit "("] in
  if String.eqb extension ".js" || String.eqb extension ".ts" then
    namesIn "function" (matchAll (declared "function") content)
  else if String.eqb extension ".py" then
    namesIn "def" (matchAll (declared "def") content)
  else Return [].

Section Files.
(** The file system: [fs.readdir(dir)] and [fs.readFile(file, 'utf8')], each
    of which may throw, and [path.join]. *)
Variable readdir : string -> Try (list string).
Variable readFile : string -> Try string.
Variable pathJoin : string -> string -> string.
(** [this.specsDir] *)
Variable specsDir : string.

(** [findSpecFiles()] *)
Definition findSpecFiles : list string :=
  match readdir specsDir with
  | Return files =>
      flat_map (fun file => if endsWith ".lean" file then [pathJoin specsDir file] else [])
        files
  | Throw _ => []
  end.

(** The loop of [findExistingSpec] over the specification files. *)
Fixpoint firstSpec (functionName : string) (specFiles : list string)
  : option ExistingSpec :=
  match specFiles with
  | [] => None
  | specFile :: rest =>
      match readFile specFile with
      | Return content =>
          if Js.includes ("Function: " +:+ functionName) content
          then Some (parseSpecFile content)
          else firstSpec functionName rest
      | Throw _ => firstSpec functionName rest
      end
  end.

(** [findExistingSpec(functionName)] *)
Definition findExistingSpec (functionName : string) : option ExistingSpec :=
  firstSpec functionName findSpecFiles.

(** [detectDrift(changedFunctions, context)]; for a change with a body
    nothing in the loop throws, so its [catch] is not entered. *)
Definition detectDrift (changedFunctions : list DiffParser.FunctionChange)
  : list DriftResult :=
  flat_map
    (fun func =>
       let drift := analyzeFunctionDrift findExistingSpec func in
       if resultHasDrift drift then [drift] else [])
    changedFunctions.

(** [countFunctions(sourceFiles)] *)
Definition countFunctions (sourceFiles : list string) : nat :=
  fold_left
    (fun totalFunctions file =>
       match readFile file with
       | Return content =>
           (totalFunctions + countFunctionsInFile content (Js.extname file))%nat
       | Throw _ => totalFunctions
       end)
    sourceFiles 0%nat.
End Files.

End SpecFiles.

(** ** What a pattern matches

    [Matches r pos s rest]: the pattern [r] can match the text [s] at
    offset [pos] of an input that goes on with [rest].  The relation leaves
    out the order in which the matcher tries the alternatives and the
    captures that it records. *)

Inductive Matches : Regex.regex -> nat -> string -> string -> Prop :=
| M_eps pos rest : Matches Regex.Eps pos "" rest
| M_chr p a pos rest : p a = true -> Matches (Regex.Chr p) pos (String a "") rest
| M_cat r1 r2 pos s1 s2 rest :
    Matches r1 pos s1 (s2 +:+ rest) ->
    Matches r2 (pos + String.length s1) s2 rest ->
    Matches (Regex.Cat r1 r2) pos (s1 +:+ s2) rest
| M_alt_l r1 r2 pos s rest : Matches r1 pos s rest -> Matches (Regex.Alt r1 r2) pos s rest
| M_alt_r r1 r2 pos s rest : Matches r2 pos s rest -> Matches (Regex.Alt r1 r2) pos s rest
| M_star_nil r pos rest : Matches (Regex.Star r) pos "" rest
| M_star_cons r pos s1 s2 rest :
    s1 <> "" ->
    Matches r pos s1 (s2 +:+ rest) ->
    Matches (Regex.Star r) (pos + String.length s1) s2 rest ->
    Matches (Regex.Star r) pos (s1 +:+ s2) rest
| M_grp n r pos s rest : Matches r pos s rest -> Matches (Regex.Grp n r) pos s rest
| M_bol rest : Matches Regex.Bol 0 "" rest
| M_eol pos : Matches Regex.Eol pos "" "".

(** A pattern without [^] and [$]. *)
Fixpoint anchorless (r : Regex.regex) : bool :=
  match r with
  | Regex.Eps | Regex.Chr _ => true
  | Regex.Cat r1 r2 | Regex.Alt r1 r2 => anchorless r1 && anchorless r2
  | Regex.Star r1 | Regex.Grp _ r1 => anchorless r1
  | Regex.Bol | Regex.Eol => false
  end.

(** A pattern without capture groups. *)
Fixpoint groupless (r : Regex.regex) : bool :=
  match r with
  | Regex.Eps | Regex.Chr _ | Regex.Bol | Regex.Eol => true
  | Regex.Cat r1 r2 | Regex.Alt r1 r2 => groupless r1 && groupless r2
  | Regex.Star r1 => groupless r1
  | Regex.Grp _ _ => false
  end.

(** The pattern with its groups opened: [(r)] becomes [r]. *)
Fixpoint strip (r : Regex.regex) : Regex.regex :=
  match r with
  | Regex.Cat r1 r2 => Regex.Cat (strip r1) (strip r2)
  | Regex.Alt r1 r2 => Regex.Alt (strip r1) (strip r2)
  | Regex.Star r1 => Regex.Star (strip r1)
  | Regex.Grp _ r1 => strip r1
  | _ => r
  end.

(** The loop that the matcher runs for [r*], by itself. *)
Definition starLoop {A : Type} (r1 : Regex.regex) (k : nat -> string -> Regex.caps -> option A)
  : nat -> nat -> string -> Regex.caps -> option A :=
  fix loop (fuel : nat) (pos : nat) (s : string) (c : Regex.caps) : option A :=
    match fuel with
    | O => k pos s c
    | S fuel' =>
        match Regex.run r1 pos s c
                (fun pos' s' c' =>
                   if (pos <? pos')%nat then loop fuel' pos' s' c' else None)
        with
        | Some x => Some x
        | None => k pos s c
        end
    end.

(** Every group [n] of the pattern encloses a pattern that matches only
    texts with the property [Q]. *)
Fixpoint groupsOk (n : nat) (Q : string -> Prop) (r : Regex.regex) : Prop :=
  match r with
  | Regex.Cat r1 r2 | Regex.Alt r1 r2 => groupsOk n Q r1 /\ groupsOk n Q r2
  | Regex.Star r1 => groupsOk n Q r1
  | Regex.Grp m r1 =>
      (m = n -> forall pos s rest, Matches r1 pos s rest -> Q s) /\ groupsOk n Q r1
  | _ => True
  end.

(** Every match of the pattern goes through a group [n]. *)
Fixpoint sets (n : nat) (r : Regex.regex) : bool :=
  match r with
  | Regex.Cat r1 r2 => sets n r1 || sets n r2
  | Regex.Alt r1 r2 => sets n r1 && sets n r2
  | Regex.Grp m r1 => (m =? n)%nat || sets n r1
  | _ => false
  end.

(** * The predicates and scenarios of the specification *)

Section Scenarios.
Import LLMClient.



(** The context of scenario A: three required parameters of type [number],
    no early return, complexity 1. *)
Definition scenarioA : Context :=
  {| functionName := "calculateInterest"; language := "JavaScript";
     functionBody := "function calculateInterest(principal, rate, time) { return principal * rate * time; }";
     inputTypes := Some [ {| name := "principal"; type := Some "number"; required := Some true |};
                          {| name := "rate"; type := Some "number"; required := Some true |};
                          {| name := "time"; type := Some "number"; required := Some true |} ];
     outputType := "number"; conditionalGuards := Some [];
     loops := []; branching := []; earlyReturns := Some []; controlFlow := None;
     complexity := Some 1%Z; comments := "" |}.

(** A context of complexity 21, as for a function with twenty guards. *)
Definition deepContext : Context :=
  {| functionName := "dispatch"; language := "JavaScript"; functionBody := "";
     inputTypes := Some []; outputType := "any"; conditionalGuards := Some [];
     loops := []; branching := []; earlyReturns := Some []; controlFlow := None;
     complexity := Some 21%Z; comments := "" |}.

(** A JSON string literal. *)
Definition quoted (s : string) : string := Js.quote +:+ s +:+ Js.quote.

(** A completion that has the four lists and a confidence of 150. *)
Definition overconfidentText : string :=
  "{" +:+ quoted "preconditions" +:+ ":[" +:+ quoted "x > 0" +:+ "],"
  +:+ quoted "postconditions" +:+ ":[" +:+ quoted "result > 0" +:+ "],"
  +:+ quoted "invariants" +:+ ":[" +:+ quoted "state consistent" +:+ "],"
  +:+ quoted "edgeCases" +:+ ":[" +:+ quoted "x = 0" +:+ "],"
  +:+ quoted "confidence" +:+ ":150}".

Definition overconfidentValue : json :=
  JObj [("preconditions", JArr [JStr "x > 0"]);
        ("postconditions", JArr [JStr "result > 0"]);
        ("invariants", JArr [JStr "state consistent"]);
        ("edgeCases", JArr [JStr "x = 0"]);
        ("confidence", JNum 150)].

(** A completion that has the four lists and no confidence. *)
Definition unscoredText : string :=
  "{" +:+ quoted "preconditions" +:+ ":[" +:+ quoted "x > 0" +:+ "],"
  +:+ quoted "postconditions" +:+ ":[" +:+ quoted "result > 0" +:+ "],"
  +:+ quoted "invariants" +:+ ":[" +:+ quoted "state consistent" +:+ "],"
  +:+ quoted "edgeCases" +:+ ":[" +:+ quoted "x = 0" +:+ "]}".

Definition unscoredValue : json :=
  JObj [("preconditions", JArr [JStr "x > 0"]);
        ("postconditions", JArr [JStr "result > 0"]);
        ("invariants", JArr [JStr "state consistent"]);
        ("edgeCases", JArr [JStr "x = 0"])].

(** [JSON.parse] on the two completions above; any other text is taken to
    be ill-formed. *)
Definition parseKnown (text : string) : Try json :=
  if String.eqb text overconfidentText then Return overconfidentValue
  else if String.eqb text unscoredText then Return unscoredValue
  else Throw "SyntaxError".

(** The services of scenario E: the first throws, the second answers
    without a confidence. *)
Definition servicesE (backend : Backend) (context : Context) (calls : Calls) : Try string :=
  match backend with
  | OpenAI => Throw "API Error"
  | Anthropic => Return unscoredText
  end.

Definition bothClients : Clients := {| openai := true; anthropic := true |}.

Definition onlyAnthropic : Clients := {| openai := false; anthropic := true |}.

(** The backend that [generateSpec] selects: the first client that exists. *)
Definition firstConfigured (clients : Clients) : option Backend :=
  if openai clients then Some OpenAI
  else if anthropic clients then Some Anthropic
  else None.

(** The number of drift conditions that hold. *)
Definition triggered (current : SpecCoverage.Implementation)
           (spec : SpecCoverage.ExistingSpec) : nat :=
  (if SpecCoverage.complexityIncreased current spec then 1 else 0)
  + (if SpecCoverage.validationChanged current spec then 1 else 0).

(** Scenario C: a body of complexity 4 (one guard, one loop, one early
    return) against a record of complexity 2 with validation. *)
Definition bodyC : string :=
  "function clamp(a) {" +:+ Js.nl
  +:+ "  if (a < 0) { return 0; }" +:+ Js.nl
  +:+ "  while (a > 100) { a = a - 100; }" +:+ Js.nl
  +:+ "  return a;" +:+ Js.nl
  +:+ "}".

Definition previousC : SpecCoverage.ExistingSpec :=
  {| SpecCoverage.preconditions := ["a ≠ none"];
     SpecCoverage.postconditions := [];
     SpecCoverage.invariants := [];
     SpecCoverage.edgeCases := [];
     SpecCoverage.specConfidence := 85;
     SpecCoverage.specComplexity := Some 2%Z;
     SpecCoverage.specHasValidation := Some true |}.

Definition changeC : DiffParser.FunctionChange :=
  {| DiffParser.filePath := "src/clamp.js";
     DiffParser.functionName := "clamp";
     DiffParser.functionBody := bodyC;
     DiffParser.fcLineNumber := 1;
     DiffParser.fcChangeType := "modified";
     DiffParser.comments := [] |}.

(** The file diff of scenario B. *)
Definition hunkB : string := "+function add(a,b){return a+b;}".


(** The degraded analysis of the function [add] of [src/add.js] with the
    given body. *)
Definition analysisOf (functionBody : string) : ASTExtractor.Analysis :=
  ASTExtractor.createBasicAnalysis
    {| DiffParser.filePath := "src/add.js";
       DiffParser.functionName := "add";
       DiffParser.functionBody := functionBody;
       DiffParser.fcLineNumber := 1;
       DiffParser.fcChangeType := "added";
       DiffParser.comments := [] |}.

Definition emptyState : SpecAnalyzer.State :=
  {| SpecAnalyzer.specCache := ∅; SpecAnalyzer.calls := [] |}.

(** The name, the line number and the change marker that the loop of
    [extractFunctions] gives to the function that a line opens. *)
Definition opening (i : nat) (c : Regex.caps) : string * nat * string :=
  (Regex.ref 2 c, i + 1,
   match Regex.group 1 c with
   | Some m => if Js.truthy m then m else "modified"
   | None => "modified"
   end).

(** The openings of the lines that match a function pattern, from line
    index [i] on. *)
Fixpoint openings (i : nat) (ls : list string) : list (string * nat * string) :=
  match ls with
  | [] => []
  | line :: ls' =>
      match DiffParser.firstMatch DiffParser.functionPatterns line with
      | Some c => opening i c :: openings (S i) ls'
      | None => openings (S i) ls'
      end
  end.

(** The functions of a scan, closed and open. *)
Definition collected (st : DiffParser.Scan) : list DiffParser.Func :=
  DiffParser.functions st
  ++ match DiffParser.currentFunction st with Some f => [f] | None => [] end.

Definition summary (f : DiffParser.Func) : string * nat * string :=
  (DiffParser.name f, DiffParser.lineNumber f, DiffParser.changeType f).

(** A line with which the diff starts the section of a file. *)
Definition header (line : string) : Prop := Js.startsWith "diff --git" line = true.

(** A header that mentions the file name. *)
Definition mentions (filename line : string) : Prop := Js.includes filename line = true.

(** A string without the character [sep]. *)
Fixpoint free (sep : ascii) (s : string) : Prop :=
  match s with
  | EmptyString => True
  | String a s' => a <> sep /\ free sep s'
  end.

(** A function whose body starts with the line that opened it, twice, the
    line being one of [ls] that matches a function pattern. *)
Definition opensTwice (ls : list string) (f : DiffParser.Func) : Prop :=
  exists line rest,
    In line ls
    /\ DiffParser.firstMatch DiffParser.functionPatterns line <> None
    /\ DiffParser.body f = line +:+ Js.nl +:+ line +:+ rest.

(** The nodes of a syntax tree, a node before its children. *)
Fixpoint subtree (n : ASTExtractor.SyntaxNode) : list ASTExtractor.SyntaxNode :=
  match n with
  | ASTExtractor.Node _ _ _ cs =>
      n :: (fix below (cs : list (option string * ASTExtractor.SyntaxNode)) :=
              match cs with
              | [] => []
              | (_, c) :: cs' => subtree c ++ below cs'
              end) cs
  end.

(** The height of a syntax tree: the number of edges of its longest path
    from the root down. *)
Fixpoint height (n : ASTExtractor.SyntaxNode) : nat :=
  match n with
  | ASTExtractor.Node _ _ _ cs =>
      (fix tallest (cs : list (option string * ASTExtractor.SyntaxNode)) :=
         match cs with
         | [] => 0%nat
         | (_, c) :: cs' => Nat.max (S (height c)) (tallest cs')
         end) cs
  end.

(** A node that [findNodesByType] reports from the tree [n] entered with the
    parent link [up0]: the root with that link, or a node with the parent
    and the position that the tree gives it. *)
Definition linked (n : ASTExtractor.SyntaxNode)
           (up0 : option (ASTExtractor.SyntaxNode * nat)) (r : ASTExtractor.NodeRef) : Prop :=
  (ASTExtractor.self r = n /\ ASTExtractor.up r = up0)
  \/ exists parent i field,
      ASTExtractor.up r = Some (parent, i)
      /\ In parent (subtree n)
      /\ ASTExtractor.kids parent !! i = Some (field, ASTExtractor.self r).

(** The inner loops of [findNodesByType], [subtree] and [height] over the
    children of a node. *)
Fixpoint findBelow (types : list string) (root : ASTExtractor.SyntaxNode) (i : nat)
         (cs : list (option string * ASTExtractor.SyntaxNode)) : list ASTExtractor.NodeRef :=
  match cs with
  | [] => []
  | (_, c) :: cs' =>
      ASTExtractor.findFrom types (Some (root, i)) c ++ findBelow types root (S i) cs'
  end.

Fixpoint subtrees (cs : list (option string * ASTExtractor.SyntaxNode))
  : list ASTExtractor.SyntaxNode :=
  match cs with
  | [] => []
  | (_, c) :: cs' => subtree c ++ subtrees cs'
  end.

Fixpoint tallest (cs : list (option string * ASTExtractor.SyntaxNode)) : nat :=
  match cs with
  | [] => 0%nat
  | (_, c) :: cs' => Nat.max (S (height c)) (tallest cs')
  end.

(** The loop of [calculateMaxDepth] over the children of a node. *)
Fixpoint deepest (currentDepth : nat) (cs : list (option string * ASTExtractor.SyntaxNode))
         (maxDepth : nat) : nat :=
  match cs with
  | [] => maxDepth
  | (_, c) :: cs' =>
      deepest currentDepth cs'
        (Nat.max maxDepth (ASTExtractor.calculateMaxDepth c (currentDepth + 1)))
  end.

(** A function with one guarded early return and a final return. *)
Definition earlyTree : ASTExtractor.NodeRef :=
  {| ASTExtractor.self :=
       ASTExtractor.Node "function_declaration" "function clamp(a) {...}" 0
         [ (Some "name", ASTExtractor.Node "identifier" "clamp" 0 []);
           (Some "body",
            ASTExtractor.Node "statement_block" "{...}" 0
              [ (None,
                 ASTExtractor.Node "if_statement" "if (a < 0) return 0;" 1
                   [ (Some "condition",
                      ASTExtractor.Node "parenthesized_expression" "(a < 0)" 1 []);
                     (Some "consequence",
                      ASTExtractor.Node "statement_block" "{ return 0; }" 1
                        [ (None,
                           ASTExtractor.Node "return_statement" "return 0;" 1
                             [(None, ASTExtractor.Node "identifier" "0" 1 [])]);
                          (None, ASTExtractor.Node "}" "}" 1 []) ]) ]);
                (None,
                 ASTExtractor.Node "return_statement" "return a;" 2
                   [(None, ASTExtractor.Node "identifier" "a" 2 [])]) ]) ];
     ASTExtractor.up := None |}.

(** An early return whose value is taken as a condition that holds. *)
Definition hasValue (r : EarlyReturn) : bool :=
  match value r with
  | Some v => Js.truthy v
  | None => false
  end.

(** A completion whose confidence is zero, and its value. *)
Definition zeroText : string :=
  "{" +:+ quoted "preconditions" +:+ ":[" +:+ quoted "x > 0" +:+ "],"
  +:+ quoted "postconditions" +:+ ":[" +:+ quoted "result > 0" +:+ "],"
  +:+ quoted "invariants" +:+ ":[" +:+ quoted "state consistent" +:+ "],"
  +:+ quoted "edgeCases" +:+ ":[" +:+ quoted "x = 0" +:+ "],"
  +:+ quoted "confidence" +:+ ":0}".

Definition zeroFields : list (string * json) :=
  [("preconditions", JArr [JStr "x > 0"]);
   ("postconditions", JArr [JStr "result > 0"]);
   ("invariants", JArr [JStr "state consistent"]);
   ("edgeCases", JArr [JStr "x = 0"]);
   ("confidence", JNum 0)].

(** A completion whose preconditions are one string instead of a list. *)
Definition proseText : string :=
  "{" +:+ quoted "preconditions" +:+ ":" +:+ quoted "x > 0" +:+ ","
  +:+ quoted "postconditions" +:+ ":[" +:+ quoted "result > 0" +:+ "],"
  +:+ quoted "invariants" +:+ ":[],"
  +:+ quoted "edgeCases" +:+ ":[" +:+ quoted "x = 0" +:+ "],"
  +:+ quoted "confidence" +:+ ":90}".

Definition proseFields : list (string * json) :=
  [("preconditions", JStr "x > 0");
   ("postconditions", JArr [JStr "result > 0"]);
   ("invariants", JArr []);
   ("edgeCases", JArr [JStr "x = 0"]);
   ("confidence", JNum 90)].

(** [JSON.parse] on the two completions above. *)
Definition parseMore (text : string) : Try json :=
  if String.eqb text zeroText then Return (JObj zeroFields)
  else if String.eqb text proseText then Return (JObj proseFields)
  else Throw "SyntaxError".

(** An analysis with degraded facts for a function of a file. *)
Definition analysisAt (filePath functionName : string) : ASTExtractor.Analysis :=
  ASTExtractor.createBasicAnalysis
    {| DiffParser.filePath := filePath;
       DiffParser.functionName := functionName;
       DiffParser.functionBody := "";
       DiffParser.fcLineNumber := 1;
       DiffParser.fcChangeType := "modified";
       DiffParser.comments := [] |}.

(** The function name and the file path of an analysis. *)
Definition nameOf (a : ASTExtractor.Analysis) : string :=
  DiffParser.functionName (ASTExtractor.change a).

Definition pathOf (a : ASTExtractor.Analysis) : string :=
  DiffParser.filePath (ASTExtractor.change a).

(** An analyzer whose cache holds one suggestion for [add] of [src/add.js]. *)
Definition cachedState : SpecAnalyzer.State :=
  {| SpecAnalyzer.specCache :=
       <[SpecAnalyzer.cacheKey (analysisOf hunkB) :=
           SpecAnalyzer.suggestionOf (analysisOf hunkB)
             (LLMClient.generateMockSpec LLMClient.emptyContext)]> ∅;
     SpecAnalyzer.calls := [] |}.

(** A specification file stored for the function [address]. *)
Definition storedAddress : string :=
  "-- SpecSync Generated Lean4 Specification" +:+ Js.nl +:+
  "-- Function: address" +:+ Js.nl +:+
  "-- Confidence: 85%" +:+ Js.nl +:+ Js.nl +:+
  "theorem address_spec :" +:+ Js.nl +:+
  "  ∀ (h_pre : a ≠ none ∧ sorry ∧  b > 0 → result) := by" +:+ Js.nl +:+
  "  sorry".

(** A specification directory with a file that cannot be read, the file of
    [address] and a file that is no Lean file. *)
Definition storedDir (dir : string) : Try (list string) :=
  if String.eqb dir "specs"
  then Return ["broken_spec.lean"; "address_spec.lean"; "notes.txt"]
  else Throw "ENOENT".

Definition storedFile (file : string) : Try string :=
  if String.eqb file "specs/address_spec.lean" then Return storedAddress
  else Throw "EACCES".

Definition slashJoin (dir file : string) : string := dir +:+ "/" +:+ file.

(** A change of the function [add], which has no specification file. *)
Definition changeAdd : DiffParser.FunctionChange :=
  {| DiffParser.filePath := "src/add.js";
     DiffParser.functionName := "add";
     DiffParser.functionBody := "function add(a, b) { return a + b; }";
     DiffParser.fcLineNumber := 1;
     DiffParser.fcChangeType := "modified";
     DiffParser.comments := [] |}.

(** A function has a stored specification. *)
Definition stored (find : string -> option SpecCoverage.ExistingSpec)
           (functionData : DiffParser.FunctionChange) : bool :=
  match find (DiffParser.functionName functionData) with
  | Some _ => true
  | None => false
  end.

(** The result that [analyzeFunctionDrift] gives for every function with a
    specification read from a file. *)
Definition validationDrift (functionData : DiffParser.FunctionChange)
           (spec : SpecCoverage.ExistingSpec) : SpecCoverage.DriftResult :=
  {| SpecCoverage.functionName := DiffParser.functionName functionData;
     SpecCoverage.filePath := DiffParser.filePath functionData;
     SpecCoverage.resultHasDrift := true;
     SpecCoverage.reason := None;
     SpecCoverage.previousSpec := Some spec;
     SpecCoverage.currentImplementation :=
       Some (SpecCoverage.analyzeCurrentImplementation (DiffParser.functionBody functionData));
     SpecCoverage.driftDetails := Some ["Input validation patterns changed"];
     SpecCoverage.resultConfidence := Some 25%Z |}.

(** A string made of characters that satisfy [p] only. *)
Fixpoint drawn (p : ascii -> bool) (s : string) : Prop :=
  match s with
  | EmptyString => True
  | String a s' => p a = true /\ drawn p s'
  end.

(** A lower-case letter, a digit or an underscore. *)
Definition identifierChar (a : ascii) : bool :=
  let n := nat_of_ascii a in
  ((48 <=? n)%nat && (n <=? 57)%nat)
  || ((97 <=? n)%nat && (n <=? 122)%nat)
  || (n =? 95)%nat.

(** The name under which the analyzer knows the language of a grammar. *)
Definition languageName (language : ASTExtractor.Language) : string :=
  match language with
  | ASTExtractor.JavaScript => "JavaScript"
  | ASTExtractor.TypeScript => "TypeScript"
  | ASTExtractor.Python => "Python"
  | ASTExtractor.Java => "Java"
  | ASTExtractor.Rust => "Rust"
  end.

(** A call that ends in an exception. *)
Definition throws {A : Type} (m : Try A) : Prop := exists e, m = Throw e.

(** A binding whose nodes have no [childForFieldName]: every call of it
    throws. *)
Definition fieldless
           (childForFieldName : string -> ASTExtractor.NodeRef
                                -> Try (option ASTExtractor.NodeRef)) : Prop :=
  forall field node, throws (childForFieldName field node).

(** The binding that [package.json] asks for, [tree-sitter ^0.20.6]: its
    nodes have no [childForFieldName], and [setLanguage] takes the grammar
    objects but not the object of [tree-sitter-typescript], which holds the
    two grammars [typescript] and [tsx] and is none itself. *)
Definition noSuchMethod (field : string) (node : ASTExtractor.NodeRef)
  : Try (option ASTExtractor.NodeRef) :=
  Throw "TypeError: node.childForFieldName is not a function".

Definition grammarsOnly (language : ASTExtractor.Language) : Try unit :=
  match language with
  | ASTExtractor.TypeScript => Throw "TypeError: Invalid language object"
  | _ => Return tt
  end.

(** The file of the change has no grammar, or [setLanguage] takes it. *)
Definition accepted (setLanguage : ASTExtractor.Language -> Try unit)
           (change : DiffParser.FunctionChange) : bool :=
  match ASTExtractor.getLanguageFromPath (DiffParser.filePath change) with
  | None => true
  | Some language =>
      match setLanguage language with
      | Return _ => true
      | Throw _ => false
      end
  end.

(** The node types that [findFunctionNode] looks for. *)
Definition functionTypes : list string :=
  ["function_declaration"; "method_definition"; "arrow_function";
   "function_expression"; "function_definition"].

(** The node types that [extractLoops] looks for. *)
Definition loopTypes : list string :=
  ["for_statement"; "while_statement"; "do_statement"; "for_in_statement"].

(** A change of the function [add] in a file with the given path. *)
Definition changeIn (filePath : string) : DiffParser.FunctionChange :=
  {| DiffParser.filePath := filePath;
     DiffParser.functionName := "add";
     DiffParser.functionBody := "+function add(a, b) { return a + b; }";
     DiffParser.fcLineNumber := 1;
     DiffParser.fcChangeType := "added";
     DiffParser.comments := [] |}.

(** The tree of [function add(a, b) { return a + b; }]. *)
Definition addTree : ASTExtractor.SyntaxNode :=
  ASTExtractor.Node "program" "function add(a, b) { return a + b; }" 0
    [ (None,
       ASTExtractor.Node "function_declaration" "function add(a, b) { return a + b; }" 0
         [ (None, ASTExtractor.Node "function" "function" 0 []);
           (Some "name", ASTExtractor.Node "identifier" "add" 0 []);
           (Some "parameters", ASTExtractor.Node "formal_parameters" "(a, b)" 0 []);
           (Some "body",
            ASTExtractor.Node "statement_block" "{ return a + b; }" 0
              [ (None, ASTExtractor.Node "{" "{" 0 []);
                (None, ASTExtractor.Node "return_statement" "return a + b;" 0 []);
                (None, ASTExtractor.Node "}" "}" 0 []) ]) ]) ].

(** A value of a JSON array that is a text. *)
Definition isText (v : json) : bool :=
  match v with
  | JStr _ => true
  | _ => false
  end.

(** The object of a response whose only invariant is the number 42. *)
Definition numberFields : list (string * json) :=
  [ ("preconditions", JArr [JStr "amount > 0"]);
    ("postconditions", JArr [JStr "balance >= 0"]);
    ("invariants", JArr [JNum 42]);
    ("edgeCases", JArr [JStr "Handle boundary conditions"]);
    ("confidence", JNum 80) ].

(** The field of a record that holds the list of the given name. *)
Definition listField (field : string) (spec : Spec) : list json :=
  if String.eqb field "preconditions" then preconditions spec
  else if String.eqb field "postconditions" then postconditions spec
  else if String.eqb field "invariants" then invariants spec
  else if String.eqb field "edgeCases" then edgeCases spec
  else [].

End Scenarios.

(** * Properties *)

(** ** The embedding on the tests of the repository *)

Section RepositoryTests.
Import DiffParser.

(** diff-parser.test.js, "should extract JavaScript function declarations". *)
Example test_extract_function_declaration :
  map (fun f => (name f, changeType f))
    (extractFunctions
       (Js.join Js.nl
          [ "";
            "diff --git a/src/app.js b/src/app.js";
            "index 1234567..abcdefg 100644";
            "--- a/src/app.js";
            "+++ b/src/app.js";
            "@@ -10,6 +10,10 @@";
            "+function calculateInterest(principal, rate, time) {";
            "+  if (principal <= 0 || rate < 0 || time <= 0) {";
            "+    throw new Error('Invalid parameters');";
            "+  }";
            "+  return principal * rate * time;";
            "+}";
            "       " ]))
  = [("calculateInterest", "+")].
Proof. vm_compute. reflexivity. Qed.

(** "should extract arrow functions". *)
Example test_extract_arrow_function :
  map name
    (extractFunctions
       (Js.join Js.nl
          [ "";
            "diff --git a/src/app.js b/src/app.js";
            "index 1234567..abcdefg 100644";
            "--- a/src/app.js";
            "+++ b/src/app.js";
            "@@ -5,6 +5,8 @@";
            "+const multiply = (a, b) => {";
            "+  return a * b;";
            "+};";
            "       " ]))
  = ["multiply"].
Proof. vm_compute. reflexivity. Qed.

(** "should extract Python function definitions", the message of the error in
    single quotes: the first function is [calculate_area]; the line that
    raises the error matches a function pattern too. *)
Example test_extract_python_function :
  map name
    (extractFunctions
       (Js.join Js.nl
          [ "";
            "diff --git a/src/app.py b/src/app.py";
            "index 1234567..abcdefg 100644";
            "--- a/src/app.py";
            "+++ b/src/app.py";
            "@@ -3,6 +3,10 @@";
            "+def calculate_area(radius):";
            "+    if radius <= 0:";
            "+        raise ValueError('Radius must be positive')";
            "+    return 3.14159 * radius * radius";
            "       " ]))
  = ["calculate_area"; "ValueError"].
Proof. vm_compute. reflexivity. Qed.

(** "should extract comments near functions". *)
Example test_extract_comments :
  map text
    (extractComments
       (Js.join Js.nl
          [ "";
            "+// Calculate simple interest";
            "+function calculateInterest(principal, rate, time) {";
            "+  // Validate inputs";
            "+  if (principal <= 0 || rate < 0 || time <= 0) {";
            "+    throw new Error('Invalid parameters');";
            "+  }";
            "+  return principal * rate * time;";
            "+}";
            "       " ]) 2)
  = ["// Calculate simple interest"; "// Validate inputs"].
Proof. vm_compute. reflexivity. Qed.

(** The tests of [isCodeFile]. *)
Example test_is_code_file :
  map isCodeFile
    [ "src/app.js"; "src/app.ts"; "src/app.py";
      "src/app.test.js"; "src/app.spec.js"; "test/app.js";
      "README.md"; "package.json"; "src/app.css" ]
  = [ true; true; true; false; false; false; false; false; false ].
Proof. vm_compute. reflexivity. Qed.

(** "should identify added functions", "... removed ...", "... modified ...". *)
Example test_determine_change_type :
  map (fun b => determineChangeType
                  {| name := ""; body := Js.join Js.nl b; lineNumber := 0; changeType := "" |})
    [ ["+function newFunction() {"; "+  return true;"; "+}"];
      ["-function oldFunction() {"; "-  return false;"; "-}"];
      [" function modifiedFunction() {"; "-  return false;"; "+  return true;"; " }"] ]
  = ["added"; "removed"; "modified"].
Proof. vm_compute. reflexivity. Qed.

(** The tests of [getCommentType]. *)
Example test_comment_type :
  map getCommentType
    [ "// TODO: implement this"; "// FIXME: fix this bug";
      "/** @param {number} x */"; "// @return {boolean}";
      "// @spec pre: x > 0"; "// @pre x > 0";
      "// This is a general comment" ]
  = [ "todo"; "todo"; "documentation"; "documentation";
      "specification"; "specification"; "general" ].
Proof. vm_compute. reflexivity. Qed.

(** llm-integration test, "should generate specifications with mock LLM":
    three required parameters of type number, three guards, complexity 3. *)
Example test_mock_generation :
  let spec :=
    LLMClient.generateMockSpec
      {| LLMClient.functionName := "calculateInterest";
         LLMClient.language := "JavaScript";
         LLMClient.functionBody := "";
         LLMClient.inputTypes :=
           Some [ LLMClient.mkInput "principal" (Some "number") (Some true);
                  LLMClient.mkInput "rate" (Some "number") (Some true);
                  LLMClient.mkInput "time" (Some "number") (Some true) ];
         LLMClient.outputType := "number";
         LLMClient.conditionalGuards :=
           Some [ LLMClient.mkGuard "principal <= 0";
                  LLMClient.mkGuard "rate < 0";
                  LLMClient.mkGuard "time <= 0" ];
         LLMClient.loops := [];
         LLMClient.branching := [];
         LLMClient.earlyReturns := Some [];
         LLMClient.controlFlow := None;
         LLMClient.complexity := Some 3%Z;
         LLMClient.comments := "Calculate simple interest" |} in
  (length (LLMClient.preconditions spec), length (LLMClient.postconditions spec),
   length (LLMClient.invariants spec), length (LLMClient.edgeCases spec),
   LLMClient.confidence spec)
  = (6%nat, 1%nat, 1%nat, 5%nat, 85%Z).
Proof. vm_compute. reflexivity. Qed.

(** [path.extname] on the paths of the Node.js documentation and some
    corner cases. *)
Example test_extname :
  map Js.extname
    [ "index.html"; "index.coffee.md"; "index."; "index"; ".index"; ".index.md";
      "src/app.js"; "a.b/c"; ".."; "lib/"; "lib.d/x.ts/" ]
  = [ ".html"; ".md"; "."; ""; ""; ".md"; ".js"; ""; ""; ""; ".ts" ].
Proof. vm_compute. reflexivity. Qed.
End RepositoryTests.

(** ** Texts *)

Section Texts.

Lemma append_cons (x : ascii) (a b : string) : String x a +:+ b = String x (a +:+ b).
Proof. reflexivity. Qed.

Lemma append_empty_l (a : string) : "" +:+ a = a.
Proof. reflexivity. Qed.

Lemma append_assoc (a b c : string) : (a +:+ b) +:+ c = a +:+ (b +:+ c).
Proof.
  induction a as [|x a IH]; [reflexivity|]. rewrite !append_cons. f_equal. exact IH.
Qed.

Lemma append_empty_r (a : string) : a +:+ "" = a.
Proof.
  induction a as [|x a IH]; [reflexivity|]. rewrite append_cons. f_equal. exact IH.
Qed.
End Texts.

(** ** The theorem-skeleton emitter *)

Section HelperLemmas.
Import LLMClient Lean4Generator.

Lemma lemmasFrom_texts (prefix : string) (predicates : list string) :
  forall i,
  exists lemmas,
    lemmasFrom prefix i (map JStr predicates) = Return lemmas
    /\ length lemmas = length predicates
    /\ forall k p,
        predicates !! k = Some p ->
        lemmas !! k = Some (lemmaFor prefix (i + k) p).
Proof.
  induction predicates as [|q qs IH]; intros i.
  - exists []. split; [reflexivity|]. split; [reflexivity|]. intros k p Hk. discriminate.
  - destruct (IH (S i)) as (lemmas & Hrest & Hlen & Hlookup).
    exists (lemmaFor prefix i q :: lemmas). cbn [map lemmasFrom lemmaOf bindTry].
    rewrite Hrest. split; [reflexivity|]. split; [cbn [length]; rewrite Hlen; reflexivity|].
    intros [|k] p Hk; simpl in Hk |- *.
    + injection Hk as ->. rewrite Nat.add_0_r. reflexivity.
    + rewrite (Hlookup k p Hk). do 2 f_equal. lia.
Qed.

(** A loop returns exactly when all its entries are texts, with one lemma
    for every entry. *)
Lemma lemmasFrom_outcome (prefix : string) (entries : list json) :
  forall i,
    match lemmasFrom prefix i entries with
    | Return lemmas => forallb isText entries = true /\ length lemmas = length entries
    | Throw _ => forallb isText entries = false
    end.
Proof.
  induction entries as [|entry rest IH]; intros i; [split; reflexivity|].
  cbn [lemmasFrom forallb].
  destruct entry as [| | |predicate| |]; cbn [lemmaOf bindTry isText andb]; try reflexivity.
  specialize (IH (S i)). destruct (lemmasFrom prefix (S i) rest) as [lemmas|e];
    cbn [bindTry]; [|exact IH].
  destruct IH as [Hall Hlen]. split; [exact Hall|]. cbn [length]. rewrite Hlen. reflexivity.
Qed.

(** C4, as stated: a record that [parseLLMResponse] accepts may hold an
    invariant that is no text; for the record with the single invariant 42
    and one edge case no two lemmas are emitted, the call throws. *)
Lemma generateHelperLemmas_count_counterexample :
  forallb (present numberFields) requiredFields = true
  /\ length (invariants (specOfFields numberFields)) = 1%nat
  /\ length (edgeCases (specOfFields numberFields)) = 1%nat
  /\ ~ exists lemmas,
        generateHelperLemmas (invariants (specOfFields numberFields))
          (edgeCases (specOfFields numberFields)) = Return lemmas
        /\ length lemmas = (1 + 1)%nat.
Proof.
  split; [reflexivity|]. split; [reflexivity|]. split; [reflexivity|].
  intros (lemmas & Hreturn & _). discriminate Hreturn.
Qed.

(** C4, amended. For a record whose N invariants and M edge cases are
    texts [generateHelperLemmas] emits exactly N + M helper lemmas, five for
    two invariants and three edge cases: the lemma of the k-th invariant,
    [lemma invariant_k_name : predicate := sorry] with the sanitized name
    and the converted predicate, stands at place k, and the lemma of the
    k-th edge case, [lemma edge_case_k_name : predicate := sorry], at place
    N + k; each is left unproved.  The call returns exactly when all entries
    are texts, and throws otherwise. *)
Theorem generateHelperLemmas_count :
  (forall invariants edgeCases : list string,
      exists lemmas,
        generateHelperLemmas (map JStr invariants) (map JStr edgeCases) = Return lemmas
        /\ length lemmas = (length invariants + length edgeCases)%nat
        /\ (forall k p,
               invariants !! k = Some p ->
               lemmas !! k
               = Some ("lemma invariant_" +:+ Js.ofNat (k + 1) +:+ "_" +:+ sanitizeName p
                       +:+ " : " +:+ first (convertToLeanPredicates [p]) +:+ " := sorry"))
        /\ (forall k p,
               edgeCases !! k = Some p ->
               lemmas !! (length invariants + k)%nat
               = Some ("lemma edge_case_" +:+ Js.ofNat (k + 1) +:+ "_" +:+ sanitizeName p
                       +:+ " : " +:+ first (convertToLeanPredicates [p]) +:+ " := sorry")))
  /\ (forall i1 i2 e1 e2 e3 : string,
        exists lemmas,
          generateHelperLemmas [JStr i1; JStr i2] [JStr e1; JStr e2; JStr e3]
          = Return lemmas
          /\ length lemmas = 5%nat)
  /\ (forall invariants edgeCases : list json,
        match generateHelperLemmas invariants edgeCases with
        | Return lemmas =>
            forallb isText (invariants ++ edgeCases) = true
            /\ length lemmas = (length invariants + length edgeCases)%nat
        | Throw _ => forallb isText (invariants ++ edgeCases) = false
        end).
Proof.
  assert (Htexts : forall invariants edgeCases : list string,
             exists lemmas,
               generateHelperLemmas (map JStr invariants) (map JStr edgeCases)
               = Return lemmas
               /\ length lemmas = (length invariants + length edgeCases)%nat
               /\ (forall k p,
                      invariants !! k = Some p ->
                      lemmas !! k = Some (lemmaFor "invariant_" k p))
               /\ (forall k p,
                      edgeCases !! k = Some p ->
                      lemmas !! (length invariants + k)%nat
                      = Some (lemmaFor "edge_case_" k p))).
  { intros invariants edgeCases. unfold generateHelperLemmas.
    destruct (lemmasFrom_texts "invariant_" invariants 0) as (l1 & -> & Hlen1 & Hk1).
    destruct (lemmasFrom_texts "edge_case_" edgeCases 0) as (l2 & -> & Hlen2 & Hk2).
    exists (l1 ++ l2). cbn [bindTry]. split; [reflexivity|].
    split; [rewrite length_app, Hlen1, Hlen2; reflexivity|]. split.
    - intros k p Hk. rewrite lookup_app_l by (rewrite Hlen1; exact (lookup_lt_Some _ _ _ Hk)).
      exact (Hk1 k p Hk).
    - intros k p Hk. rewrite <- Hlen1, lookup_app_r by lia.
      replace (length l1 + k - length l1)%nat with k by lia. exact (Hk2 k p Hk). }
  split; [|split].
  - intros invariants edgeCases.
    destruct (Htexts invariants edgeCases) as (lemmas & Hreturn & Hlen & Hk1 & Hk2).
    exists lemmas. split; [exact Hreturn|]. split; [exact Hlen|].
    split; intros k p Hk; [rewrite (Hk1 k p Hk)|rewrite (Hk2 k p Hk)];
      unfold lemmaFor; rewrite !append_assoc; reflexivity.
  - intros i1 i2 e1 e2 e3.
    destruct (Htexts [i1; i2] [e1; e2; e3]) as (lemmas & Hreturn & Hlen & _).
    exists lemmas. split; [exact Hreturn|exact Hlen].
  - intros invariants edgeCases. unfold generateHelperLemmas.
    pose proof (lemmasFrom_outcome "invariant_" invariants 0) as H1.
    pose proof (lemmasFrom_outcome "edge_case_" edgeCases 0) as H2.
    rewrite forallb_app.
    destruct (lemmasFrom "invariant_" 0 invariants) as [l1|e1]; cbn [bindTry];
      [|rewrite H1; reflexivity].
    destruct H1 as [Hall1 Hlen1]. rewrite Hall1.
    destruct (lemmasFrom "edge_case_" 0 edgeCases) as [l2|e2]; cbn [bindTry];
      [|exact H2].
    destruct H2 as [Hall2 Hlen2]. split; [exact Hall2|].
    rewrite length_app, Hlen1, Hlen2. reflexivity.
Qed.

Example generateHelperLemmas_scenario_D :
  generateHelperLemmas
    (map JStr ["balance >= 0"; "owner is not null/undefined"])
    (map JStr ["Handle empty/null input values"; "Handle boundary conditions";
               "Handle case where isActive(account) is false"])
  = Return
      ["lemma invariant_1_balance_0 : balance ≥ 0 := sorry";
       "lemma invariant_2_owner_is_not_null_undefined : owner ≠ none := sorry";
       "lemma edge_case_1_handle_empty_null_input_values : Handle empty/null input values := sorry";
       "lemma edge_case_2_handle_boundary_conditions : Handle boundary conditions := sorry";
       "lemma edge_case_3_handle_case_where_isactive_account_is_false : Handle case where isActive account) = false := sorry"].
Proof. vm_compute. reflexivity. Qed.
End HelperLemmas.

(** ** The deterministic fallback *)

Section Fallback.
Import LLMClient.

Lemma orPlaceholder_length (xs : list string) (placeholder : string) :
  (1 <= length (orPlaceholder xs placeholder))%nat.
Proof.
  unfold orPlaceholder. destruct xs as [|x xs]; simpl; lia.
Qed.

Lemma orPlaceholder_nil (placeholder : string) :
  orPlaceholder [] placeholder = [placeholder].
Proof. reflexivity. Qed.

Lemma strings_length (xs : list string) : length (strings xs) = length xs.
Proof. unfold strings. apply length_map. Qed.

Lemma strings_orPlaceholder_nonempty (xs : list string) (placeholder : string) :
  strings (orPlaceholder xs placeholder) <> [].
Proof.
  intros H. apply (f_equal (@length json)) in H.
  rewrite strings_length in H.
  pose proof (orPlaceholder_length xs placeholder). simpl in H. lia.
Qed.

(** C10. Every record of the fallback has its four lists non-empty: a
    derived list that is empty is replaced by its fixed placeholder of one
    entry, as all four are for the empty context. *)
Theorem generateMockSpec_lists_nonempty :
  (forall context : Context,
      preconditions (generateMockSpec context) <> []
      /\ postconditions (generateMockSpec context) <> []
      /\ invariants (generateMockSpec context) <> []
      /\ edgeCases (generateMockSpec context) <> [])
  /\ (forall placeholder, orPlaceholder [] placeholder = [placeholder])
  /\ preconditions (generateMockSpec emptyContext)
     = [JStr "No specific preconditions identified"]
  /\ postconditions (generateMockSpec emptyContext) = [JStr "Function completes execution"]
  /\ invariants (generateMockSpec emptyContext) = [JStr "No specific invariants identified"]
  /\ edgeCases (generateMockSpec emptyContext) = [JStr "Consider null/undefined inputs"].
Proof.
  split; [|split; [|repeat split]].
  - intros context. unfold generateMockSpec. simpl.
    repeat split; apply strings_orPlaceholder_nonempty.
  - intros placeholder. reflexivity.
Qed.



Example generateMockSpec_scenarioA :
  preconditions (generateMockSpec scenarioA)
  = strings [ "principal is of type number"; "principal is not null/undefined";
              "rate is of type number"; "rate is not null/undefined";
              "time is of type number"; "time is not null/undefined" ].
Proof. reflexivity. Qed.



End Fallback.

(** ** The confidence of a record *)

Section Confidence.
Import LLMClient.

Lemma generateMockSpec_confidence (context : Context) :
  confidence (generateMockSpec context)
  = Z.min 85 (100 - orDefault (complexity context) 1%Z * 5).
Proof. reflexivity. Qed.

Lemma generateMockSpec_confidence_upper (context : Context) :
  (confidence (generateMockSpec context) <= 85)%Z.
Proof. rewrite generateMockSpec_confidence. lia. Qed.

Example generateMockSpec_confidence_deep :
  confidence (generateMockSpec deepContext) = (-5)%Z.
Proof. reflexivity. Qed.

Lemma none_missing {A} (p : A -> bool) (xs : list A) :
  length (List.filter (fun x => negb (p x)) xs) = 0%nat -> forallb p xs = true.
Proof.
  induction xs as [|x xs IH]; simpl; [reflexivity|].
  destruct (p x); simpl; [exact IH|discriminate].
Qed.

(** A response is decoded only when it is an object with the five required
    fields; the record is then built from its fields. *)
Lemma decode_returns
      (JSON_parse : string -> Try json) (response : string) (spec : Spec) :
  decode JSON_parse response = Return spec ->
  exists text fields,
    jsonMatch response = Some text
    /\ JSON_parse text = Return (JObj fields)
    /\ forallb (present fields) requiredFields = true
    /\ spec = specOfFields fields.
Proof.
  unfold decode. destruct (jsonMatch response) as [text|] eqn:Hmatch; [|discriminate].
  destruct (JSON_parse text) as [parsed|e] eqn:Hparse; cbn [bindTry]; [|discriminate].
  destruct parsed as [| | | | |fields]; try discriminate.
  destruct (length _ =? 0)%nat eqn:Hmissing; [|discriminate].
  intros [= <-]. exists text, fields.
  split; [reflexivity|]. split; [exact Hparse|]. split; [|reflexivity].
  apply none_missing, Nat.eqb_eq, Hmissing.
Qed.

Lemma specOfFields_confidence (fields : list (string * json)) :
  confidence (specOfFields fields)
  = match lookup "confidence" fields with
    | Some (JNum z) => z
    | _ => 50%Z
    end.
Proof. reflexivity. Qed.

(** The record of a synthesis is the fallback for the context, the fallback
    for the empty context, or the record of a complete response. *)
Lemma generateSpec_record
      (JSON_parse : string -> Try json)
      (complete : Backend -> Context -> Calls -> Try string)
      (clients : Clients) (context : Context) (calls : Calls) :
  exists spec,
    fst (generateSpec JSON_parse complete clients context calls) = Return spec
    /\ (spec = generateMockSpec context
        \/ spec = generateMockSpec emptyContext
        \/ exists fields,
            forallb (present fields) requiredFields = true /\ spec = specOfFields fields).
Proof.
  assert (Hwith : forall backend,
             exists spec,
               fst (catch (generateWith JSON_parse complete backend context)
                      (fun _ => ret (generateMockSpec context)) calls) = Return spec
               /\ (spec = generateMockSpec context
                   \/ spec = generateMockSpec emptyContext
                   \/ exists fields,
                       forallb (present fields) requiredFields = true
                       /\ spec = specOfFields fields)).
  { intros backend. unfold catch, generateWith, bind, liftTry, ret.
    destruct (complete backend context calls) as [content|e]; simpl.
    - unfold parseLLMResponse, tryCatch.
      destruct (decode JSON_parse content) as [spec|e] eqn:Hdecode; simpl.
      + exists spec. split; [reflexivity|]. right. right.
        destruct (decode_returns _ _ _ Hdecode) as (text & fields & _ & _ & Hall & ->).
        exists fields. split; [exact Hall|reflexivity].
      + eexists. split; [reflexivity|]. right. left. reflexivity.
    - eexists. split; [reflexivity|]. left. reflexivity. }
  unfold generateSpec, generateWithOpenAI, generateWithAnthropic.
  destruct (openai clients); [apply Hwith|].
  destruct (anthropic clients); [apply Hwith|].
  eexists. split; [reflexivity|]. left. reflexivity.
Qed.

(** C2, as stated: a complete response that announces a confidence of 150
    gives a record with confidence 150, outside of the interval. *)
Lemma confidence_in_range_counterexample :
  exists spec,
    fst (generateSpec parseKnown (fun _ _ _ => Return overconfidentText)
           bothClients scenarioA []) = Return spec
    /\ ~ (0 <= confidence spec <= 100)%Z.
Proof.
  eexists. split; [vm_compute; reflexivity|]. simpl. lia.
Qed.

(** C2, amended. The fallback gives a confidence between 0 and 85 for a
    complexity of at most 20.  The record of a synthesis is the fallback of
    the context when no client exists or the request throws, the fallback of
    the empty context, with confidence 85, when the response is rejected,
    and otherwise the record of the response of the selected backend: the
    object that [JSON.parse] makes of the text between the braces of the
    completion, whose confidence is the number of that object as it is (50
    when the value is not a number), so that it lies between 0 and 100
    exactly when the number of the response does. *)
Theorem confidence_of_record
        (JSON_parse : string -> Try json)
        (complete : Backend -> Context -> Calls -> Try string)
        (clients : Clients) (context : Context) (calls : Calls) :
  ((orDefault (complexity context) 1 <= 20)%Z ->
   (0 <= confidence (generateMockSpec context) <= 85)%Z)
  /\ confidence (generateMockSpec emptyContext) = 85%Z
  /\ exists spec,
      fst (generateSpec JSON_parse complete clients context calls) = Return spec
      /\ match firstConfigured clients with
         | None => spec = generateMockSpec context
         | Some backend =>
             match complete backend context calls with
             | Throw _ => spec = generateMockSpec context
             | Return content =>
                 match decode JSON_parse content with
                 | Throw _ => spec = generateMockSpec emptyContext
                 | Return _ =>
                     exists text fields,
                       jsonMatch content = Some text
                       /\ JSON_parse text = Return (JObj fields)
                       /\ forallb (present fields) requiredFields = true
                       /\ spec = specOfFields fields
                       /\ match lookup "confidence" fields with
                          | Some (JNum z) =>
                              confidence spec = z
                              /\ ((0 <= confidence spec <= 100)%Z <-> (0 <= z <= 100)%Z)
                          | _ => confidence spec = 50%Z
                          end
                 end
             end
         end.
Proof.
  split; [|split; [reflexivity|]].
  - intros Hc. rewrite generateMockSpec_confidence. lia.
  - assert (Hwith : forall backend,
               exists spec,
                 fst (catch (generateWith JSON_parse complete backend context)
                        (fun _ => ret (generateMockSpec context)) calls) = Return spec
                 /\ match complete backend context calls with
                    | Throw _ => spec = generateMockSpec context
                    | Return content =>
                        match decode JSON_parse content with
                        | Throw _ => spec = generateMockSpec emptyContext
                        | Return _ =>
                            exists text fields,
                              jsonMatch content = Some text
                              /\ JSON_parse text = Return (JObj fields)
                              /\ forallb (present fields) requiredFields = true
                              /\ spec = specOfFields fields
                              /\ match lookup "confidence" fields with
                                 | Some (JNum z) =>
                                     confidence spec = z
                                     /\ ((0 <= confidence spec <= 100)%Z
                                         <-> (0 <= z <= 100)%Z)
                                 | _ => confidence spec = 50%Z
                                 end
                        end
                    end).
    { intros backend. unfold catch, generateWith, bind, liftTry, ret.
      destruct (complete backend context calls) as [content|e]; cbn [fst];
        [|eexists; split; reflexivity].
      unfold parseLLMResponse, tryCatch.
      destruct (decode JSON_parse content) as [spec|e] eqn:Hdecode; cbn [fst];
        [|eexists; split; reflexivity].
      exists spec. split; [reflexivity|].
      destruct (decode_returns _ _ _ Hdecode) as (text & fields & Hm & Hp & Hall & ->).
      exists text, fields. split; [exact Hm|]. split; [exact Hp|]. split; [exact Hall|].
      split; [reflexivity|]. rewrite specOfFields_confidence.
      destruct (lookup "confidence" fields) as [[| |z| | |]|]; try reflexivity.
      split; [reflexivity|tauto]. }
    unfold generateSpec, generateWithOpenAI, generateWithAnthropic, firstConfigured.
    destruct (openai clients); [apply Hwith|].
    destruct (anthropic clients); [apply Hwith|].
    eexists. split; reflexivity.
Qed.

Lemma confidence_of_record_witness :
  (orDefault (complexity scenarioA) 1 <= 20)%Z
  /\ (0 <= confidence (generateMockSpec scenarioA) <= 85)%Z.
Proof.
  assert (Hc : (orDefault (complexity scenarioA) 1 <= 20)%Z) by (simpl; lia).
  split; [exact Hc|].
  exact (proj1 (confidence_of_record parseKnown servicesE bothClients scenarioA []) Hc).
Defined.
End Confidence.

(** ** The choice of the backend *)

Section Backends.
Import LLMClient.

Lemma decode_missing_confidence
      (JSON_parse : string -> Try json) (content text : string)
      (fields : list (string * json)) :
  jsonMatch content = Some text ->
  JSON_parse text = Return (JObj fields) ->
  present fields "confidence" = false ->
  exists e, decode JSON_parse content = Throw e.
Proof.
  intros Hm Hp Hc. unfold decode. rewrite Hm, Hp. simpl bindTry.
  cbn [requiredFields List.filter]. rewrite Hc.
  destruct (present fields "preconditions"), (present fields "postconditions"),
    (present fields "invariants"), (present fields "edgeCases");
    simpl; eexists; reflexivity.
Qed.

Lemma generateWith_run
      (JSON_parse : string -> Try json) (complete : Backend -> Context -> Calls -> Try string)
      (backend : Backend) (context : Context) (calls : Calls) :
  generateWith JSON_parse complete backend context calls
  = (match complete backend context calls with
     | Return content => parseLLMResponse JSON_parse content
     | Throw e => Throw e
     end, calls ++ [(backend, context)]).
Proof.
  unfold generateWith, bind, liftTry.
  destruct (complete backend context calls); reflexivity.
Qed.

Lemma parseLLMResponse_returns (JSON_parse : string -> Try json) (response : string) :
  exists spec, parseLLMResponse JSON_parse response = Return spec.
Proof.
  unfold parseLLMResponse, tryCatch.
  destruct (decode JSON_parse response); eexists; reflexivity.
Qed.

(** C3, as stated: with both clients present and the first call throwing,
    the second backend is not called. *)
Lemma generateSpec_next_backend_counterexample :
  ~ In Anthropic
      (map fst (snd (generateSpec parseKnown servicesE bothClients scenarioA []))).
Proof.
  vm_compute. intros [H|[]]. discriminate H.
Qed.

(** C3, amended. A synthesis sends one request at most, to the first
    backend whose client exists.  It always ends with a record: when the
    call throws, the fallback for the same context and no other backend is
    tried; when the response lacks the confidence, the fallback for the
    empty context; without a client, the fallback for the context. *)
Theorem generateSpec_single_backend
        (JSON_parse : string -> Try json)
        (complete : Backend -> Context -> Calls -> Try string)
        (clients : Clients) (context : Context) (calls : Calls) :
  let outcome := generateSpec JSON_parse complete clients context calls in
  snd outcome
  = calls ++ match firstConfigured clients with
             | Some backend => [(backend, context)]
             | None => []
             end
  /\ (exists spec, fst outcome = Return spec)
  /\ (forall backend e,
        firstConfigured clients = Some backend ->
        complete backend context calls = Throw e ->
        fst outcome = Return (generateMockSpec context))
  /\ (forall backend content text fields,
        firstConfigured clients = Some backend ->
        complete backend context calls = Return content ->
        jsonMatch content = Some text ->
        JSON_parse text = Return (JObj fields) ->
        present fields "confidence" = false ->
        fst outcome = Return (generateMockSpec emptyContext))
  /\ (firstConfigured clients = None ->
      fst outcome = Return (generateMockSpec context)).
Proof.
  assert (Hone : forall backend,
             firstConfigured clients = Some backend ->
             generateSpec JSON_parse complete clients context calls
             = (match complete backend context calls with
                | Return content => parseLLMResponse JSON_parse content
                | Throw _ => Return (generateMockSpec context)
                end, calls ++ [(backend, context)])).
  { intros backend Hb.
    unfold generateSpec, generateWithOpenAI, generateWithAnthropic, catch, firstConfigured in *.
    destruct (openai clients); [|destruct (anthropic clients); [|discriminate]];
      injection Hb as <-; rewrite generateWith_run;
      (destruct (complete _ context calls) as [content|e]; [|reflexivity]);
      destruct (parseLLMResponse_returns JSON_parse content) as [spec ->]; reflexivity. }
  assert (Hnone : firstConfigured clients = None ->
                  generateSpec JSON_parse complete clients context calls
                  = (Return (generateMockSpec context), calls)).
  { intros Hn. unfold generateSpec, catch, firstConfigured in *.
    destruct (openai clients); [discriminate|].
    destruct (anthropic clients); [discriminate|]. reflexivity. }
  cbv zeta. destruct (firstConfigured clients) as [backend|] eqn:Hfirst.
  - rewrite (Hone backend eq_refl). simpl fst. simpl snd.
    split; [reflexivity|]. split; [|split; [|split]].
    + destruct (complete backend context calls) as [content|e]; [|eexists; reflexivity].
      apply parseLLMResponse_returns.
    + intros b e Hb Hthrow. injection Hb as <-. rewrite Hthrow. reflexivity.
    + intros b content text fields Hb Hcontent Hm Hp Hc. injection Hb as <-.
      rewrite Hcontent. unfold parseLLMResponse.
      destruct (decode_missing_confidence JSON_parse content text fields Hm Hp Hc)
        as [e ->]. reflexivity.
    + discriminate.
  - rewrite (Hnone eq_refl). simpl fst. simpl snd.
    split; [by rewrite app_nil_r|]. split; [eexists; reflexivity|].
    split; [discriminate|]. split; [discriminate|]. reflexivity.
Qed.

Lemma generateSpec_single_backend_witness :
  (firstConfigured bothClients = Some OpenAI
   /\ servicesE OpenAI scenarioA [] = Throw "API Error"
   /\ fst (generateSpec parseKnown servicesE bothClients scenarioA [])
      = Return (generateMockSpec scenarioA)
   /\ snd (generateSpec parseKnown servicesE bothClients scenarioA [])
      = [(OpenAI, scenarioA)])
  /\ (firstConfigured onlyAnthropic = Some Anthropic
      /\ servicesE Anthropic scenarioA [] = Return unscoredText
      /\ jsonMatch unscoredText = Some unscoredText
      /\ parseKnown unscoredText = Return unscoredValue
      /\ present [("preconditions", JArr [JStr "x > 0"]);
                  ("postconditions", JArr [JStr "result > 0"]);
                  ("invariants", JArr [JStr "state consistent"]);
                  ("edgeCases", JArr [JStr "x = 0"])] "confidence" = false
      /\ fst (generateSpec parseKnown servicesE onlyAnthropic scenarioA [])
         = Return (generateMockSpec emptyContext))
  /\ (firstConfigured {| openai := false; anthropic := false |} = None
      /\ fst (generateSpec parseKnown servicesE {| openai := false; anthropic := false |}
                scenarioA [])
         = Return (generateMockSpec scenarioA)).
Proof.
  split; [|split].
  - pose proof (generateSpec_single_backend parseKnown servicesE bothClients scenarioA [])
      as (Hcalls & _ & Hthrow & _).
    split; [reflexivity|]. split; [reflexivity|]. split.
    + apply (Hthrow OpenAI "API Error"); reflexivity.
    + exact Hcalls.
  - pose proof (generateSpec_single_backend parseKnown servicesE onlyAnthropic scenarioA [])
      as (_ & _ & _ & Hmissing & _).
    split; [reflexivity|]. split; [reflexivity|].
    split; [vm_compute; reflexivity|]. split; [vm_compute; reflexivity|].
    split; [reflexivity|].
    apply (Hmissing Anthropic unscoredText unscoredText
             [("preconditions", JArr [JStr "x > 0"]);
              ("postconditions", JArr [JStr "result > 0"]);
              ("invariants", JArr [JStr "state consistent"]);
              ("edgeCases", JArr [JStr "x = 0"])]);
      try reflexivity; vm_compute; reflexivity.
  - pose proof (generateSpec_single_backend parseKnown servicesE
                  {| openai := false; anthropic := false |} scenarioA [])
      as (_ & _ & _ & _ & Hnone).
    split; [reflexivity|]. apply Hnone. reflexivity.
Defined.
End Backends.

(** ** The drift detector *)

Section Drift.
Import SpecCoverage.

Lemma compareWithSpec_details (current : Implementation) (spec : ExistingSpec) :
  details (compareWithSpec current spec)
  = (if complexityIncreased current spec
     then ["Function complexity increased significantly"] else [])
    ++ (if validationChanged current spec
        then ["Input validation patterns changed"] else []).
Proof.
  unfold compareWithSpec.
  destruct (complexityIncreased current spec), (validationChanged current spec); reflexivity.
Qed.

Lemma compareWithSpec_hasDrift (current : Implementation) (spec : ExistingSpec) :
  hasDrift (compareWithSpec current spec)
  = complexityIncreased current spec || validationChanged current spec.
Proof.
  unfold compareWithSpec.
  destruct (complexityIncreased current spec), (validationChanged current spec); reflexivity.
Qed.

Lemma compareWithSpec_triggered (current : Implementation) (spec : ExistingSpec) :
  length (details (compareWithSpec current spec)) = triggered current spec.
Proof.
  rewrite compareWithSpec_details. unfold triggered.
  destruct (complexityIncreased current spec), (validationChanged current spec); reflexivity.
Qed.

Lemma compareWithSpec_min (current : Implementation) (spec : ExistingSpec) :
  confidence (compareWithSpec current spec)
  = Z.min 100 (25 * Z.of_nat (length (details (compareWithSpec current spec)))).
Proof.
  unfold compareWithSpec.
  destruct (complexityIncreased current spec), (validationChanged current spec); reflexivity.
Qed.

(** C5. The confidence of a comparison is min(100, 25 x the number of
    triggered reasons), also in the result of [analyzeFunctionDrift]; a
    current complexity of 4 against a recorded complexity of 2 triggers the
    complexity reason and sets [hasDrift], and with the validation
    unchanged it is the only reason and the confidence is 25. *)
Theorem compareWithSpec_confidence
        (findExistingSpec : string -> option ExistingSpec)
        (functionData : DiffParser.FunctionChange)
        (current : Implementation) (spec : ExistingSpec) :
  length (details (compareWithSpec current spec)) = triggered current spec
  /\ confidence (compareWithSpec current spec)
     = Z.min 100 (25 * Z.of_nat (triggered current spec))
  /\ match driftDetails (analyzeFunctionDrift findExistingSpec functionData),
           resultConfidence (analyzeFunctionDrift findExistingSpec functionData) with
     | Some reasons, Some c => c = Z.min 100 (25 * Z.of_nat (length reasons))
     | None, None => findExistingSpec (DiffParser.functionName functionData) = None
     | _, _ => False
     end
  /\ (complexity current = 4%Z ->
      specComplexity spec = Some 2%Z ->
      hasDrift (compareWithSpec current spec) = true
      /\ In "Function complexity increased significantly"
            (details (compareWithSpec current spec))
      /\ (specHasValidation spec = Some (hasValidation current) ->
          details (compareWithSpec current spec)
          = ["Function complexity increased significantly"]
          /\ confidence (compareWithSpec current spec) = 25%Z)).
Proof.
  split; [apply compareWithSpec_triggered|].
  split; [rewrite <- compareWithSpec_triggered; apply compareWithSpec_min|].
  split.
  - unfold analyzeFunctionDrift.
    destruct (findExistingSpec (DiffParser.functionName functionData)) as [existing|];
      simpl; [apply compareWithSpec_min | reflexivity].
  - intros Hcur Hprev.
    assert (Hinc : complexityIncreased current spec = true).
    { unfold complexityIncreased. rewrite Hprev, Hcur. reflexivity. }
    rewrite compareWithSpec_hasDrift, compareWithSpec_min, compareWithSpec_details, Hinc.
    split; [reflexivity|]. split; [left; reflexivity|].
    intros Hval. unfold validationChanged. rewrite Hval, Bool.eqb_reflx. simpl.
    split; reflexivity.
Qed.

Lemma compareWithSpec_confidence_witness :
  (complexity (analyzeCurrentImplementation bodyC) = 4%Z
   /\ specComplexity previousC = Some 2%Z
   /\ specHasValidation previousC
      = Some (hasValidation (analyzeCurrentImplementation bodyC)))
  /\ hasDrift (compareWithSpec (analyzeCurrentImplementation bodyC) previousC) = true
  /\ details (compareWithSpec (analyzeCurrentImplementation bodyC) previousC)
     = ["Function complexity increased significantly"]
  /\ confidence (compareWithSpec (analyzeCurrentImplementation bodyC) previousC) = 25%Z.
Proof.
  assert (Hcur : complexity (analyzeCurrentImplementation bodyC) = 4%Z)
    by (vm_compute; reflexivity).
  assert (Hval : specHasValidation previousC
                 = Some (hasValidation (analyzeCurrentImplementation bodyC)))
    by (vm_compute; reflexivity).
  split; [split; [exact Hcur|split; [reflexivity|exact Hval]]|].
  pose proof (compareWithSpec_confidence (fun _ => Some previousC) changeC
                (analyzeCurrentImplementation bodyC) previousC)
    as (_ & _ & _ & Hscenario).
  destruct (Hscenario Hcur eq_refl) as (Hdrift & _ & Honly).
  destruct (Honly Hval) as [Hdetails Hconfidence].
  split; [exact Hdrift|]. split; [exact Hdetails|exact Hconfidence].
Defined.

(** C6. A result of the drift detector with [hasDrift] set has a reason:
    [hasDrift] is set exactly when the complexity condition or the
    validation condition holds, each of which appends its reason. *)
Theorem drift_has_reason
        (findExistingSpec : string -> option ExistingSpec)
        (functionData : DiffParser.FunctionChange)
        (current : Implementation) (spec : ExistingSpec) :
  (resultHasDrift (analyzeFunctionDrift findExistingSpec functionData) = true ->
   exists reasons,
     driftDetails (analyzeFunctionDrift findExistingSpec functionData) = Some reasons
     /\ reasons <> [])
  /\ (hasDrift (compareWithSpec current spec) = true ->
      details (compareWithSpec current spec) <> [])
  /\ (details (compareWithSpec current spec) <> [] ->
      hasDrift (compareWithSpec current spec) = true)
  /\ hasDrift (compareWithSpec current spec)
     = complexityIncreased current spec || validationChanged current spec.
Proof.
  assert (Hne : forall c s, hasDrift (compareWithSpec c s) = true ->
                            details (compareWithSpec c s) <> []).
  { intros c s. rewrite compareWithSpec_hasDrift, compareWithSpec_details.
    destruct (complexityIncreased c s), (validationChanged c s); simpl;
      intros H; try discriminate H; discriminate. }
  split; [|split; [apply Hne|split; [|apply compareWithSpec_hasDrift]]].
  - unfold analyzeFunctionDrift.
    destruct (findExistingSpec (DiffParser.functionName functionData)) as [existing|];
      simpl; intros Hdrift; [|discriminate Hdrift].
    eexists. split; [reflexivity|]. apply Hne, Hdrift.
  - rewrite compareWithSpec_hasDrift, compareWithSpec_details.
    destruct (complexityIncreased current spec), (validationChanged current spec);
      simpl; intros H; try reflexivity. contradiction.
Qed.

Lemma drift_has_reason_witness :
  resultHasDrift (analyzeFunctionDrift (fun _ => Some previousC) changeC) = true
  /\ exists reasons,
      driftDetails (analyzeFunctionDrift (fun _ => Some previousC) changeC) = Some reasons
      /\ reasons <> [].
Proof.
  assert (Hdrift : resultHasDrift (analyzeFunctionDrift (fun _ => Some previousC) changeC)
                   = true) by (vm_compute; reflexivity).
  split; [exact Hdrift|].
  exact (proj1 (drift_has_reason (fun _ => Some previousC) changeC
                  (analyzeCurrentImplementation bodyC) previousC) Hdrift).
Defined.
End Drift.

(** ** The diff segmenter *)

Section Segmenter.
Import DiffParser.




Example parseDiff_hunkB :
  map (fun change => (filePath change, functionName change, fcChangeType change))
    (parseDiff ("diff --git a/src/add.js b/src/add.js" +:+ Js.nl +:+ hunkB)
       ["README.md"; "src/add.js"])
  = [("src/add.js", "add", "added")].
Proof. vm_compute. reflexivity. Qed.


End Segmenter.

(** ** The control-flow extractor *)

Section Extractor.
Import ASTExtractor.

Variable childForFieldName : string -> NodeRef -> Try (option NodeRef).
Variable cachedNodes : bool.
Variable setLanguage : Language -> Try unit.
Variable parse : Language -> string -> Try SyntaxNode.
Variable getContent : string -> Try (option string).

Lemma getFileContent_returns (filePath : string) :
  exists fileContent, getFileContent getContent filePath = Return fileContent.
Proof.
  unfold getFileContent, tryCatch, bindTry.
  destruct (getContent filePath) as [[content|]|e]; eexists; reflexivity.
Qed.

Lemma calculateComplexity_least (functionNode : NodeRef) (z : Z) :
  calculateComplexity childForFieldName cachedNodes functionNode = Return z -> (1 <= z)%Z.
Proof.
  unfold calculateComplexity.
  destruct (extractConditionalGuards _ _) as [guards|]; cbn [bindTry]; [|discriminate].
  destruct (extractLoops _ _) as [loops|]; cbn [bindTry]; [|discriminate].
  destruct (extractEarlyReturns _ _ _) as [returns|]; cbn [bindTry]; [|discriminate].
  intros [= <-]. lia.
Qed.

Lemma extractFacts_complexity (functionNode : NodeRef) (facts : Ast) :
  extractFacts childForFieldName cachedNodes functionNode = Return facts ->
  (1 <= complexity facts)%Z.
Proof.
  unfold extractFacts.
  destruct (extractInputTypes _ _); cbn [bindTry]; [|discriminate].
  destruct (extractOutputType _ _); cbn [bindTry]; [|discriminate].
  destruct (extractConditionalGuards _ _); cbn [bindTry]; [|discriminate].
  destruct (extractLoops _ _); cbn [bindTry]; [|discriminate].
  destruct (extractBranching _ _); cbn [bindTry]; [|discriminate].
  destruct (extractEarlyReturns _ _ _); cbn [bindTry]; [|discriminate].
  destruct (extractControlFlow _ _ _); cbn [bindTry]; [|discriminate].
  destruct (calculateComplexity _ _ _) as [z|] eqn:Hz; cbn [bindTry]; [|discriminate].
  intros [= <-]. cbn [complexity]. exact (calculateComplexity_least _ _ Hz).
Qed.

Lemma analyzeFunction_least (change : DiffParser.FunctionChange) (analysis : Analysis) :
  analyzeFunction childForFieldName cachedNodes setLanguage parse getContent change
  = Return analysis ->
  (1 <= complexity (ast analysis))%Z.
Proof.
  unfold analyzeFunction.
  destruct (getFileContent_returns (DiffParser.filePath change)) as [fileContent ->].
  cbn [bindTry].
  destruct (getLanguageFromPath _) as [language|]; [|intros [= <-]; simpl; lia].
  destruct (setLanguage language); cbn [bindTry]; [|discriminate].
  unfold tryCatch.
  destruct (parse language fileContent) as [tree|]; cbn [bindTry];
    [|intros [= <-]; simpl; lia].
  destruct (findFunctionNode _ _ _) as [[functionNode|]|]; cbn [bindTry];
    try (intros [= <-]; simpl; lia).
  destruct (extractFacts _ _ functionNode) as [facts|] eqn:Hfacts; cbn [bindTry];
    intros [= <-]; [|simpl; lia].
  cbn [ast]. exact (extractFacts_complexity _ _ Hfacts).
Qed.

(** C7. For a change of a [.ts] or [.tsx] file [analyzeFunction] raises
    when [setLanguage] refuses the object registered for TypeScript: the
    call stands before the [try] block, so the exception leaves
    [analyzeFunction], and [extractAST] drops the change.  An analysis that
    is returned has a complexity of at least 1. *)
Theorem analyzeFunction_typescript_raises
        (change : DiffParser.FunctionChange) (e : string) :
  In (Js.extname (DiffParser.filePath change)) [".ts"; ".tsx"] ->
  setLanguage TypeScript = Throw e ->
  analyzeFunction childForFieldName cachedNodes setLanguage parse getContent change
  = Throw e
  /\ extractAST childForFieldName cachedNodes setLanguage parse getContent [change] = []
  /\ forall other analysis,
      analyzeFunction childForFieldName cachedNodes setLanguage parse getContent other
      = Return analysis ->
      (1 <= complexity (ast analysis))%Z.
Proof.
  intros Hext Hrefused.
  assert (Hraises : analyzeFunction childForFieldName cachedNodes setLanguage parse
                      getContent change = Throw e).
  { unfold analyzeFunction.
    destruct (getFileContent_returns (DiffParser.filePath change)) as [fileContent ->].
    cbn [bindTry]. unfold getLanguageFromPath.
    assert (Hlanguage : parsers (Js.extname (DiffParser.filePath change)) = Some TypeScript)
      by (destruct Hext as [<-|[<-|[]]]; reflexivity).
    rewrite Hlanguage, Hrefused. reflexivity. }
  split; [exact Hraises|]. split.
  - unfold extractAST. cbn [flat_map]. rewrite Hraises. reflexivity.
  - intros other analysis. apply analyzeFunction_least.
Qed.
End Extractor.

Section ExtractorRaises.
Import ASTExtractor.

Lemma analyzeFunction_typescript_raises_witness :
  In (Js.extname (DiffParser.filePath (changeIn "src/app.ts"))) [".ts"; ".tsx"]
  /\ grammarsOnly TypeScript = Throw "TypeError: Invalid language object"
  /\ analyzeFunction noSuchMethod true grammarsOnly (fun _ _ => Return addTree)
       (fun _ => Return (Some "function add(a, b) { return a + b; }"))
       (changeIn "src/app.ts")
     = Throw "TypeError: Invalid language object"
  /\ extractAST noSuchMethod true grammarsOnly (fun _ _ => Return addTree)
       (fun _ => Return (Some "function add(a, b) { return a + b; }"))
       [changeIn "src/app.ts"] = [].
Proof.
  assert (Hext : In (Js.extname (DiffParser.filePath (changeIn "src/app.ts")))
                    [".ts"; ".tsx"]) by (left; reflexivity).
  split; [exact Hext|]. split; [reflexivity|].
  destruct (analyzeFunction_typescript_raises noSuchMethod true grammarsOnly
              (fun _ _ => Return addTree)
              (fun _ => Return (Some "function add(a, b) { return a + b; }"))
              (changeIn "src/app.ts") "TypeError: Invalid language object" Hext eq_refl)
    as (Hraises & Hdropped & _).
  split; [exact Hraises|exact Hdropped].
Defined.
End ExtractorRaises.

(** ** The cache of the synthesizer *)

Section Cache.
Import SpecAnalyzer.

Lemma generateSpec_returns
      (JSON_parse : string -> Try LLMClient.json)
      (complete : LLMClient.Backend -> LLMClient.Context -> LLMClient.Calls -> Try string)
      (clients : LLMClient.Clients) (context : LLMClient.Context) (calls : LLMClient.Calls) :
  exists spec calls',
    LLMClient.generateSpec JSON_parse complete clients context calls = (Return spec, calls').
Proof.
  unfold LLMClient.generateSpec, LLMClient.generateWithOpenAI,
    LLMClient.generateWithAnthropic, catch.
  destruct (LLMClient.openai clients); [|destruct (LLMClient.anthropic clients)];
    try (rewrite generateWith_run;
         destruct (complete _ context calls) as [content|e];
         [destruct (parseLLMResponse_returns JSON_parse content) as [spec ->]|];
         do 2 eexists; reflexivity).
  do 2 eexists; reflexivity.
Qed.

(** A request that misses the cache ends with the suggestion stored under
    its key. *)
Lemma generateSpecSuggestion_stores
      (JSON_parse : string -> Try LLMClient.json)
      (complete : LLMClient.Backend -> LLMClient.Context -> LLMClient.Calls -> Try string)
      (clients : LLMClient.Clients) (analysis : ASTExtractor.Analysis) (st : State) :
  exists suggestion st',
    generateSpecSuggestion JSON_parse complete clients analysis st = (Return suggestion, st')
    /\ specCache st' !! cacheKey analysis = Some suggestion.
Proof.
  unfold generateSpecSuggestion.
  destruct (specCache st !! cacheKey analysis) as [cached|] eqn:Hcache.
  - exists cached, st. split; [reflexivity|exact Hcache].
  - unfold bind, callLLM, cacheSet, ret.
    destruct (generateSpec_returns JSON_parse complete clients
                (prepareLLMContext analysis) (calls st)) as (spec & calls' & ->).
    do 2 eexists. split; [reflexivity|]. simpl. apply lookup_insert_eq.
Qed.

(** C9. After a request for a function key, a second request for the same
    key returns the record of the first and leaves the analyzer as it is: no
    request goes to a backend and the cache keeps its content. *)
Theorem generateSpecSuggestion_idempotent
        (JSON_parse : string -> Try LLMClient.json)
        (complete : LLMClient.Backend -> LLMClient.Context -> LLMClient.Calls -> Try string)
        (clients : LLMClient.Clients)
        (first second : ASTExtractor.Analysis) (st : State) :
  cacheKey first = cacheKey second ->
  exists suggestion st',
    generateSpecSuggestion JSON_parse complete clients first st = (Return suggestion, st')
    /\ generateSpecSuggestion JSON_parse complete clients second st'
       = (Return suggestion, st')
    /\ calls (snd (generateSpecSuggestion JSON_parse complete clients second st'))
       = calls st'.
Proof.
  intros Hkey.
  destruct (generateSpecSuggestion_stores JSON_parse complete clients first st)
    as (suggestion & st' & Hfirst & Hcached).
  exists suggestion, st'. split; [exact Hfirst|].
  assert (Hsecond : generateSpecSuggestion JSON_parse complete clients second st'
                    = (Return suggestion, st')).
  { unfold generateSpecSuggestion. rewrite <- Hkey, Hcached. reflexivity. }
  split; [exact Hsecond|]. rewrite Hsecond. reflexivity.
Qed.

Lemma generateSpecSuggestion_idempotent_witness :
  cacheKey (analysisOf hunkB) = cacheKey (analysisOf "+function add(a,b){return b+a;}")
  /\ exists suggestion st',
      generateSpecSuggestion parseKnown servicesE bothClients (analysisOf hunkB) emptyState
      = (Return suggestion, st')
      /\ generateSpecSuggestion parseKnown servicesE bothClients
           (analysisOf "+function add(a,b){return b+a;}") st'
         = (Return suggestion, st')
      /\ calls (snd (generateSpecSuggestion parseKnown servicesE bothClients
                       (analysisOf "+function add(a,b){return b+a;}") st'))
         = calls st'.
Proof.
  split; [reflexivity|].
  apply (generateSpecSuggestion_idempotent parseKnown servicesE bothClients
           (analysisOf hunkB) (analysisOf "+function add(a,b){return b+a;}") emptyState).
  reflexivity.
Defined.
End Cache.

(** ** More on the diff segmenter *)

Section SegmenterScan.
Import DiffParser.

Lemma collected_step (i : nat) (line : string) (st : Scan) :
  map summary (collected (growFunction line (openFunction i line st)))
  = map summary (collected st)
    ++ match firstMatch functionPatterns line with
       | Some c => [opening i c]
       | None => []
       end.
Proof.
  unfold openFunction.
  destruct (firstMatch functionPatterns line) as [c|].
  - unfold growFunction, collected. cbn [inFunction currentFunction functions braceCount].
    destruct ((_ =? 0)%Z && _); cbn [functions currentFunction];
      destruct (currentFunction st) as [f|];
      rewrite ?map_app, ?app_nil_r, <- ?app_assoc; reflexivity.
  - rewrite app_nil_r. unfold growFunction, collected.
    destruct (inFunction st); [|reflexivity].
    destruct (currentFunction st) as [f|] eqn:Hcur; [|by rewrite Hcur].
    destruct ((_ =? 0)%Z && _); cbn [functions currentFunction];
      rewrite ?map_app, ?app_nil_r; reflexivity.
Qed.

Lemma collected_scanLines (ls : list string) :
  forall i st,
    map summary (collected (scanLines i ls st))
    = map summary (collected st) ++ openings i ls.
Proof.
  induction ls as [|line ls IH]; intros i st; cbn [scanLines openings].
  - by rewrite app_nil_r.
  - rewrite IH, collected_step.
    destruct (firstMatch functionPatterns line); rewrite <- ?app_assoc; reflexivity.
Qed.

(** X1. [extractFunctions] returns one function for every line that matches
    a function pattern, in the order of the lines, with the name, the line
    number and the marker of that line; no line is needed to close it. *)
Theorem extractFunctions_openings (fileDiff : string) :
  map summary (extractFunctions fileDiff) = openings 0 (Js.lines fileDiff).
Proof.
  unfold extractFunctions.
  pose proof (collected_scanLines (Js.lines fileDiff) 0 startScan) as H.
  unfold collected in H at 1.
  destruct (currentFunction (scanLines 0 (Js.lines fileDiff) startScan));
    rewrite ?app_nil_r in H; exact H.
Qed.
End SegmenterScan.

Section SegmenterBodies.
Import DiffParser.

Lemma splitOn_nonempty (sep : ascii) (s : string) : Js.splitOn sep s <> [].
Proof.
  destruct s as [|a s]; simpl; [discriminate|].
  destruct (Ascii.eqb a sep); [discriminate|].
  destruct (Js.splitOn sep s); discriminate.
Qed.

Lemma splitOn_free (sep : ascii) (s : string) : Forall (free sep) (Js.splitOn sep s).
Proof.
  induction s as [|a s IH]; simpl.
  - repeat constructor.
  - destruct (Ascii.eqb_spec a sep) as [->|Hne].
    + constructor; [exact I|exact IH].
    + destruct (Js.splitOn sep s) as [|x xs]; [repeat constructor; assumption|].
      inversion IH; subst. constructor; [split; assumption|assumption].
Qed.

Lemma splitOn_cons (sep : ascii) (l r : string) :
  free sep l -> Js.splitOn sep (l +:+ String sep r) = l :: Js.splitOn sep r.
Proof.
  induction l as [|a l IH].
  - intros _. rewrite append_empty_l. cbn [Js.splitOn]. by rewrite Ascii.eqb_refl.
  - intros [Hne Hfree]. apply Ascii.eqb_neq in Hne.
    rewrite append_cons. cbn [Js.splitOn]. rewrite Hne, (IH Hfree). reflexivity.
Qed.

Lemma opensTwice_step (ls : list string) (i : nat) (line : string) (st : Scan) :
  In line ls ->
  Forall (opensTwice ls) (collected st) ->
  (currentFunction st <> None -> inFunction st = true) ->
  Forall (opensTwice ls) (collected (growFunction line (openFunction i line st)))
  /\ (currentFunction (growFunction line (openFunction i line st)) <> None ->
      inFunction (growFunction line (openFunction i line st)) = true).
Proof.
  intros Hin Hall Hopen. unfold openFunction.
  destruct (firstMatch functionPatterns line) as [c|] eqn:Hmatch.
  - assert (Hnew : forall nm ln ct,
               opensTwice ls {| name := nm; body := line +:+ Js.nl +:+ line;
                                lineNumber := ln; changeType := ct |}).
    { intros. exists line, "". split; [exact Hin|]. split; [congruence|].
      cbn [body]. by rewrite append_empty_r. }
    assert (HF : Forall (opensTwice ls)
                   (match currentFunction st with
                    | Some f => functions st ++ [f]
                    | None => functions st
                    end)).
    { unfold collected in Hall. destruct (currentFunction st);
        rewrite ?app_nil_r in Hall; exact Hall. }
    unfold growFunction.
    cbn [inFunction currentFunction functions braceCount name body lineNumber changeType].
    destruct ((_ =? 0)%Z && _); unfold collected;
      cbn [functions currentFunction inFunction].
    + split; [|congruence]. rewrite app_nil_r. apply Forall_app. split; [exact HF|].
      constructor; [apply Hnew|constructor].
    + split; [|reflexivity]. apply Forall_app. split; [exact HF|].
      constructor; [apply Hnew|constructor].
  - unfold growFunction.
    destruct (inFunction st) eqn:Hin_f.
    + destruct (currentFunction st) as [f|] eqn:Hcur;
        [|split; [exact Hall|intros _; exact Hin_f]].
      assert (Hf : opensTwice ls f).
      { unfold collected in Hall. rewrite Hcur in Hall.
        apply Forall_app in Hall. destruct Hall as [_ Hf]. by inversion Hf. }
      assert (Hgrown : opensTwice ls {| name := name f; body := body f +:+ Js.nl +:+ line;
                                        lineNumber := lineNumber f;
                                        changeType := changeType f |}).
      { destruct Hf as (l0 & rest & Hl0 & Hm0 & Hbody).
        exists l0, (rest +:+ Js.nl +:+ line). split; [exact Hl0|]. split; [exact Hm0|].
        cbn [body]. rewrite Hbody, !append_assoc. reflexivity. }
      assert (Hclosed : Forall (opensTwice ls) (functions st)).
      { unfold collected in Hall. apply Forall_app in Hall. tauto. }
      destruct ((_ =? 0)%Z && _); unfold collected;
        cbn [functions currentFunction inFunction].
      * split; [|congruence]. rewrite app_nil_r. apply Forall_app. split; [exact Hclosed|].
        constructor; [exact Hgrown|constructor].
      * split; [|reflexivity]. apply Forall_app. split; [exact Hclosed|].
        constructor; [exact Hgrown|constructor].
    + split; [exact Hall|]. intros Hc. rewrite Hin_f. exact (Hopen Hc).
Qed.

Lemma opensTwice_scanLines (all ls : list string) :
  forall i st,
    (forall line, In line ls -> In line all) ->
    Forall (opensTwice all) (collected st) ->
    (currentFunction st <> None -> inFunction st = true) ->
    Forall (opensTwice all) (collected (scanLines i ls st)).
Proof.
  induction ls as [|line ls IH]; intros i st Hsub Hall Hopen; cbn [scanLines].
  - exact Hall.
  - destruct (opensTwice_step all i line st) as [Hall' Hopen'];
      [apply Hsub; left; reflexivity|assumption|assumption|].
    apply IH; [intros l Hl; apply Hsub; right; exact Hl|assumption|assumption].
Qed.

Lemma determineChangeType_first (func : Func) (line rest : string) :
  free (ascii_of_nat 10) line ->
  body func = line +:+ Js.nl +:+ rest ->
  (Js.startsWith "+" line = true -> determineChangeType func <> "removed")
  /\ (Js.startsWith "-" line = true -> determineChangeType func <> "added").
Proof.
  intros Hfree Hbody. unfold determineChangeType, Js.lines. rewrite Hbody.
  change (line +:+ Js.nl +:+ rest) with (line +:+ String (ascii_of_nat 10) rest).
  rewrite (splitOn_cons _ _ _ Hfree). unfold Js.some. cbn [existsb].
  split; intros ->; cbn [orb andb]; rewrite ?Bool.andb_true_r;
    repeat match goal with |- context [if ?b then _ else _] => destruct b end;
    discriminate.
Qed.

(** X2. The body of every function that [extractFunctions] returns starts
    with the line that opened it, twice; so a function opened by an added
    line is never classified as removed, and one opened by a removed line
    never as added. *)
Theorem extractFunctions_body (fileDiff : string) (func : Func) :
  In func (extractFunctions fileDiff) ->
  exists line rest,
    In line (Js.lines fileDiff)
    /\ firstMatch functionPatterns line <> None
    /\ body func = line +:+ Js.nl +:+ line +:+ rest
    /\ (Js.startsWith "+" line = true -> determineChangeType func <> "removed")
    /\ (Js.startsWith "-" line = true -> determineChangeType func <> "added").
Proof.
  intros Hin.
  assert (Hall : Forall (opensTwice (Js.lines fileDiff)) (extractFunctions fileDiff)).
  { unfold extractFunctions.
    pose proof (opensTwice_scanLines (Js.lines fileDiff) (Js.lines fileDiff) 0 startScan
                  (fun _ H => H)) as H.
    unfold collected in H at 2.
    destruct (currentFunction (scanLines 0 (Js.lines fileDiff) startScan));
      rewrite ?app_nil_r in H; apply H; try (constructor); cbn; congruence. }
  rewrite List.Forall_forall in Hall.
  destruct (Hall func Hin) as (line & rest & Hline & Hmatch & Hbody).
  exists line, rest. split; [exact Hline|]. split; [exact Hmatch|]. split; [exact Hbody|].
  apply (determineChangeType_first func line (line +:+ rest)); [|exact Hbody].
  pose proof (splitOn_free (ascii_of_nat 10) fileDiff) as Hfree.
  rewrite List.Forall_forall in Hfree. apply Hfree, Hline.
Qed.

Lemma extractFunctions_body_witness :
  In {| name := "add"; body := hunkB +:+ Js.nl +:+ hunkB; lineNumber := 1;
        changeType := "+" |} (extractFunctions hunkB)
  /\ exists line rest,
      In line (Js.lines hunkB)
      /\ firstMatch functionPatterns line <> None
      /\ body {| name := "add"; body := hunkB +:+ Js.nl +:+ hunkB; lineNumber := 1;
                 changeType := "+" |} = line +:+ Js.nl +:+ line +:+ rest
      /\ (Js.startsWith "+" line = true ->
          determineChangeType {| name := "add"; body := hunkB +:+ Js.nl +:+ hunkB;
                                 lineNumber := 1; changeType := "+" |} <> "removed")
      /\ (Js.startsWith "-" line = true ->
          determineChangeType {| name := "add"; body := hunkB +:+ Js.nl +:+ hunkB;
                                 lineNumber := 1; changeType := "+" |} <> "added").
Proof.
  assert (Hin : In {| name := "add"; body := hunkB +:+ Js.nl +:+ hunkB; lineNumber := 1;
                      changeType := "+" |} (extractFunctions hunkB))
    by (vm_compute; left; reflexivity).
  split; [exact Hin|].
  exact (extractFunctions_body hunkB _ Hin).
Defined.
End SegmenterBodies.

Section SegmenterFiles.
Import DiffParser.

Lemma fileLines_off (filename : string) (ls acc : list string) :
  Forall (fun line => header line -> ~ mentions filename line) ls ->
  fileLines filename ls false acc = acc.
Proof.
  induction 1 as [|line ls Hline _ IH]; cbn [fileLines]; [reflexivity|].
  destruct (Js.startsWith "diff --git" line) eqn:Hh; [|exact IH].
  destruct (Js.includes filename line) eqn:Hm; [|exact IH].
  exfalso. exact (Hline Hh Hm).
Qed.

Lemma fileLines_section (filename : string) (sect post : list string) :
  Forall (fun line => ~ header line) sect ->
  forall acc,
    fileLines filename (sect ++ post) true acc = fileLines filename post true (acc ++ sect).
Proof.
  induction 1 as [|line sect Hline _ IH]; intros acc; cbn [fileLines app].
  - by rewrite app_nil_r.
  - unfold header in Hline. apply not_true_is_false in Hline. rewrite Hline.
    rewrite IH, <- app_assoc. reflexivity.
Qed.

Lemma fileLines_header (filename h : string) (pre rest : list string) :
  header h -> mentions filename h ->
  forall inTargetFile acc,
    fileLines filename (pre ++ h :: rest) inTargetFile acc
    = fileLines filename rest true [].
Proof.
  intros Hh Hm. induction pre as [|line pre IH]; intros b acc; cbn [fileLines app].
  - unfold header in Hh. unfold mentions in Hm. rewrite Hh, Hm. reflexivity.
  - destruct (Js.startsWith "diff --git" line); [apply IH|].
    destruct b; apply IH.
Qed.

(** X3. When no header line of the diff mentions the file name, the file has
    no diff and [parseFileDiff] returns no change. *)
Theorem extractFileDiff_unmentioned (diff filename : string) :
  Forall (fun line => header line -> ~ mentions filename line) (Js.lines diff) ->
  extractFileDiff diff filename = "" /\ parseFileDiff filename diff = [].
Proof.
  intros H.
  assert (Hempty : extractFileDiff diff filename = "").
  { unfold extractFileDiff. by rewrite fileLines_off. }
  split; [exact Hempty|]. unfold parseFileDiff. rewrite Hempty. reflexivity.
Qed.

Lemma extractFileDiff_unmentioned_witness :
  Forall (fun line => header line -> ~ mentions "src/sub.js" line)
    (Js.lines ("diff --git a/src/add.js b/src/add.js" +:+ Js.nl +:+ hunkB))
  /\ extractFileDiff ("diff --git a/src/add.js b/src/add.js" +:+ Js.nl +:+ hunkB)
       "src/sub.js" = ""
  /\ parseFileDiff "src/sub.js"
       ("diff --git a/src/add.js b/src/add.js" +:+ Js.nl +:+ hunkB) = [].
Proof.
  assert (H : Forall (fun line => header line -> ~ mentions "src/sub.js" line)
                (Js.lines ("diff --git a/src/add.js b/src/add.js" +:+ Js.nl +:+ hunkB))).
  { repeat constructor; intros _ Hm; vm_compute in Hm; discriminate Hm. }
  split; [exact H|].
  exact (extractFileDiff_unmentioned _ _ H).
Defined.

(** X4. The diff of a file is the text between the last header line that
    contains the file name and the next header line: what comes before that
    header, earlier sections of the same name included, and what comes after
    the next header is dropped. *)
Theorem extractFileDiff_section
        (diff filename h : string) (pre sect post : list string) :
  Js.lines diff = pre ++ h :: sect ++ post ->
  header h -> mentions filename h ->
  Forall (fun line => ~ header line) sect ->
  Forall (fun line => header line -> ~ mentions filename line) post ->
  (post = [] \/ exists h' post', post = h' :: post' /\ header h') ->
  extractFileDiff diff filename = Js.join Js.nl sect.
Proof.
  intros Hlines Hh Hm Hsect Hpost Hnext. unfold extractFileDiff.
  rewrite Hlines, (fileLines_header filename h pre (sect ++ post) Hh Hm).
  rewrite (fileLines_section filename sect post Hsect). cbn [app].
  destruct Hnext as [->|(h' & post' & -> & Hh')].
  - reflexivity.
  - cbn [fileLines]. unfold header in Hh'. rewrite Hh'.
    inversion Hpost as [|? ? Hfirst Hrest]; subst.
    destruct (Js.includes filename h') eqn:Hm'; [exfalso; exact (Hfirst Hh' Hm')|].
    by rewrite fileLines_off.
Qed.

Lemma extractFileDiff_section_witness :
  Js.lines (Js.join Js.nl
              [ "diff --git a/lib/add.js b/lib/add.js"; "-old";
                "diff --git a/src/myadd.js b/src/myadd.js"; "@@ -1 +1 @@"; hunkB;
                "diff --git a/README.md b/README.md"; "+text" ])
  = ["diff --git a/lib/add.js b/lib/add.js"; "-old"]
    ++ "diff --git a/src/myadd.js b/src/myadd.js"
       :: ["@@ -1 +1 @@"; hunkB] ++ ["diff --git a/README.md b/README.md"; "+text"]
  /\ extractFileDiff
       (Js.join Js.nl
          [ "diff --git a/lib/add.js b/lib/add.js"; "-old";
            "diff --git a/src/myadd.js b/src/myadd.js"; "@@ -1 +1 @@"; hunkB;
            "diff --git a/README.md b/README.md"; "+text" ])
       "add.js"
     = Js.join Js.nl ["@@ -1 +1 @@"; hunkB].
Proof.
  assert (Hlines :
            Js.lines (Js.join Js.nl
                        [ "diff --git a/lib/add.js b/lib/add.js"; "-old";
                          "diff --git a/src/myadd.js b/src/myadd.js"; "@@ -1 +1 @@"; hunkB;
                          "diff --git a/README.md b/README.md"; "+text" ])
            = ["diff --git a/lib/add.js b/lib/add.js"; "-old"]
              ++ "diff --git a/src/myadd.js b/src/myadd.js"
                 :: ["@@ -1 +1 @@"; hunkB]
                 ++ ["diff --git a/README.md b/README.md"; "+text"])
    by (vm_compute; reflexivity).
  split; [exact Hlines|].
  apply (extractFileDiff_section _ "add.js" _ _ _ _ Hlines).
  - reflexivity.
  - vm_compute. reflexivity.
  - repeat constructor; intros H; vm_compute in H; discriminate H.
  - repeat constructor; intros H1 H2; vm_compute in H1, H2;
      first [discriminate H1|discriminate H2].
  - right. do 2 eexists. split; reflexivity.
Defined.

(** X5. Every change that [parseDiff] returns belongs to one of the changed
    files, which has one of the eleven source extensions and a path without
    [test], [spec], [Test] or [Spec] anywhere in it. *)
Theorem parseDiff_code_files
        (diff : string) (changedFiles : list string) (change : FunctionChange) :
  In change (parseDiff diff changedFiles) ->
  In (filePath change) changedFiles
  /\ In (Js.extname (filePath change))
        [".js"; ".ts"; ".jsx"; ".tsx"; ".py"; ".java"; ".go"; ".rs"; ".cpp"; ".c"; ".h"]
  /\ Forall (fun pattern => Js.includes pattern (filePath change) = false)
        ["test"; "spec"; "Test"; "Spec"].
Proof.
  unfold parseDiff. intros Hin. apply in_flat_map in Hin.
  destruct Hin as (filename & Hfile & Hchange).
  destruct (isCodeFile filename) eqn:Hcode; [|destruct Hchange].
  assert (Hpath : filePath change = filename).
  { unfold parseFileDiff in Hchange.
    destruct (Js.truthy _); [|destruct Hchange].
    unfold segment in Hchange. apply in_map_iff in Hchange.
    destruct Hchange as (func & <- & _). reflexivity. }
  rewrite Hpath. split; [exact Hfile|].
  unfold isCodeFile in Hcode. apply andb_prop in Hcode. destruct Hcode as [Hext Htest].
  split.
  - apply existsb_exists in Hext. destruct Hext as (ext & Hext & Heq).
    apply String.eqb_eq in Heq. rewrite Heq. exact Hext.
  - apply negb_true_iff in Htest. unfold Js.some in Htest. cbn [existsb] in Htest.
    repeat (apply orb_false_elim in Htest; destruct Htest as [? Htest]).
    repeat constructor; assumption.
Qed.

Lemma parseDiff_code_files_witness :
  exists change,
    In change (parseDiff ("diff --git a/src/add.js b/src/add.js" +:+ Js.nl +:+ hunkB)
                 ["src/add.test.js"; "src/add.js"])
    /\ In (filePath change) ["src/add.test.js"; "src/add.js"]
    /\ In (Js.extname (filePath change))
          [".js"; ".ts"; ".jsx"; ".tsx"; ".py"; ".java"; ".go"; ".rs"; ".cpp"; ".c"; ".h"]
    /\ Forall (fun pattern => Js.includes pattern (filePath change) = false)
          ["test"; "spec"; "Test"; "Spec"].
Proof.
  eexists. 
  assert (Hin : In (toChange "src/add.js" hunkB
                      {| name := "add"; body := hunkB +:+ Js.nl +:+ hunkB;
                         lineNumber := 1; changeType := "+" |})
                  (parseDiff ("diff --git a/src/add.js b/src/add.js" +:+ Js.nl +:+ hunkB)
                     ["src/add.test.js"; "src/add.js"]))
    by (vm_compute; left; reflexivity).
  split; [exact Hin|].
  exact (parseDiff_code_files _ _ _ Hin).
Defined.
End SegmenterFiles.

Section SegmenterComments.
Import DiffParser.

Lemma commentsFrom_lookup (ls : list string) :
  forall i c,
    In c (commentsFrom i ls) ->
    exists j line, ls !! j = Some line /\ In c (commentOf (i + j) line).
Proof.
  induction ls as [|line ls IH]; intros i c Hin; cbn [commentsFrom] in Hin.
  - destruct Hin.
  - apply in_app_or in Hin. destruct Hin as [Hin|Hin].
    + exists 0%nat, line. rewrite Nat.add_0_r. split; [reflexivity|exact Hin].
    + destruct (IH (S i) c Hin) as (j & l & Hj & Hc).
      exists (S j), l. split; [exact Hj|]. by rewrite Nat.add_succ_r.
Qed.

Lemma getCommentType_range (comment : string) :
  In (getCommentType comment) ["todo"; "documentation"; "specification"; "general"].
Proof.
  unfold getCommentType.
  repeat match goal with |- context [if ?b then _ else _] => destruct b end;
    simpl; tauto.
Qed.

(** X6. A comment that [extractComments] returns for a function at line [n]
    comes from a line of the diff that contains a comment marker and lies at
    most five lines from line [n]: its text is that line without the change
    marker and the white space at its head, trimmed, and is not empty; its
    type is the type of that text, one of the four comment types. *)
Theorem extractComments_window (fileDiff : string) (functionLine : nat) (c : Comment) :
  In c (extractComments fileDiff functionLine) ->
  exists line,
    Js.lines fileDiff !! (commentLine c - 1)%nat = Some line
    /\ (1 <= commentLine c)%nat
    /\ (functionLine - 5 <= commentLine c <= functionLine + 5)%nat
    /\ (Js.includes "//" line || Js.includes "/*" line || Js.includes "*/" line) = true
    /\ text c = trim (Regex.replaceFirst marker (fun _ _ => "") line)
    /\ text c <> ""
    /\ commentType c = getCommentType (text c)
    /\ In (commentType c) ["todo"; "documentation"; "specification"; "general"].
Proof.
  unfold extractComments. intros Hin.
  apply commentsFrom_lookup in Hin. destruct Hin as (j & line & Hj & Hc).
  apply lookup_take_Some in Hj. destruct Hj as [Hj Hlt].
  rewrite lookup_drop in Hj.
  pose proof (lookup_lt_Some _ _ _ Hj) as Hlen.
  unfold commentOf in Hc.
  destruct (Js.includes "//" line || Js.includes "/*" line || Js.includes "*/" line)
    eqn:Hmarker; [|destruct Hc].
  destruct (Js.truthy _) eqn:Htext; [|destruct Hc].
  destruct Hc as [<-|[]]. cbn [commentLine text commentType].
  exists line. split.
  { replace (functionLine - 5 - 1 + j + 1 - 1)%nat with (functionLine - 5 - 1 + j)%nat
      by lia. exact Hj. }
  split; [lia|]. split; [lia|]. split; [exact Hmarker|]. split; [reflexivity|].
  split; [|split; [reflexivity|apply getCommentType_range]].
  intros Hempty. rewrite Hempty in Htext. discriminate Htext.
Qed.

Lemma extractComments_window_witness :
  In {| text := "// sum of two numbers"; commentLine := 1; commentType := "general" |}
     (extractComments ("+// sum of two numbers" +:+ Js.nl +:+ hunkB) 2)
  /\ exists line,
      Js.lines ("+// sum of two numbers" +:+ Js.nl +:+ hunkB) !! (1 - 1)%nat = Some line
      /\ (1 <= 1)%nat
      /\ (2 - 5 <= 1 <= 2 + 5)%nat
      /\ (Js.includes "//" line || Js.includes "/*" line || Js.includes "*/" line) = true
      /\ "// sum of two numbers" = trim (Regex.replaceFirst marker (fun _ _ => "") line)
      /\ "// sum of two numbers" <> ""
      /\ "general" = getCommentType "// sum of two numbers"
      /\ In "general" ["todo"; "documentation"; "specification"; "general"].
Proof.
  assert (Hin : In {| text := "// sum of two numbers"; commentLine := 1;
                      commentType := "general" |}
                  (extractComments ("+// sum of two numbers" +:+ Js.nl +:+ hunkB) 2))
    by (vm_compute; left; reflexivity).
  split; [exact Hin|].
  exact (extractComments_window _ _ _ Hin).
Defined.
End SegmenterComments.

(** ** More on the control-flow extractor *)

Section ExtractorTrees.
Import ASTExtractor.

(** Induction on syntax trees, with the property for all children. *)
Fixpoint SyntaxNode_induction (P : SyntaxNode -> Prop)
         (step : forall type text row cs,
             Forall (fun fc => P (snd fc)) cs -> P (Node type text row cs))
         (n : SyntaxNode) {struct n} : P n :=
  match n with
  | Node type text row cs =>
      step type text row cs
        ((fix all (cs : list (option string * SyntaxNode)) :
            Forall (fun fc => P (snd fc)) cs :=
            match cs with
            | [] => @List.Forall_nil _ _
            | (f, c) :: cs' =>
                @List.Forall_cons _ _ (f, c) cs' (SyntaxNode_induction P step c) (all cs')
            end) cs)
  end.

Lemma subtree_root (n : SyntaxNode) : In n (subtree n).
Proof. destruct n. left. reflexivity. Qed.

Lemma filter_app {A} (p : A -> bool) (xs ys : list A) :
  List.filter p (xs ++ ys) = List.filter p xs ++ List.filter p ys.
Proof. apply List.filter_app. Qed.

Lemma findFrom_unfold (types : list string) (up0 : option (SyntaxNode * nat))
      (ty tx : string) (row : nat) (cs : list (option string * SyntaxNode)) :
  findFrom types up0 (Node ty tx row cs)
  = (if existsb (String.eqb ty) types
     then [{| self := Node ty tx row cs; up := up0 |}] else [])
    ++ findBelow types (Node ty tx row cs) 0 cs.
Proof.
  cbn [findFrom]. f_equal. generalize (Node ty tx row cs) as root. intros root.
  generalize 0%nat.
  induction cs as [|[f c] cs IH]; intros i; [reflexivity|].
  cbn [findBelow]. f_equal. apply IH.
Qed.

Lemma subtree_unfold (ty tx : string) (row : nat) (cs : list (option string * SyntaxNode)) :
  subtree (Node ty tx row cs) = Node ty tx row cs :: subtrees cs.
Proof. reflexivity. Qed.

Lemma height_unfold (ty tx : string) (row : nat) (cs : list (option string * SyntaxNode)) :
  height (Node ty tx row cs) = tallest cs.
Proof. reflexivity. Qed.

Lemma findBelow_subtrees (types : list string) (root : SyntaxNode)
      (cs0 : list (option string * SyntaxNode)) :
  Forall (fun fc => forall up0,
              map self (findFrom types up0 (snd fc))
              = List.filter (fun n => existsb (String.eqb (typeOf n)) types)
                  (subtree (snd fc))
              /\ Forall (linked (snd fc) up0) (findFrom types up0 (snd fc))) cs0 ->
  forall i,
    (forall j fc, cs0 !! j = Some fc -> kids root !! (i + j)%nat = Some fc) ->
    map self (findBelow types root i cs0)
    = List.filter (fun n => existsb (String.eqb (typeOf n)) types) (subtrees cs0)
    /\ Forall (fun r => exists parent k field,
                   up r = Some (parent, k)
                   /\ (parent = root \/ In parent (subtrees cs0))
                   /\ kids parent !! k = Some (field, self r))
         (findBelow types root i cs0).
Proof.
  induction 1 as [|[f c] cs0 Hc _ IH]; intros i Hsub; cbn [findBelow subtrees].
  - split; [reflexivity|constructor].
  - destruct (Hc (Some (root, i))) as [Hmap Hlinks]. cbn [snd] in Hmap, Hlinks.
    destruct (IH (S i)) as [Hmap' Hlinks'].
    { intros j fc Hj. rewrite Nat.add_succ_l, <- Nat.add_succ_r. apply Hsub. exact Hj. }
    split.
    + rewrite map_app, filter_app, Hmap, Hmap'. reflexivity.
    + apply Forall_app. split.
      * rewrite List.Forall_forall in Hlinks |- *. intros r Hr.
        destruct (Hlinks r Hr) as [[Hself Hup]|(parent & k & field & Hup & Hin & Hkid)].
        -- exists root, i, f. split; [exact Hup|]. split; [left; reflexivity|].
           rewrite Hself. specialize (Hsub 0%nat (f, c) eq_refl).
           by rewrite Nat.add_0_r in Hsub.
        -- exists parent, k, field. split; [exact Hup|]. split; [|exact Hkid].
           right. apply in_or_app. left. exact Hin.
      * rewrite List.Forall_forall in Hlinks' |- *. intros r Hr.
        destruct (Hlinks' r Hr) as (parent & k & field & Hup & Hin & Hkid).
        exists parent, k, field. split; [exact Hup|]. split; [|exact Hkid].
        destruct Hin as [Hin|Hin]; [left; exact Hin|].
        right. apply in_or_app. right. exact Hin.
Qed.

Lemma findFrom_subtree (types : list string) (n : SyntaxNode) :
  forall up0,
    map self (findFrom types up0 n)
    = List.filter (fun n => existsb (String.eqb (typeOf n)) types) (subtree n)
    /\ Forall (linked n up0) (findFrom types up0 n).
Proof.
  induction n as [ty tx row cs IH] using SyntaxNode_induction. intros up0.
  rewrite findFrom_unfold, subtree_unfold.
  destruct (findBelow_subtrees types (Node ty tx row cs) cs IH 0%nat (fun j fc H => H))
    as [Hmap Hlinks].
  split.
  - cbn [List.filter typeOf].
    destruct (existsb (String.eqb ty) types); cbn [app map self]; rewrite Hmap; reflexivity.
  - apply Forall_app. split.
    + destruct (existsb (String.eqb ty) types); constructor; [|constructor].
      left. split; reflexivity.
    + rewrite List.Forall_forall in Hlinks |- *. intros r Hr. right.
      destruct (Hlinks r Hr) as (parent & k & field & Hup & Hin & Hkid).
      exists parent, k, field. split; [exact Hup|]. split; [|exact Hkid].
      rewrite subtree_unfold. destruct Hin as [->|Hin]; [left; reflexivity|right; exact Hin].
Qed.

(** X7. [findNodesByType] returns the nodes of the tree whose type is among
    the given types, each once and a node before its children; every node
    that it returns is the root with its own parent link or carries the
    parent and the position that the tree gives it. *)
Theorem findNodesByType_subtree (node : NodeRef) (types : list string) :
  map self (findNodesByType node types)
  = List.filter (fun n => existsb (String.eqb (typeOf n)) types) (subtree (self node))
  /\ Forall (linked (self node) (up node)) (findNodesByType node types).
Proof. apply findFrom_subtree. Qed.

End ExtractorTrees.

Section ExtractorFacts.
Import ASTExtractor.

Variable childForFieldName : string -> NodeRef -> Try (option NodeRef).
Variable cachedNodes : bool.
Variable setLanguage : Language -> Try unit.
Variable parse : Language -> string -> Try SyntaxNode.
Variable getContent : string -> Try (option string).

Lemma bindTry_throws {A B} (m : Try A) (f : A -> Try B) :
  throws m -> throws (bindTry m f).
Proof.
  intros [e ->]. exists e. reflexivity.
Qed.

Lemma orNode_throws (a b : Try (option NodeRef)) : throws a -> throws (orNode a b).
Proof.
  apply bindTry_throws.
Qed.

(** A loop whose body always throws returns only when there is nothing to
    loop over. *)
Lemma mapTry_throws {A B} (f : A -> Try B) (xs : list A) :
  (forall x, throws (f x)) ->
  match xs with
  | [] => mapTry f xs = Return []
  | _ :: _ => throws (mapTry f xs)
  end.
Proof.
  intros Hf. destruct xs as [|x xs]; [reflexivity|].
  cbn [mapTry]. apply bindTry_throws, Hf.
Qed.

Lemma getFunctionName_throws (node : NodeRef) :
  fieldless childForFieldName -> throws (getFunctionName childForFieldName node).
Proof.
  intros Hfield. unfold getFunctionName. apply bindTry_throws, orNode_throws, Hfield.
Qed.

Lemma findFunctionNode_fieldless (rootNode : NodeRef) (functionName : string) :
  fieldless childForFieldName ->
  match findNodesByType rootNode functionTypes with
  | [] => findFunctionNode childForFieldName rootNode functionName = Return None
  | _ :: _ => throws (findFunctionNode childForFieldName rootNode functionName)
  end.
Proof.
  intros Hfield. unfold findFunctionNode. fold functionTypes.
  destruct (findNodesByType rootNode functionTypes) as [|node rest]; [reflexivity|].
  cbn [firstNamed]. apply bindTry_throws, getFunctionName_throws, Hfield.
Qed.

Lemma extractFacts_throws (functionNode : NodeRef) :
  fieldless childForFieldName ->
  throws (extractFacts childForFieldName cachedNodes functionNode).
Proof.
  intros Hfield. unfold extractFacts, extractInputTypes.
  apply bindTry_throws, bindTry_throws, orNode_throws, Hfield.
Qed.

Lemma analyzeFunction_fieldless (change : DiffParser.FunctionChange) :
  fieldless childForFieldName ->
  analyzeFunction childForFieldName cachedNodes setLanguage parse getContent change
  = match getLanguageFromPath (DiffParser.filePath change) with
    | None => Return (createBasicAnalysis change)
    | Some language =>
        match setLanguage language with
        | Return _ => Return (createBasicAnalysis change)
        | Throw e => Throw e
        end
    end.
Proof.
  intros Hfield. unfold analyzeFunction.
  destruct (getFileContent_returns getContent (DiffParser.filePath change))
    as [fileContent ->].
  cbn [bindTry].
  destruct (getLanguageFromPath _) as [language|]; [|reflexivity].
  destruct (setLanguage language); cbn [bindTry]; [|reflexivity].
  unfold tryCatch.
  destruct (parse language fileContent) as [tree|]; cbn [bindTry]; [|reflexivity].
  pose proof (findFunctionNode_fieldless {| self := tree; up := None |}
                (DiffParser.functionName change) Hfield) as Hfind.
  destruct (findNodesByType _ functionTypes); [rewrite Hfind; reflexivity|].
  destruct Hfind as [e ->]. reflexivity.
Qed.

(** X8. With a binding whose nodes have no [childForFieldName] the
    extractor never gets to the facts of a function: [findFunctionNode]
    returns no node, it throws as soon as the tree holds a function node;
    the object of the facts throws at its first property; and
    [analyzeFunction] returns the degraded analysis whatever the file
    holds, or leaves with the exception of [setLanguage]. *)
Theorem analyzeFunction_degraded
        (rootNode functionNode : NodeRef) (functionName : string)
        (change : DiffParser.FunctionChange) :
  fieldless childForFieldName ->
  match findNodesByType rootNode functionTypes with
  | [] => findFunctionNode childForFieldName rootNode functionName = Return None
  | _ :: _ => throws (findFunctionNode childForFieldName rootNode functionName)
  end
  /\ throws (extractFacts childForFieldName cachedNodes functionNode)
  /\ analyzeFunction childForFieldName cachedNodes setLanguage parse getContent change
     = match getLanguageFromPath (DiffParser.filePath change) with
       | None => Return (createBasicAnalysis change)
       | Some language =>
           match setLanguage language with
           | Return _ => Return (createBasicAnalysis change)
           | Throw e => Throw e
           end
       end.
Proof.
  intros Hfield.
  split; [apply findFunctionNode_fieldless; exact Hfield|].
  split; [apply extractFacts_throws; exact Hfield|].
  apply analyzeFunction_fieldless; exact Hfield.
Qed.

(** X9. With such a binding [extractAST] returns the degraded analyses of
    the changes whose file has no grammar or a grammar that [setLanguage]
    takes, in order; a change for which [setLanguage] throws is dropped. *)
Theorem extractAST_accepted (functionChanges : list DiffParser.FunctionChange) :
  fieldless childForFieldName ->
  extractAST childForFieldName cachedNodes setLanguage parse getContent functionChanges
  = map createBasicAnalysis (List.filter (accepted setLanguage) functionChanges).
Proof.
  intros Hfield. unfold extractAST.
  induction functionChanges as [|c cs IH]; cbn [flat_map List.filter]; [reflexivity|].
  rewrite IH, (analyzeFunction_fieldless c Hfield). unfold accepted.
  destruct (getLanguageFromPath (DiffParser.filePath c)) as [language|]; [|reflexivity].
  destruct (setLanguage language); reflexivity.
Qed.

(** X10. A Go, C or C++ source is a code file for the segmenter when its
    path has no test pattern, but the extractor has no grammar for it: its
    functions always get the degraded facts, whatever the file holds. *)
Theorem analyzeFunction_without_grammar (change : DiffParser.FunctionChange) :
  In (Js.extname (DiffParser.filePath change)) [".go"; ".cpp"; ".c"; ".h"] ->
  Forall (fun pattern => Js.includes pattern (DiffParser.filePath change) = false)
    ["test"; "spec"; "Test"; "Spec"] ->
  DiffParser.isCodeFile (DiffParser.filePath change) = true
  /\ analyzeFunction childForFieldName cachedNodes setLanguage parse getContent change
     = Return (createBasicAnalysis change).
Proof.
  intros Hext Htest.
  assert (Hnone : getLanguageFromPath (DiffParser.filePath change) = None).
  { unfold getLanguageFromPath.
    destruct Hext as [<-|[<-|[<-|[<-|[]]]]]; reflexivity. }
  split.
  - unfold DiffParser.isCodeFile. apply andb_true_intro. split.
    + destruct Hext as [<-|[<-|[<-|[<-|[]]]]]; reflexivity.
    + apply negb_true_iff. unfold Js.some. cbn [existsb].
      inversion Htest as [|? ? H1 Htest1]; subst.
      inversion Htest1 as [|? ? H2 Htest2]; subst.
      inversion Htest2 as [|? ? H3 Htest3]; subst.
      inversion Htest3 as [|? ? H4 _]; subst.
      rewrite H1, H2, H3, H4. reflexivity.
  - unfold analyzeFunction. rewrite Hnone.
    unfold getFileContent, tryCatch, bindTry.
    destruct (getContent (DiffParser.filePath change)) as [[content|]|e]; reflexivity.
Qed.
End ExtractorFacts.

Section ExtractorScenario.
Import ASTExtractor.

Lemma fieldless_noSuchMethod : fieldless noSuchMethod.
Proof.
  intros field node. eexists. reflexivity.
Qed.

Lemma analyzeFunction_degraded_witness :
  fieldless noSuchMethod
  /\ throws (findFunctionNode noSuchMethod {| self := addTree; up := None |} "add")
  /\ analyzeFunction noSuchMethod true grammarsOnly (fun _ _ => Return addTree)
       (fun _ => Return (Some "function add(a, b) { return a + b; }"))
       (changeIn "src/add.js")
     = Return (createBasicAnalysis (changeIn "src/add.js")).
Proof.
  split; [exact fieldless_noSuchMethod|].
  destruct (analyzeFunction_degraded noSuchMethod true grammarsOnly
              (fun _ _ => Return addTree)
              (fun _ => Return (Some "function add(a, b) { return a + b; }"))
              {| self := addTree; up := None |} {| self := addTree; up := None |} "add"
              (changeIn "src/add.js") fieldless_noSuchMethod)
    as (Hfind & _ & Hanalysis).
  split; [exact Hfind|exact Hanalysis].
Defined.

Lemma extractAST_accepted_witness :
  fieldless noSuchMethod
  /\ extractAST noSuchMethod true grammarsOnly (fun _ _ => Return addTree)
       (fun _ => Return (Some "function add(a, b) { return a + b; }"))
       [changeIn "src/add.js"; changeIn "src/app.ts"; changeIn "cmd/add.go"]
     = [createBasicAnalysis (changeIn "src/add.js");
        createBasicAnalysis (changeIn "cmd/add.go")].
Proof.
  split; [exact fieldless_noSuchMethod|].
  exact (extractAST_accepted noSuchMethod true grammarsOnly (fun _ _ => Return addTree)
           (fun _ => Return (Some "function add(a, b) { return a + b; }"))
           [changeIn "src/add.js"; changeIn "src/app.ts"; changeIn "cmd/add.go"]
           fieldless_noSuchMethod).
Defined.

Lemma analyzeFunction_without_grammar_witness :
  In (Js.extname (DiffParser.filePath
                    (DiffParser.mkChange "cmd/add.go" "add" "+func add(a, b int) int {" 1
                       "added" [])))
     [".go"; ".cpp"; ".c"; ".h"]
  /\ DiffParser.isCodeFile "cmd/add.go" = true
  /\ analyzeFunction noSuchMethod true grammarsOnly (fun _ _ => Throw "unused")
       (fun _ => Return (Some "package main"))
       (DiffParser.mkChange "cmd/add.go" "add" "+func add(a, b int) int {" 1 "added" [])
     = Return (createBasicAnalysis
                 (DiffParser.mkChange "cmd/add.go" "add" "+func add(a, b int) int {" 1
                    "added" [])).
Proof.
  assert (Hext : In (Js.extname
                       (DiffParser.filePath
                          (DiffParser.mkChange "cmd/add.go" "add"
                             "+func add(a, b int) int {" 1 "added" [])))
                    [".go"; ".cpp"; ".c"; ".h"]) by (left; reflexivity).
  split; [exact Hext|].
  apply (analyzeFunction_without_grammar noSuchMethod true grammarsOnly
           (fun _ _ => Throw "unused") (fun _ => Return (Some "package main")) _ Hext).
  repeat constructor.
Defined.
End ExtractorScenario.

Section ExtractorDepth.
Import ASTExtractor.

Lemma calculateMaxDepth_unfold (ty tx : string) (row : nat)
      (cs : list (option string * SyntaxNode)) (currentDepth : nat) :
  calculateMaxDepth (Node ty tx row cs) currentDepth = deepest currentDepth cs currentDepth.
Proof.
  cbn [calculateMaxDepth]. generalize currentDepth at 2 4 as maxDepth.
  induction cs as [|[f c] cs IH]; intros maxDepth; [reflexivity|].
  cbn [deepest]. apply IH.
Qed.

Lemma deepest_tallest (currentDepth : nat) (cs : list (option string * SyntaxNode)) :
  Forall (fun fc => forall d, calculateMaxDepth (snd fc) d = (d + height (snd fc))%nat) cs ->
  forall maxDepth,
    (currentDepth <= maxDepth)%nat ->
    deepest currentDepth cs maxDepth = Nat.max maxDepth (currentDepth + tallest cs).
Proof.
  induction 1 as [|[f c] cs Hc _ IH]; intros maxDepth Hle; cbn [deepest tallest].
  - lia.
  - cbn [snd] in Hc. rewrite Hc, IH by lia. lia.
Qed.

(** X11. The maximum depth that [calculateMaxDepth] returns for a node
    entered at a depth is that depth plus the height of the tree under the
    node. *)
Theorem calculateMaxDepth_height (node : SyntaxNode) (currentDepth : nat) :
  calculateMaxDepth node currentDepth = (currentDepth + height node)%nat.
Proof.
  revert currentDepth.
  induction node as [ty tx row cs IH] using SyntaxNode_induction. intros d.
  rewrite calculateMaxDepth_unfold, height_unfold, (deepest_tallest d cs IH) by lia.
  lia.
Qed.

Variable childForFieldName : string -> NodeRef -> Try (option NodeRef).
Variable cachedNodes : bool.

Lemma getReturnValue_throws (returnNode : NodeRef) :
  fieldless childForFieldName -> throws (getReturnValue childForFieldName returnNode).
Proof.
  intros Hfield. unfold getReturnValue. apply bindTry_throws, orNode_throws, Hfield.
Qed.

Lemma extractEarlyReturns_reported (functionNode : NodeRef) :
  fieldless childForFieldName ->
  match List.filter (notLast cachedNodes) (findNodesByType functionNode ["return_statement"])
  with
  | [] => extractEarlyReturns childForFieldName cachedNodes functionNode = Return []
  | _ :: _ => throws (extractEarlyReturns childForFieldName cachedNodes functionNode)
  end.
Proof.
  intros Hfield. unfold extractEarlyReturns. apply mapTry_throws.
  intros returnStmt. apply bindTry_throws, getReturnValue_throws, Hfield.
Qed.

Lemma extractConditionalGuards_reported (functionNode : NodeRef) :
  fieldless childForFieldName ->
  match findNodesByType functionNode ["if_statement"] with
  | [] => extractConditionalGuards childForFieldName functionNode = Return []
  | _ :: _ => throws (extractConditionalGuards childForFieldName functionNode)
  end.
Proof.
  intros Hfield. unfold extractConditionalGuards.
  pose proof (mapTry_throws
                (fun ifStmt =>
                   let! condition := childForFieldName "condition" ifStmt in
                   Return match condition with
                          | Some c => [{| stmtType := "if"; condition := textOf (self c);
                                          lineNumber := rowOf (self c) |}]
                          | None => []
                          end)
                (findNodesByType functionNode ["if_statement"])) as Hloop.
  destruct (findNodesByType functionNode ["if_statement"]).
  - rewrite Hloop; [reflexivity|]. intros x. apply bindTry_throws, Hfield.
  - apply bindTry_throws, Hloop. intros x. apply bindTry_throws, Hfield.
Qed.

Lemma extractLoops_reported (functionNode : NodeRef) :
  fieldless childForFieldName ->
  match nodesOfTypes functionNode loopTypes with
  | [] => extractLoops childForFieldName functionNode = Return []
  | _ :: _ => throws (extractLoops childForFieldName functionNode)
  end.
Proof.
  intros Hfield. unfold extractLoops. fold loopTypes. apply mapTry_throws.
  intros [loopType loop]. unfold getLoopCondition.
  apply bindTry_throws, bindTry_throws, orNode_throws, Hfield.
Qed.

(** X12. With a binding whose nodes have no [childForFieldName] no early
    return is ever reported: [extractEarlyReturns] returns the empty list
    when no return statement under the node passes the test of the
    siblings, and throws otherwise, in [getReturnValue].  Guards and loops
    go the same way, so that [calculateComplexity] returns 1 for a node
    without an if statement, a loop and such a return, and throws for every
    other node. *)
Theorem extractEarlyReturns_never_reports (functionNode : NodeRef) :
  fieldless childForFieldName ->
  match List.filter (notLast cachedNodes) (findNodesByType functionNode ["return_statement"])
  with
  | [] => extractEarlyReturns childForFieldName cachedNodes functionNode = Return []
  | _ :: _ => throws (extractEarlyReturns childForFieldName cachedNodes functionNode)
  end
  /\ match findNodesByType functionNode ["if_statement"],
           nodesOfTypes functionNode loopTypes,
           List.filter (notLast cachedNodes)
             (findNodesByType functionNode ["return_statement"])
     with
     | [], [], [] =>
         calculateComplexity childForFieldName cachedNodes functionNode = Return 1%Z
     | _, _, _ => throws (calculateComplexity childForFieldName cachedNodes functionNode)
     end.
Proof.
  intros Hfield.
  pose proof (extractEarlyReturns_reported functionNode Hfield) as Hreturns.
  pose proof (extractConditionalGuards_reported functionNode Hfield) as Hguards.
  pose proof (extractLoops_reported functionNode Hfield) as Hloops.
  split; [exact Hreturns|]. unfold calculateComplexity.
  destruct (findNodesByType functionNode ["if_statement"]);
    [rewrite Hguards; cbn [bindTry]|destruct Hguards as [e ->]; eexists; reflexivity].
  destruct (nodesOfTypes functionNode loopTypes);
    [rewrite Hloops; cbn [bindTry]|destruct Hloops as [e ->]; eexists; reflexivity].
  destruct (List.filter _ _);
    [rewrite Hreturns; reflexivity|destruct Hreturns as [e ->]; eexists; reflexivity].
Qed.
End ExtractorDepth.

Section ExtractorDepthScenario.
Import ASTExtractor.

Lemma extractEarlyReturns_never_reports_witness :
  fieldless noSuchMethod
  /\ throws (extractEarlyReturns noSuchMethod true earlyTree)
  /\ throws (calculateComplexity noSuchMethod true earlyTree).
Proof.
  split; [exact fieldless_noSuchMethod|].
  exact (extractEarlyReturns_never_reports noSuchMethod true earlyTree
           fieldless_noSuchMethod).
Defined.
End ExtractorDepthScenario.

(** ** More on the synthesizer *)

Section FallbackSizes.
Import LLMClient.

Lemma flat_map_filter_length {A B} (f : A -> list B) (p : A -> bool) (xs : list A) :
  (forall x, length (f x) = if p x then 1%nat else 0%nat) ->
  length (flat_map f xs) = length (List.filter p xs).
Proof.
  intros Hf. induction xs as [|x xs IH]; cbn [flat_map List.filter]; [reflexivity|].
  rewrite length_app, Hf, IH. destruct (p x); reflexivity.
Qed.

Lemma inputPreconditions_length (input : Input) :
  (length (inputPreconditions input) <= 2)%nat.
Proof.
  unfold inputPreconditions. rewrite length_app.
  destruct (type input) as [t|]; [destruct (_ && _)|];
    destruct (required input) as [[|]|]; simpl; lia.
Qed.

Lemma orPlaceholder_max (xs : list string) (placeholder : string) :
  length (orPlaceholder xs placeholder) = Nat.max 1 (length xs).
Proof. unfold orPlaceholder. destruct xs; simpl; lia. Qed.

(** X13. The sizes of the lists of the fallback: always exactly one
    invariant; one postcondition for every early return with a value, equal
    values included, and one placeholder when there is none; one edge case
    for every guard, two more when there are parameters, and one placeholder
    when there are neither; at most two preconditions for a parameter. *)
Theorem generateMockSpec_sizes (context : Context) :
  let inputs := orDefault (inputTypes context) [] in
  let guards := orDefault (conditionalGuards context) [] in
  let returns := orDefault (earlyReturns context) [] in
  length (invariants (generateMockSpec context)) = 1%nat
  /\ length (postconditions (generateMockSpec context))
     = Nat.max 1 (length (List.filter hasValue returns))
  /\ length (edgeCases (generateMockSpec context))
     = match inputs with
       | [] => Nat.max 1 (length guards)
       | _ :: _ => (length guards + 2)%nat
       end
  /\ (length (preconditions (generateMockSpec context))
      <= Nat.max 1 (2 * length inputs))%nat.
Proof.
  cbv zeta. unfold generateMockSpec.
  cbn [invariants postconditions edgeCases preconditions].
  rewrite !strings_length, !orPlaceholder_max. split; [|split; [|split]].
  - destruct (5 <? _)%Z; reflexivity.
  - f_equal. apply flat_map_filter_length. intros r. unfold returnPostconditions, hasValue.
    destruct (value r) as [v|]; [destruct (Js.truthy v)|]; reflexivity.
  - rewrite length_app, length_map.
    destruct (orDefault (inputTypes context) []) as [|input inputs]; simpl; lia.
  - assert (H : (length (flat_map inputPreconditions (orDefault (inputTypes context) []))
                 <= 2 * length (orDefault (inputTypes context) []))%nat).
    { induction (orDefault (inputTypes context) []) as [|input inputs IH];
        cbn [flat_map length]; [lia|].
      rewrite length_app. pose proof (inputPreconditions_length input). lia. }
    lia.
Qed.

(** X14. [parseLLMResponse] never throws, and it rejects a response in
    which one of the five required fields is missing or falsy: a response
    that announces the confidence 0 is replaced by the fallback of the empty
    context, with the confidence 85. *)
Theorem parseLLMResponse_rejects
        (JSON_parse : string -> Try json) (response text : string)
        (fields : list (string * json)) (field : string) :
  jsonMatch response = Some text ->
  JSON_parse text = Return (JObj fields) ->
  In field requiredFields ->
  (lookup field fields = None \/ lookup field fields = Some JNull
   \/ lookup field fields = Some (JBool false) \/ lookup field fields = Some (JNum 0)
   \/ lookup field fields = Some (JStr "")) ->
  parseLLMResponse JSON_parse response = Return (generateMockSpec emptyContext)
  /\ confidence (generateMockSpec emptyContext) = 85%Z
  /\ forall other, exists spec, parseLLMResponse JSON_parse other = Return spec.
Proof.
  intros Hm Hp Hfield Hfalsy.
  assert (Hpresent : present fields field = false).
  { unfold present. destruct Hfalsy as [-> | [-> | [-> | [-> | ->]]]]; reflexivity. }
  split; [|split; [reflexivity|intros other; apply parseLLMResponse_returns]].
  unfold parseLLMResponse, decode. rewrite Hm, Hp. cbn [bindTry].
  assert (Hmissing : (length (List.filter (fun f => negb (present fields f)) requiredFields)
                      =? 0)%nat = false).
  { apply Nat.eqb_neq. intros Hlen. apply none_missing in Hlen.
    rewrite forallb_forall in Hlen. rewrite (Hlen field Hfield) in Hpresent.
    discriminate Hpresent. }
  rewrite Hmissing. reflexivity.
Qed.

Lemma parseLLMResponse_rejects_witness :
  jsonMatch zeroText = Some zeroText
  /\ parseMore zeroText = Return (JObj zeroFields)
  /\ In "confidence" requiredFields
  /\ lookup "confidence" zeroFields = Some (JNum 0)
  /\ parseLLMResponse parseMore zeroText = Return (generateMockSpec emptyContext).
Proof.
  assert (Hm : jsonMatch zeroText = Some zeroText) by (vm_compute; reflexivity).
  assert (Hp : parseMore zeroText = Return (JObj zeroFields)) by (vm_compute; reflexivity).
  assert (Hin : In "confidence" requiredFields) by (simpl; tauto).
  split; [exact Hm|]. split; [exact Hp|]. split; [exact Hin|]. split; [reflexivity|].
  apply (parseLLMResponse_rejects parseMore zeroText zeroText zeroFields "confidence"
           Hm Hp Hin).
  right. right. right. left. reflexivity.
Defined.

Lemma decode_complete (JSON_parse : string -> Try json) (response text : string)
      (fields : list (string * json)) :
  jsonMatch response = Some text ->
  JSON_parse text = Return (JObj fields) ->
  forallb (present fields) requiredFields = true ->
  parseLLMResponse JSON_parse response = Return (specOfFields fields).
Proof.
  intros Hm Hp Hall. unfold parseLLMResponse, decode. rewrite Hm, Hp. cbn [bindTry].
  cbn [requiredFields forallb] in Hall.
  repeat (apply andb_prop in Hall; destruct Hall as [?H Hall]).
  cbn [requiredFields List.filter].
  repeat match goal with H : present _ _ = true |- _ => rewrite H; clear H end.
  reflexivity.
Qed.

(** X15. In an accepted response each of the four required lists,
    preconditions, postconditions, invariants and edge cases, is taken over
    as it is when it is an array, the empty array included, and replaced by
    the empty list without notice when it is anything else, a text for
    instance. *)
Theorem parseLLMResponse_not_array
        (JSON_parse : string -> Try json) (response text : string)
        (fields : list (string * json)) (field : string) (v : json) :
  jsonMatch response = Some text ->
  JSON_parse text = Return (JObj fields) ->
  forallb (present fields) requiredFields = true ->
  In field ["preconditions"; "postconditions"; "invariants"; "edgeCases"] ->
  lookup field fields = Some v ->
  exists spec,
    parseLLMResponse JSON_parse response = Return spec
    /\ listField field spec = match v with JArr items => items | _ => [] end.
Proof.
  intros Hm Hp Hall Hfield Hv. exists (specOfFields fields).
  split; [apply (decode_complete _ _ text); assumption|].
  destruct Hfield as [<-|[<-|[<-|[<-|[]]]]];
    unfold listField, specOfFields; cbn; rewrite Hv; destruct v; reflexivity.
Qed.

Lemma parseLLMResponse_not_array_witness :
  jsonMatch proseText = Some proseText
  /\ parseMore proseText = Return (JObj proseFields)
  /\ forallb (present proseFields) requiredFields = true
  /\ lookup "preconditions" proseFields = Some (JStr "x > 0")
  /\ lookup "invariants" proseFields = Some (JArr [])
  /\ (exists spec,
         parseLLMResponse parseMore proseText = Return spec
         /\ listField "preconditions" spec = [])
  /\ (exists spec,
         parseLLMResponse parseMore proseText = Return spec
         /\ listField "invariants" spec = []).
Proof.
  assert (Hm : jsonMatch proseText = Some proseText) by (vm_compute; reflexivity).
  assert (Hp : parseMore proseText = Return (JObj proseFields)) by (vm_compute; reflexivity).
  assert (Hall : forallb (present proseFields) requiredFields = true) by reflexivity.
  split; [exact Hm|]. split; [exact Hp|]. split; [exact Hall|]. split; [reflexivity|].
  split; [reflexivity|]. split.
  - apply (parseLLMResponse_not_array parseMore proseText proseText proseFields
             "preconditions" (JStr "x > 0") Hm Hp Hall); [simpl; tauto|reflexivity].
  - apply (parseLLMResponse_not_array parseMore proseText proseText proseFields
             "invariants" (JArr []) Hm Hp Hall); [simpl; tauto|reflexivity].
Defined.
End FallbackSizes.

(** ** More on the cache of the synthesizer *)

Section CacheBatch.
Import SpecAnalyzer.

Variable JSON_parse : string -> Try LLMClient.json.
Variable complete : LLMClient.Backend -> LLMClient.Context -> LLMClient.Calls -> Try string.
Variable clients : LLMClient.Clients.

Lemma generateSpec_calls (context : LLMClient.Context) (calls : LLMClient.Calls) :
  exists spec sent,
    LLMClient.generateSpec JSON_parse complete clients context calls
    = (Return spec, calls ++ sent)
    /\ (length sent <= 1)%nat.
Proof.
  assert (Hwith : forall backend,
             exists spec sent,
               catch (LLMClient.generateWith JSON_parse complete backend context)
                 (fun _ => ret (LLMClient.generateMockSpec context)) calls
               = (Return spec, calls ++ sent)
               /\ (length sent <= 1)%nat).
  { intros backend. unfold catch. rewrite generateWith_run.
    destruct (complete backend context calls) as [content|e].
    - destruct (parseLLMResponse_returns JSON_parse content) as [spec ->].
      exists spec, [(backend, context)]. split; [reflexivity|simpl; lia].
    - exists (LLMClient.generateMockSpec context), [(backend, context)].
      split; [reflexivity|simpl; lia]. }
  unfold LLMClient.generateSpec, LLMClient.generateWithOpenAI,
    LLMClient.generateWithAnthropic.
  destruct (LLMClient.openai clients); [apply Hwith|].
  destruct (LLMClient.anthropic clients); [apply Hwith|].
  exists (LLMClient.generateMockSpec context), []. rewrite app_nil_r.
  split; [reflexivity|simpl; lia].
Qed.

(** One request to the analyzer: it returns, stores its answer under the
    key, keeps what the cache holds and sends one request at most. *)
Lemma generateSpecSuggestion_step (analysis : ASTExtractor.Analysis) (st : State) :
  exists suggestion st',
    generateSpecSuggestion JSON_parse complete clients analysis st = (Return suggestion, st')
    /\ specCache st' !! cacheKey analysis = Some suggestion
    /\ (forall k v, specCache st !! k = Some v -> specCache st' !! k = Some v)
    /\ (length (calls st) <= length (calls st') <= length (calls st) + 1)%nat.
Proof.
  unfold generateSpecSuggestion.
  destruct (specCache st !! cacheKey analysis) as [cached|] eqn:Hcache.
  - exists cached, st. split; [reflexivity|]. split; [exact Hcache|].
    split; [intros k v Hk; exact Hk|lia].
  - unfold bind, callLLM, cacheSet, ret.
    destruct (generateSpec_calls (prepareLLMContext analysis) (calls st))
      as (spec & sent & -> & Hsent).
    do 2 eexists. split; [reflexivity|]. cbn [specCache calls].
    split; [apply lookup_insert_eq|]. split.
    + intros k v Hk. rewrite lookup_insert_ne; [exact Hk|]. congruence.
    + rewrite length_app. lia.
Qed.

Lemma specCache_persistent_lemma
      (astAnalysis : list ASTExtractor.Analysis) (st : State)
      (key : string) (suggestion : Suggestion) :
  specCache st !! key = Some suggestion ->
  specCache (snd (analyzeChanges JSON_parse complete clients astAnalysis st)) !! key
  = Some suggestion.
Proof.
  revert st. induction astAnalysis as [|analysis rest IH]; intros st Hkey;
    cbn [analyzeChanges]; [exact Hkey|].
  destruct (generateSpecSuggestion_step analysis st) as (s & st' & -> & _ & Hkeep & _).
  specialize (IH st' (Hkeep key suggestion Hkey)).
  destruct (analyzeChanges JSON_parse complete clients rest st'). exact IH.
Qed.

(** X16. An entry of the cache is never replaced or removed: whatever
    analyses follow, also of a function whose body has changed, the key
    keeps the suggestion that was stored first, and a later request for the
    key returns it. *)
Theorem specCache_persistent
        (astAnalysis : list ASTExtractor.Analysis) (st : State)
        (later : ASTExtractor.Analysis) (suggestion : Suggestion) :
  specCache st !! cacheKey later = Some suggestion ->
  let st' := snd (analyzeChanges JSON_parse complete clients astAnalysis st) in
  specCache st' !! cacheKey later = Some suggestion
  /\ generateSpecSuggestion JSON_parse complete clients later st' = (Return suggestion, st').
Proof.
  intros Hkey st'.
  assert (H : specCache st' !! cacheKey later = Some suggestion)
    by (apply specCache_persistent_lemma; exact Hkey).
  split; [exact H|]. unfold generateSpecSuggestion. rewrite H. reflexivity.
Qed.

(** X17. [analyzeChanges] returns one suggestion for every analysis, in
    order; afterwards the cache holds each of them under the key of its
    analysis, and at most one request per analysis has been sent. *)
Theorem analyzeChanges_batch (astAnalysis : list ASTExtractor.Analysis) (st : State) :
  let outcome := analyzeChanges JSON_parse complete clients astAnalysis st in
  length (fst outcome) = length astAnalysis
  /\ Forall2 (fun analysis suggestion =>
                specCache (snd outcome) !! cacheKey analysis = Some suggestion)
       astAnalysis (fst outcome)
  /\ (length (calls st) <= length (calls (snd outcome))
      <= length (calls st) + length astAnalysis)%nat.
Proof.
  cbv zeta. revert st. induction astAnalysis as [|analysis rest IH]; intros st;
    cbn [analyzeChanges].
  - cbn [fst snd length]. split; [reflexivity|]. split; [constructor|lia].
  - destruct (generateSpecSuggestion_step analysis st)
      as (s & st' & Hrun & Hstored & _ & Hcalls).
    rewrite Hrun.
    pose proof (IH st') as (Hlen & Hall & Hsent).
    pose proof (specCache_persistent_lemma rest st' (cacheKey analysis) s Hstored) as Hlater.
    destruct (analyzeChanges JSON_parse complete clients rest st') as [suggestions st''].
    cbn [fst snd length] in *. split; [lia|]. split; [|lia].
    constructor; assumption.
Qed.
End CacheBatch.

Section CacheKeys.
Import SpecAnalyzer.

Lemma specCache_persistent_witness :
  specCache cachedState !! cacheKey (analysisOf "+function add(a,b){return b+a;}")
  = Some (suggestionOf (analysisOf hunkB)
            (LLMClient.generateMockSpec LLMClient.emptyContext))
  /\ generateSpecSuggestion parseKnown servicesE bothClients
       (analysisOf "+function add(a,b){return b+a;}")
       (snd (analyzeChanges parseKnown servicesE bothClients
               [analysisAt "src/sub.js" "sub"; analysisOf hunkB] cachedState))
     = (Return (suggestionOf (analysisOf hunkB)
                  (LLMClient.generateMockSpec LLMClient.emptyContext)),
        snd (analyzeChanges parseKnown servicesE bothClients
               [analysisAt "src/sub.js" "sub"; analysisOf hunkB] cachedState)).
Proof.
  assert (Hkey : specCache cachedState
                   !! cacheKey (analysisOf "+function add(a,b){return b+a;}")
                 = Some (suggestionOf (analysisOf hunkB)
                           (LLMClient.generateMockSpec LLMClient.emptyContext)))
    by apply lookup_insert_eq.
  split; [exact Hkey|].
  exact (proj2 (specCache_persistent parseKnown servicesE bothClients
                  [analysisAt "src/sub.js" "sub"; analysisOf hunkB] cachedState
                  (analysisOf "+function add(a,b){return b+a;}") _ Hkey)).
Defined.

Lemma free_append (sep : ascii) (a b : string) : ~ free sep (a +:+ String sep b).
Proof.
  induction a as [|x a IH]; [rewrite append_empty_l|rewrite append_cons];
    cbn [free]; intros [Hne Hfree]; [congruence|exact (IH Hfree)].
Qed.

Lemma colon_split (p1 p2 f1 f2 : string) :
  free ":" f1 -> free ":" f2 ->
  p1 +:+ ":" +:+ f1 = p2 +:+ ":" +:+ f2 ->
  p1 = p2 /\ f1 = f2.
Proof.
  intros Hf1 Hf2.
  change (":" +:+ f1) with (String ":" f1). change (":" +:+ f2) with (String ":" f2).
  revert p2.
  induction p1 as [|x p1 IH]; intros [|y p2];
    rewrite ?append_empty_l, ?append_cons; intros Heq.
  - injection Heq as ->. split; reflexivity.
  - injection Heq as <- ->. exfalso. exact (free_append _ _ _ Hf1).
  - injection Heq as -> <-. exfalso. exact (free_append _ _ _ Hf2).
  - injection Heq as -> Heq. destruct (IH p2 Heq) as [-> ->]. split; reflexivity.
Qed.

(** X18. Two analyses with the same cache key are of the same function of
    the same file, provided the function names contain no colon; with a
    colon in a name the key confuses two functions. *)
Theorem cacheKey_injective (first second : ASTExtractor.Analysis) :
  free ":" (nameOf first) -> free ":" (nameOf second) ->
  cacheKey first = cacheKey second ->
  (pathOf first = pathOf second /\ nameOf first = nameOf second)
  /\ forall path a b,
      cacheKey (analysisAt (path +:+ ":" +:+ a) b) = cacheKey (analysisAt path (a +:+ ":" +:+ b)).
Proof.
  intros H1 H2 Hkey. split.
  - unfold cacheKey in Hkey. apply (colon_split _ _ _ _ H1 H2 Hkey).
  - intros path a b. unfold cacheKey, analysisAt.
    cbn [ASTExtractor.change ASTExtractor.createBasicAnalysis DiffParser.filePath
           DiffParser.functionName].
    rewrite !append_assoc. reflexivity.
Qed.

Lemma cacheKey_injective_witness :
  free ":" (nameOf (analysisOf hunkB))
  /\ cacheKey (analysisOf hunkB) = cacheKey (analysisOf "+function add(a,b){return b+a;}")
  /\ pathOf (analysisOf hunkB) = pathOf (analysisOf "+function add(a,b){return b+a;}")
  /\ nameOf (analysisOf hunkB) = nameOf (analysisOf "+function add(a,b){return b+a;}").
Proof.
  assert (Hfree : free ":" (nameOf (analysisOf hunkB)))
    by (cbn; repeat split; discriminate).
  split; [exact Hfree|]. split; [reflexivity|].
  exact (proj1 (cacheKey_injective (analysisOf hunkB)
                  (analysisOf "+function add(a,b){return b+a;}") Hfree Hfree eq_refl)).
Defined.
End CacheKeys.

Section StoredSpecs.
Import SpecCoverage SpecFiles.
Variable readdir : string -> Try (list string).
Variable readFile : string -> Try string.
Variable pathJoin : string -> string -> string.
Variable specsDir : string.

Lemma firstSpec_parsed (functionName : string) (specFiles : list string)
      (spec : ExistingSpec) :
  firstSpec readFile functionName specFiles = Some spec ->
  exists file content,
    In file specFiles /\ readFile file = Return content
    /\ Js.includes ("Function: " +:+ functionName) content = true
    /\ spec = parseSpecFile content.
Proof.
  induction specFiles as [|specFile rest IH]; cbn [firstSpec]; [discriminate|].
  destruct (readFile specFile) as [content|e] eqn:Hread.
  - destruct (Js.includes ("Function: " +:+ functionName) content) eqn:Hinc.
    + intros [= <-]. exists specFile, content.
      split; [left; reflexivity|]. split; [exact Hread|]. split; [exact Hinc|reflexivity].
    + intros H. destruct (IH H) as (file & c & Hin & Hrest).
      exists file, c. split; [right; exact Hin|exact Hrest].
  - intros H. destruct (IH H) as (file & c & Hin & Hrest).
    exists file, c. split; [right; exact Hin|exact Hrest].
Qed.

Lemma analyzeFunctionDrift_parsed (find : string -> option ExistingSpec)
      (functionData : DiffParser.FunctionChange) (content : string) :
  find (DiffParser.functionName functionData) = Some (parseSpecFile content) ->
  analyzeFunctionDrift find functionData
  = validationDrift functionData (parseSpecFile content).
Proof.
  intros Hfind. unfold analyzeFunctionDrift. rewrite Hfind. reflexivity.
Qed.

(** X19. A function whose specification is found in a specification file
    is always reported as drifted, whatever its body: the record read from a
    file has neither a complexity nor a validation flag, so the only reason
    is the validation reason and the confidence is 25. *)
Theorem analyzeFunctionDrift_stored
        (functionData : DiffParser.FunctionChange) (spec : ExistingSpec) :
  findExistingSpec readdir readFile pathJoin specsDir
    (DiffParser.functionName functionData) = Some spec ->
  analyzeFunctionDrift (findExistingSpec readdir readFile pathJoin specsDir) functionData
  = validationDrift functionData spec
  /\ specComplexity spec = None /\ specHasValidation spec = None.
Proof.
  intros Hfind.
  destruct (firstSpec_parsed _ _ _ Hfind) as (file & content & _ & _ & _ & ->).
  split; [apply analyzeFunctionDrift_parsed; exact Hfind|]. split; reflexivity.
Qed.

(** X20. The drift detector reports exactly the changed functions for
    which a specification file is found, in order, each with the
    validation reason. *)
Theorem detectDrift_stored (changedFunctions : list DiffParser.FunctionChange) :
  let find := findExistingSpec readdir readFile pathJoin specsDir in
  detectDrift readdir readFile pathJoin specsDir changedFunctions
  = map (analyzeFunctionDrift find) (List.filter (stored find) changedFunctions)
  /\ Forall (fun result => resultHasDrift result = true
                           /\ driftDetails result = Some ["Input validation patterns changed"])
       (detectDrift readdir readFile pathJoin specsDir changedFunctions).
Proof.
  intros find.
  assert (Hstep : forall func,
             (stored find func = true
              /\ resultHasDrift (analyzeFunctionDrift find func) = true
              /\ driftDetails (analyzeFunctionDrift find func)
                 = Some ["Input validation patterns changed"])
             \/ (stored find func = false
                 /\ resultHasDrift (analyzeFunctionDrift find func) = false)).
  { intros func. unfold stored.
    destruct (find (DiffParser.functionName func)) as [spec|] eqn:Hfind.
    - left. destruct (firstSpec_parsed _ _ _ Hfind) as (file & content & _ & _ & _ & ->).
      rewrite (analyzeFunctionDrift_parsed find func content Hfind).
      split; [reflexivity|]. split; reflexivity.
    - right. unfold analyzeFunctionDrift. rewrite Hfind. split; reflexivity. }
  unfold detectDrift. fold find.
  induction changedFunctions as [|func rest [IHeq IHall]]; [split; [reflexivity|constructor]|].
  cbn [flat_map List.filter].
  destruct (Hstep func) as [(Hstored & Hdrift & Hdetails)|(Hstored & Hdrift)];
    rewrite Hstored, Hdrift; cbn [app map].
  - split; [f_equal; exact IHeq|]. constructor; [split; assumption|exact IHall].
  - split; [exact IHeq|exact IHall].
Qed.

Lemma prefix_append (a b s : string) :
  String.prefix (a +:+ b) s = true -> String.prefix a s = true.
Proof.
  revert s. induction a as [|x a IH]; intros s; [destruct s; reflexivity|].
  rewrite append_cons. destruct s as [|y s]; cbn [String.prefix]; [discriminate|].
  destruct (ascii_dec x y); [apply IH|discriminate].
Qed.

Lemma includes_append (a b s : string) :
  Js.includes (a +:+ b) s = true -> Js.includes a s = true.
Proof.
  induction s as [|y s IH]; cbn [Js.includes]; rewrite !Bool.orb_true_iff.
  - intros [H|H]; [left; exact (prefix_append _ _ _ H)|discriminate].
  - intros [H|H]; [left; exact (prefix_append _ _ _ H)|right; exact (IH H)].
Qed.

Lemma firstSpec_prefix (name suffix : string) (specFiles : list string)
      (spec : ExistingSpec) :
  firstSpec readFile (name +:+ suffix) specFiles = Some spec ->
  exists other, firstSpec readFile name specFiles = Some other.
Proof.
  induction specFiles as [|specFile rest IH]; cbn [firstSpec]; [discriminate|].
  destruct (readFile specFile) as [content|e]; [|exact IH].
  destruct (Js.includes ("Function: " +:+ name +:+ suffix) content) eqn:Hlong.
  - intros _. rewrite <- append_assoc in Hlong.
    rewrite (includes_append _ _ _ Hlong). eexists; reflexivity.
  - intros H. destruct (Js.includes ("Function: " +:+ name) content);
      [eexists; reflexivity|exact (IH H)].
Qed.

(** X21. The search for a stored specification looks for the text
    [Function: name] anywhere in a file, so a function whose name starts
    the name of a function with a specification finds a specification
    too. *)
Theorem findExistingSpec_prefix (name suffix : string) (spec : ExistingSpec) :
  findExistingSpec readdir readFile pathJoin specsDir (name +:+ suffix) = Some spec ->
  exists other, findExistingSpec readdir readFile pathJoin specsDir name = Some other.
Proof.
  unfold findExistingSpec. apply firstSpec_prefix.
Qed.
End StoredSpecs.

Section StoredScenario.
Import SpecCoverage SpecFiles.

Lemma analyzeFunctionDrift_stored_witness :
  findExistingSpec storedDir storedFile slashJoin "specs"
    (DiffParser.functionName changeAdd) = Some (parseSpecFile storedAddress)
  /\ analyzeFunctionDrift (findExistingSpec storedDir storedFile slashJoin "specs") changeAdd
     = validationDrift changeAdd (parseSpecFile storedAddress).
Proof.
  assert (Hfind : findExistingSpec storedDir storedFile slashJoin "specs"
                    (DiffParser.functionName changeAdd) = Some (parseSpecFile storedAddress))
    by (vm_compute; reflexivity).
  split; [exact Hfind|].
  exact (proj1 (analyzeFunctionDrift_stored storedDir storedFile slashJoin "specs"
                  changeAdd (parseSpecFile storedAddress) Hfind)).
Defined.

Lemma findExistingSpec_prefix_witness :
  findExistingSpec storedDir storedFile slashJoin "specs" ("add" +:+ "ress")
  = Some (parseSpecFile storedAddress)
  /\ exists other, findExistingSpec storedDir storedFile slashJoin "specs" "add" = Some other.
Proof.
  assert (Hfind : findExistingSpec storedDir storedFile slashJoin "specs" ("add" +:+ "ress")
                  = Some (parseSpecFile storedAddress))
    by (vm_compute; reflexivity).
  split; [exact Hfind|].
  exact (findExistingSpec_prefix storedDir storedFile slashJoin "specs" "add" "ress"
           (parseSpecFile storedAddress) Hfind).
Defined.
End StoredScenario.

Section StoredPredicates.
Import SpecCoverage SpecFiles.

Lemma parsePredicates_clean (predicateString : string) :
  Forall (fun p => p <> "" /\ Js.includes "sorry" p = false)
    (parsePredicates predicateString).
Proof.
  unfold parsePredicates. generalize (split "∧" 0 predicateString) as parts.
  induction parts as [|part parts IH]; cbn [flat_map]; [constructor|].
  destruct (Js.truthy (trim part) && negb (Js.includes "sorry" (trim part))) eqn:Hkeep;
    cbn [app]; [|exact IH].
  apply andb_prop in Hkeep as [Htruthy Hsorry].
  constructor; [|exact IH]. split.
  - intros Hempty. rewrite Hempty in Htruthy. discriminate.
  - apply Bool.negb_true_iff. exact Hsorry.
Qed.

(** X22. No precondition read from a specification file is empty or
    mentions [sorry], whatever the file holds. *)
Theorem parseSpecFile_predicates (content : string) :
  Forall (fun p => p <> "" /\ Js.includes "sorry" p = false)
    (preconditions (parseSpecFile content)).
Proof.
  unfold parseSpecFile. cbn [preconditions].
  destruct (Regex.exec _ content) as [theoremMatch|]; [|constructor].
  destruct (Regex.exec _ (Regex.ref 1 theoremMatch)) as [precondMatch|]; [|constructor].
  apply parsePredicates_clean.
Qed.

(** X23. The fingerprint of a body has a complexity of at least 1 and at
    least one line, also for the empty body and for a body whose only
    [return] is the final one. *)
Theorem analyzeCurrentImplementation_positive (functionBody : string) :
  (1 <= complexity (analyzeCurrentImplementation functionBody))%Z
  /\ (1 <= lines (analyzeCurrentImplementation functionBody))%nat.
Proof.
  split.
  - unfold analyzeCurrentImplementation, calculateComplexity. cbn [complexity].
    destruct (0 <? _)%nat eqn:Hreturns; [apply Nat.ltb_lt in Hreturns|]; lia.
  - unfold analyzeCurrentImplementation, Js.lines. cbn [lines].
    pose proof (splitOn_nonempty (ascii_of_nat 10) functionBody) as Hne.
    destruct (Js.splitOn (ascii_of_nat 10) functionBody); [congruence|simpl; lia].
Qed.
End StoredPredicates.

Section Identifiers.
Import Regex Lean4Generator.

Lemma drawn_append (p : ascii -> bool) (a b : string) :
  drawn p a -> drawn p b -> drawn p (a +:+ b).
Proof.
  intros Ha Hb. induction a as [|x a IH]; [exact Hb|].
  rewrite append_cons. destruct Ha as [Hx Ha]. split; [exact Hx|exact (IH Ha)].
Qed.

(** A replacement by texts over [p] keeps a string over [p]. *)
Lemma replaceAll_drawn (p : ascii -> bool) (r : regex) (t : string -> caps -> string)
      (s : string) :
  (forall m c, drawn p (t m c)) -> drawn p s -> drawn p (replaceAll r t s).
Proof.
  intros Ht. unfold replaceAll. generalize 0%nat at 1 as pos. generalize 0%nat as skip.
  induction s as [|a s IH]; intros skip pos Hs.
  - destruct skip; cbn [scan]; [|exact I].
    destruct (matchAt r pos "") as [[e c]|]; [|exact I].
    apply drawn_append; [apply Ht|exact I].
  - destruct Hs as [Ha Hs]. destruct skip; cbn [scan]; [|apply IH; exact Hs].
    destruct (matchAt r pos (String a s)) as [[e c]|].
    + apply drawn_append; [apply Ht|].
      destruct (e =? pos)%nat; [split; [exact Ha|]|]; apply IH; exact Hs.
    + split; [exact Ha|apply IH; exact Hs].
Qed.

Lemma replace_notAlnum_drawn (s : string) :
  drawn isWord (replaceAll (Chr notAlnum) (fun _ _ => "_") s).
Proof.
  unfold replaceAll. generalize 0%nat at 1 as pos. generalize 0%nat as skip.
  induction s as [|a s IH]; intros skip pos.
  - destruct skip; cbn [scan]; exact I.
  - destruct skip; cbn [scan]; [|apply IH].
    unfold matchAt. cbn [run]. unfold notAlnum at 1.
    destruct (isWord a) eqn:Hword; cbn [negb].
    + split; [exact Hword|apply IH].
    + rewrite append_cons, append_empty_l. split; [reflexivity|].
      replace (S pos =? pos)%nat with false by (symmetry; apply Nat.eqb_neq; lia).
      apply IH.
Qed.

Lemma lowerChar_identifier (a : ascii) :
  isWord a = true -> identifierChar (Js.lowerChar a) = true.
Proof.
  destruct a as [[] [] [] [] [] [] [] []]; vm_compute; intros H; first [reflexivity|discriminate H].
Qed.

Lemma toLowerCase_identifier (s : string) :
  drawn isWord s -> drawn identifierChar (Js.toLowerCase s).
Proof.
  induction s as [|a s IH]; [intros _; exact I|].
  intros [Ha Hs]. split; [exact (lowerChar_identifier a Ha)|exact (IH Hs)].
Qed.

(** X24. A sanitized name is made of lower-case letters, digits and
    underscores only, whatever the name was, so that it can be spliced into
    a Lean identifier. *)
Theorem sanitizeName_identifier (name : string) :
  drawn identifierChar (sanitizeName name).
Proof.
  unfold sanitizeName. apply toLowerCase_identifier.
  apply replaceAll_drawn; [intros; exact I|].
  apply replaceAll_drawn; [intros; split; [reflexivity|exact I]|].
  apply replace_notAlnum_drawn.
Qed.
End Identifiers.

Section Languages.

(** X25. The extractor and the analyzer read the language off the same
    extension and agree on it: a path with a grammar has the language of
    that grammar in the prompt, and a path without a grammar is C++, C or
    Unknown there; a file that the diff parser takes for code and that is
    Unknown to the analyzer is a Go file or a header. *)
Theorem getLanguageFromPath_agree (filePath : string) :
  match ASTExtractor.getLanguageFromPath filePath with
  | Some language => SpecAnalyzer.getLanguageFromPath filePath = languageName language
  | None =>
      In (SpecAnalyzer.getLanguageFromPath filePath) ["C++"; "C"; "Unknown"]
      /\ (DiffParser.isCodeFile filePath = true ->
          SpecAnalyzer.getLanguageFromPath filePath = "Unknown" ->
          In (Js.extname filePath) [".go"; ".h"])
  end.
Proof.
  unfold ASTExtractor.getLanguageFromPath, ASTExtractor.parsers,
    SpecAnalyzer.getLanguageFromPath, DiffParser.isCodeFile.
  cbn zeta. generalize (Js.extname filePath) as ext. intros ext.
  cbn [existsb].
  destruct (String.eqb ext ".js"); [reflexivity|].
  destruct (String.eqb ext ".jsx"); [reflexivity|].
  destruct (String.eqb ext ".ts"); [reflexivity|].
  destruct (String.eqb ext ".tsx"); [reflexivity|].
  destruct (String.eqb ext ".py"); [reflexivity|].
  destruct (String.eqb ext ".java"); [reflexivity|].
  destruct (String.eqb ext ".rs"); [reflexivity|].
  destruct (String.eqb ext ".cpp"); [split; [left; reflexivity|discriminate]|].
  destruct (String.eqb ext ".c"); [split; [right; left; reflexivity|discriminate]|].
  split; [right; right; left; reflexivity|].
  destruct (String.eqb ext ".go") eqn:Hgo;
    [intros _ _; left; symmetry; apply String.eqb_eq; exact Hgo|].
  destruct (String.eqb ext ".h") eqn:Hh;
    [intros _ _; right; left; symmetry; apply String.eqb_eq; exact Hh|].
  cbn [orb andb]. discriminate.
Qed.
End Languages.

Section LanguagesScenario.

Lemma getLanguageFromPath_agree_witness :
  DiffParser.isCodeFile "src/main.go" = true
  /\ SpecAnalyzer.getLanguageFromPath "src/main.go" = "Unknown"
  /\ In (Js.extname "src/main.go") [".go"; ".h"].
Proof.
  assert (Hcode : DiffParser.isCodeFile "src/main.go" = true) by (vm_compute; reflexivity).
  assert (Hunknown : SpecAnalyzer.getLanguageFromPath "src/main.go" = "Unknown")
    by (vm_compute; reflexivity).
  split; [exact Hcode|]. split; [exact Hunknown|].
  exact (proj2 (getLanguageFromPath_agree "src/main.go") Hcode Hunknown).
Defined.
End LanguagesScenario.

Section Patterns.
Import Regex.

Lemma length_append (a b : string) :
  String.length (a +:+ b) = (String.length a + String.length b)%nat.
Proof.
  induction a as [|x a IH]; [reflexivity|]. rewrite append_cons. simpl. rewrite IH. reflexivity.
Qed.

(** What the matcher finds is a match: when [run] succeeds, the input
    splits into a text that the pattern matches and the rest, on which the
    continuation succeeded; a pattern without groups hands on the captures
    as they were. *)
Lemma run_sound (r : regex) :
  forall (A : Type) (pos : nat) (s : string) (c : caps)
         (k : nat -> string -> caps -> option A) (x : A),
    run r pos s c k = Some x ->
    exists s1 s2 c',
      s = s1 +:+ s2 /\ Matches r pos s1 s2
      /\ k (pos + String.length s1)%nat s2 c' = Some x
      /\ (groupless r = true -> c' = c).
Proof.
  induction r as [|p|r1 IH1 r2 IH2|r1 IH1 r2 IH2|r1 IH1|n r1 IH1| |];
    intros A pos s c k x Hrun.
  - cbn [run] in Hrun.
    exists "", s, c. rewrite Nat.add_0_r.
    split; [reflexivity|]. split; [constructor|]. split; [exact Hrun|reflexivity].
  - cbn [run] in Hrun.
    destruct s as [|a s]; [discriminate|]. destruct (p a) eqn:Hp; [|discriminate].
    exists (String a ""), s, c. cbn [String.length]. rewrite Nat.add_1_r.
    split; [reflexivity|]. split; [constructor; exact Hp|]. split; [exact Hrun|reflexivity].
  - cbn [run] in Hrun.
    destruct (IH1 _ _ _ _ _ _ Hrun) as (s1 & t & c1 & -> & HM1 & Hrun2 & Hc1).
    destruct (IH2 _ _ _ _ _ _ Hrun2) as (s2 & u & c2 & -> & HM2 & Hk & Hc2).
    exists (s1 +:+ s2), u, c2. rewrite length_append, Nat.add_assoc, append_assoc.
    split; [reflexivity|]. split; [constructor; assumption|]. split; [exact Hk|].
    cbn [groupless]. intros [Hg1 Hg2]%andb_prop. rewrite (Hc2 Hg2). exact (Hc1 Hg1).
  - cbn [run] in Hrun.
    destruct (run r1 pos s c k) as [y|] eqn:Hfirst.
    + destruct (IH1 _ _ _ _ _ _ Hfirst) as (s1 & t & c1 & -> & HM1 & Hk & Hc1).
      injection Hrun as <-. exists s1, t, c1.
      split; [reflexivity|]. split; [apply M_alt_l; exact HM1|]. split; [exact Hk|].
      cbn [groupless]. intros [Hg1 _]%andb_prop. exact (Hc1 Hg1).
    + destruct (IH2 _ _ _ _ _ _ Hrun) as (s2 & t & c2 & -> & HM2 & Hk & Hc2).
      exists s2, t, c2.
      split; [reflexivity|]. split; [apply M_alt_r; exact HM2|]. split; [exact Hk|].
      cbn [groupless]. intros [_ Hg2]%andb_prop. exact (Hc2 Hg2).
  - change (starLoop r1 k (S (String.length s)) pos s c = Some x) in Hrun.
    set (loop := starLoop r1 k) in *.
    assert (Hloop0 : forall pos s c, loop 0%nat pos s c = k pos s c) by reflexivity.
    assert (HloopS : forall fuel pos s c,
               loop (S fuel) pos s c
               = match run r1 pos s c
                         (fun pos' s' c' =>
                            if (pos <? pos')%nat then loop fuel pos' s' c' else None)
                 with
                 | Some y => Some y
                 | None => k pos s c
                 end) by reflexivity.
    clearbody loop. revert Hrun. generalize (S (String.length s)) as fuel.
    intros fuel. revert pos s c.
    induction fuel as [|fuel IHfuel]; intros pos s c Hrun.
    + rewrite Hloop0 in Hrun. exists "", s, c. rewrite Nat.add_0_r.
      split; [reflexivity|]. split; [constructor|]. split; [exact Hrun|reflexivity].
    + rewrite HloopS in Hrun.
      match type of Hrun with
      | match ?first with _ => _ end = _ => destruct first as [y|] eqn:Hfirst
      end.
      * injection Hrun as <-.
        destruct (IH1 _ _ _ _ _ _ Hfirst) as (s1 & t & c1 & -> & HM1 & Hk & Hc1).
        destruct (pos <? pos + String.length s1)%nat eqn:Hlt; [|discriminate].
        apply Nat.ltb_lt in Hlt.
        destruct (IHfuel _ _ _ Hk) as (s2 & u & c2 & -> & HM2 & Hk2 & Hc2).
        exists (s1 +:+ s2), u, c2. rewrite length_append, Nat.add_assoc, append_assoc.
        split; [reflexivity|]. split.
        { apply M_star_cons; [|exact HM1|exact HM2].
          intros ->. simpl in Hlt. lia. }
        split; [exact Hk2|].
        cbn [groupless] in *. intros Hg. rewrite (Hc2 Hg). exact (Hc1 Hg).
      * exists "", s, c. rewrite Nat.add_0_r.
        split; [reflexivity|]. split; [constructor|]. split; [exact Hrun|reflexivity].
  - cbn [run] in Hrun.
    destruct (IH1 _ _ _ _ _ _ Hrun) as (s1 & t & c1 & -> & HM1 & Hk & _).
    eexists s1, t, _. split; [reflexivity|]. split; [constructor; exact HM1|].
    split; [exact Hk|]. cbn [groupless]. discriminate.
  - cbn [run] in Hrun.
    destruct (pos =? 0)%nat eqn:Hpos; [|discriminate]. apply Nat.eqb_eq in Hpos. subst pos.
    exists "", s, c. split; [reflexivity|]. split; [constructor|]. split; [exact Hrun|reflexivity].
  - cbn [run] in Hrun.
    destruct s as [|a s]; [|discriminate].
    exists "", "", c. rewrite Nat.add_0_r.
    split; [reflexivity|]. split; [constructor|]. split; [exact Hrun|reflexivity].
Qed.

(** What matches is found: when the pattern can match a text at the head
    of the input and the continuation succeeds behind it, whatever the
    captures, then [run] succeeds. *)
Lemma run_complete (r : regex) :
  forall (A : Type) (pos : nat) (s1 rest : string) (c : caps)
         (k : nat -> string -> caps -> option A),
    Matches r pos s1 rest ->
    (forall c', k (pos + String.length s1)%nat rest c' <> None) ->
    run r pos (s1 +:+ rest) c k <> None.
Proof.
  induction r as [|p|r1 IH1 r2 IH2|r1 IH1 r2 IH2|r1 IH1|n r1 IH1| |];
    intros A pos s1 rest c k HM Hk.
  - inversion HM; subst. cbn [run]. rewrite append_empty_l.
    specialize (Hk c). rewrite Nat.add_0_r in Hk. exact Hk.
  - inversion HM as [|p' a pos' rest' Hp| | | | | | | |]; subst.
    rewrite append_cons, append_empty_l. cbn [run]. rewrite Hp.
    specialize (Hk c). cbn [String.length] in Hk. rewrite Nat.add_1_r in Hk. exact Hk.
  - inversion HM as [| |r1' r2' pos' a b rest' HM1 HM2| | | | | | |]; subst.
    cbn [run]. rewrite append_assoc. apply IH1; [exact HM1|].
    intros c1. apply IH2; [exact HM2|].
    intros c2. rewrite <- Nat.add_assoc, <- length_append. apply Hk.
  - cbn [run].
    inversion HM as [| | |r1' r2' pos' s' rest' HM1|r1' r2' pos' s' rest' HM2| | | | |]; subst.
    + pose proof (IH1 _ _ _ _ c k HM1 Hk) as Hfirst.
      destruct (run r1 pos (s1 +:+ rest) c k); [discriminate|congruence].
    + destruct (run r1 pos (s1 +:+ rest) c k); [discriminate|].
      apply IH2; assumption.
  - change (starLoop r1 k (S (String.length (s1 +:+ rest))) pos (s1 +:+ rest) c <> None).
    assert (Hstar : forall r pos s1 rest,
               Matches r pos s1 rest -> r = Star r1 ->
               (forall c', k (pos + String.length s1)%nat rest c' <> None) ->
               forall c fuel,
                 (String.length (s1 +:+ rest) < fuel)%nat ->
                 starLoop r1 k fuel pos (s1 +:+ rest) c <> None).
    { clear pos s1 rest c HM Hk. intros r pos s1 rest HM.
      induction HM as [| | | | |r0 pos rest|r0 pos a b rest Hne HM1 _ HM2 IHstar| | |];
        intros Hr; try discriminate Hr; injection Hr as ->; intros Hk c fuel Hfuel.
      - destruct fuel as [|fuel]; [lia|].
        rewrite append_empty_l.
        change (match run r1 pos rest c
                        (fun pos' s' c' =>
                           if (pos <? pos')%nat then starLoop r1 k fuel pos' s' c' else None)
                with Some y => Some y | None => k pos rest c end <> None).
        destruct (run r1 pos rest c _); [discriminate|].
        specialize (Hk c). rewrite Nat.add_0_r in Hk. exact Hk.
      - destruct fuel as [|fuel]; [lia|].
        change (match run r1 pos ((a +:+ b) +:+ rest) c
                        (fun pos' s' c' =>
                           if (pos <? pos')%nat then starLoop r1 k fuel pos' s' c' else None)
                with Some y => Some y | None => k pos ((a +:+ b) +:+ rest) c end <> None).
        assert (Hlen : (0 < String.length a)%nat)
          by (destruct a; [congruence|simpl; lia]).
        assert (Hfirst : run r1 pos ((a +:+ b) +:+ rest) c
                           (fun pos' s' c' =>
                              if (pos <? pos')%nat
                              then starLoop r1 k fuel pos' s' c' else None) <> None).
        { rewrite append_assoc. apply IH1; [exact HM1|].
          intros c'. replace (pos <? pos + String.length a)%nat with true
            by (symmetry; apply Nat.ltb_lt; lia).
          apply (IHstar eq_refl).
          - intros c2. rewrite <- Nat.add_assoc, <- length_append. apply Hk.
          - rewrite append_assoc, length_append in Hfuel. lia. }
        destruct (run r1 pos ((a +:+ b) +:+ rest) c _); [discriminate|congruence]. }
    apply (Hstar _ _ _ _ HM eq_refl Hk). lia.
  - inversion HM; subst. cbn [run]. apply IH1; [assumption|].
    intros c'. apply Hk.
  - inversion HM; subst. cbn [run]. rewrite append_empty_l.
    specialize (Hk c). rewrite Nat.add_0_r in Hk. exact Hk.
  - inversion HM; subst. cbn [run]. rewrite append_empty_l.
    specialize (Hk c). rewrite Nat.add_0_r in Hk. exact Hk.
Qed.

(** A pattern without anchors matches a text wherever it stands. *)
Lemma Matches_anywhere (r : regex) (pos : nat) (s rest : string) :
  Matches r pos s rest -> anchorless r = true ->
  forall pos' rest', Matches r pos' s rest'.
Proof.
  intros HM. induction HM; cbn [anchorless]; intros Hfree pos' rest';
    try discriminate Hfree.
  - constructor.
  - constructor; assumption.
  - apply andb_prop in Hfree as [H1 H2]. constructor; [apply IHHM1|apply IHHM2]; assumption.
  - apply andb_prop in Hfree as [H1 H2]. apply M_alt_l. apply IHHM; assumption.
  - apply andb_prop in Hfree as [H1 H2]. apply M_alt_r. apply IHHM; assumption.
  - constructor.
  - apply M_star_cons; [assumption|apply IHHM1; assumption|apply IHHM2; assumption].
  - constructor. apply IHHM; assumption.
Qed.
End Patterns.
Section PatternScans.
Import Regex.

(** Opening the groups of a pattern changes the captures of a match and
    nothing else. *)
Lemma run_strip (r : regex) :
  forall (pos : nat) (s : string) (c1 c2 : caps)
         (k1 k2 : nat -> string -> caps -> option (nat * caps)),
    (forall pos' s' c1' c2',
        option_map fst (k1 pos' s' c1') = option_map fst (k2 pos' s' c2')) ->
    option_map fst (run r pos s c1 k1) = option_map fst (run (strip r) pos s c2 k2).
Proof.
  induction r as [|p|r1 IH1 r2 IH2|r1 IH1 r2 IH2|r1 IH1|n r1 IH1| |];
    intros pos s c1 c2 k1 k2 Hk.
  - apply Hk.
  - cbn [run strip]. destruct s as [|a s]; [reflexivity|].
    destruct (p a); [apply Hk|reflexivity].
  - cbn [run strip]. apply IH1. intros. apply IH2. exact Hk.
  - cbn [run strip]. pose proof (IH1 pos s c1 c2 k1 k2 Hk) as Hfirst.
    destruct (run r1 pos s c1 k1), (run (strip r1) pos s c2 k2);
      try discriminate Hfirst; [exact Hfirst|].
    apply IH2. exact Hk.
  - change (option_map fst (starLoop r1 k1 (S (String.length s)) pos s c1)
            = option_map fst (starLoop (strip r1) k2 (S (String.length s)) pos s c2)).
    generalize (S (String.length s)) as fuel. intros fuel. revert pos s c1 c2.
    induction fuel as [|fuel IHfuel]; intros pos s c1 c2; [apply Hk|].
    change (option_map fst
              (match run r1 pos s c1
                       (fun pos' s' c' =>
                          if (pos <? pos')%nat then starLoop r1 k1 fuel pos' s' c' else None)
               with Some y => Some y | None => k1 pos s c1 end)
            = option_map fst
                (match run (strip r1) pos s c2
                         (fun pos' s' c' =>
                            if (pos <? pos')%nat
                            then starLoop (strip r1) k2 fuel pos' s' c' else None)
                 with Some y => Some y | None => k2 pos s c2 end)).
    match goal with
    | |- option_map fst (match ?x with _ => _ end)
         = option_map fst (match ?y with _ => _ end) =>
        assert (Hfirst : option_map fst x = option_map fst y)
    end.
    { apply IH1. intros pos' s' c1' c2'.
      destruct (pos <? pos')%nat; [apply IHfuel|reflexivity]. }
    match goal with
    | |- option_map fst (match ?x with _ => _ end)
         = option_map fst (match ?y with _ => _ end) =>
        destruct x, y; try discriminate Hfirst; [exact Hfirst|apply Hk]
    end.
  - cbn [run strip]. apply IH1. intros. apply Hk.
  - cbn [run strip]. destruct (pos =? 0)%nat; [apply Hk|reflexivity].
  - cbn [run strip]. destruct s; [apply Hk|reflexivity].
Qed.

Lemma matchAt_strip (r : regex) (pos : nat) (s : string) :
  option_map fst (matchAt r pos s) = option_map fst (matchAt (strip r) pos s).
Proof.
  unfold matchAt. apply run_strip. reflexivity.
Qed.

Lemma countMatches_strip (r : regex) (s : string) :
  countMatches r s = countMatches (strip r) s.
Proof.
  unfold countMatches.
  enough (Hscan : forall skip pos,
             scan r (fun _ _ n => S n) (fun _ n => n) 0%nat pos skip s
             = scan (strip r) (fun _ _ n => S n) (fun _ n => n) 0%nat pos skip s)
    by apply Hscan.
  induction s as [|a s IH]; intros skip pos.
  - destruct skip; cbn [scan]; [|reflexivity].
    pose proof (matchAt_strip r pos "") as Hsame.
    destruct (matchAt r pos "") as [[e c]|], (matchAt (strip r) pos "") as [[e' c']|];
      try discriminate Hsame; reflexivity.
  - destruct skip; cbn [scan]; [|apply IH].
    pose proof (matchAt_strip r pos (String a s)) as Hsame.
    destruct (matchAt r pos (String a s)) as [[e c]|],
             (matchAt (strip r) pos (String a s)) as [[e' c']|];
      try discriminate Hsame; [|apply IH].
    injection Hsame as <-. f_equal. destruct (e =? pos)%nat; apply IH.
Qed.

Lemma matchAll_length (r : regex) (s : string) :
  length (SpecFiles.matchAll r s) = countMatches r s.
Proof.
  unfold SpecFiles.matchAll, countMatches.
  enough (Hscan : forall skip pos,
             length (scan r (fun m _ rest => m :: rest) (fun _ rest => rest) [] pos skip s)
             = scan r (fun _ _ n => S n) (fun _ n => n) 0%nat pos skip s)
    by apply Hscan.
  induction s as [|a s IH]; intros skip pos.
  - destruct skip; cbn [scan]; [|reflexivity].
    destruct (matchAt r pos "") as [[e c]|]; reflexivity.
  - destruct skip; cbn [scan]; [|apply IH].
    destruct (matchAt r pos (String a s)) as [[e c]|]; [|apply IH].
    cbn [length]. f_equal. destruct (e =? pos)%nat; apply IH.
Qed.

Lemma substring_prefix (a b : string) :
  String.substring 0 (String.length a) (a +:+ b) = a.
Proof.
  induction a as [|x a IH]; [destruct b; reflexivity|].
  rewrite append_cons. cbn [String.length String.substring]. rewrite IH. reflexivity.
Qed.

Lemma matchAt_sound (r : regex) (pos : nat) (s : string) (e : nat) (c : caps) :
  matchAt r pos s = Some (e, c) ->
  exists s1 s2,
    s = s1 +:+ s2 /\ Matches r pos s1 s2 /\ e = (pos + String.length s1)%nat
    /\ String.substring 0 (e - pos) s = s1.
Proof.
  unfold matchAt. intros Hrun.
  destruct (run_sound r _ _ _ _ _ _ Hrun) as (s1 & s2 & c' & -> & HM & [= <- <-] & _).
  exists s1, s2. split; [reflexivity|]. split; [exact HM|]. split; [reflexivity|].
  replace (pos + String.length s1 - pos)%nat with (String.length s1) by lia.
  apply substring_prefix.
Qed.

Lemma matchAll_sound (r : regex) (s : string) :
  Forall (fun m => exists pos rest, Matches r pos m rest) (SpecFiles.matchAll r s).
Proof.
  unfold SpecFiles.matchAll.
  enough (Hscan : forall skip pos,
             Forall (fun m => exists pos rest, Matches r pos m rest)
               (scan r (fun m _ rest => m :: rest) (fun _ rest => rest) [] pos skip s))
    by apply Hscan.
  induction s as [|a s IH]; intros skip pos.
  - destruct skip; cbn [scan]; [|constructor].
    destruct (matchAt r pos "") as [[e c]|] eqn:Hmatch; [|constructor].
    destruct (matchAt_sound _ _ _ _ _ Hmatch) as (s1 & s2 & _ & HM & _ & ->).
    constructor; [exists pos, s2; exact HM|constructor].
  - destruct skip; cbn [scan]; [|apply IH].
    destruct (matchAt r pos (String a s)) as [[e c]|] eqn:Hmatch; [|apply IH].
    destruct (matchAt_sound _ _ _ _ _ Hmatch) as (s1 & s2 & _ & HM & _ & ->).
    constructor; [exists pos, s2; exact HM|].
    destruct (e =? pos)%nat; apply IH.
Qed.

Lemma execFrom_found (r : regex) (pos : nat) (s : string) :
  matchAt r pos s <> None -> execFrom r pos s <> None.
Proof.
  intros Hmatch. destruct s; cbn [execFrom];
    destruct (matchAt r pos _) as [[e c]|]; congruence.
Qed.

Lemma anchorless_Lit (l : string) : anchorless (Lit l) = true.
Proof.
  induction l as [|a l IH]; [reflexivity|exact IH].
Qed.

(** The text of a declaration that the counting pattern matched has a
    name for the naming pattern. *)
Lemma nameIn_returns (keyword matched : string) (pos : nat) (rest : string) :
  Matches (Seq [Lit keyword; Plus ws; Grp 1 (Plus word); Star ws; Lit "("])
    pos matched rest ->
  exists name, SpecFiles.nameIn keyword matched = Return name.
Proof.
  cbn [Seq]. intros HM.
  inversion HM as [| |r1 r2 p0 a t0 rest0 Ha Ht0| | | | | | |]; subst.
  inversion Ht0 as [| |r1 r2 p1 b t1 rest1 Hb Ht1| | | | | | |]; subst.
  inversion Ht1 as [| |r1 r2 p2 g t2 rest2 Hg Ht2| | | | | | |]; subst.
  assert (Hname : Matches (Cat (Lit keyword) (Cat (Plus ws) (Grp 1 (Plus word))))
                    0 (a +:+ (b +:+ g)) t2).
  { constructor; [|constructor].
    - apply (Matches_anywhere _ _ _ _ Ha (anchorless_Lit keyword)).
    - apply (Matches_anywhere _ _ _ _ Hb). reflexivity.
    - apply (Matches_anywhere _ _ _ _ Hg). reflexivity. }
  unfold SpecFiles.nameIn, exec. cbn [Seq].
  assert (Hfound : execFrom (Cat (Lit keyword) (Cat (Plus ws) (Grp 1 (Plus word)))) 0
                     (a +:+ b +:+ g +:+ t2) <> None).
  { apply execFrom_found. unfold matchAt.
    replace (a +:+ b +:+ g +:+ t2) with ((a +:+ (b +:+ g)) +:+ t2)
      by (rewrite !append_assoc; reflexivity).
    apply run_complete with (1 := Hname). discriminate. }
  destruct (execFrom _ 0 (a +:+ b +:+ g +:+ t2)) as [[[b0 e0] c0]|]; [|congruence].
  eexists; reflexivity.
Qed.

Lemma namesIn_returns (keyword : string) (matches : list string) :
  Forall (fun m => exists pos rest,
              Matches (Seq [Lit keyword; Plus ws; Grp 1 (Plus word); Star ws; Lit "("])
                pos m rest) matches ->
  exists names,
    SpecFiles.namesIn keyword matches = Return names /\ length names = length matches.
Proof.
  induction 1 as [|m ms (pos & rest & HM) _ (names & Hnames & Hlen)].
  - exists []. split; reflexivity.
  - destruct (nameIn_returns _ _ _ _ HM) as (name & Hname).
    exists (name :: names). cbn [SpecFiles.namesIn]. rewrite Hname, Hnames.
    split; [reflexivity|]. cbn [length]. rewrite Hlen. reflexivity.
Qed.

Lemma fold_left_count (counts : list nat) (start : nat) :
  (start <= fold_left Nat.add counts start)%nat.
Proof.
  revert start. induction counts as [|n counts IH]; intros start; [apply Nat.le_refl|].
  cbn [fold_left]. specialize (IH (start + n)%nat). lia.
Qed.

(** X26. [extractFunctionNames] never throws: every declaration that its
    pattern finds has a name.  It returns at most as many names as
    [countFunctionsInFile] counts functions in the same file, exactly as
    many for a Python file, and none for a Java or a Rust file, whose
    functions are counted all the same. *)
Theorem extractFunctionNames_counted (content extension : string) :
  (exists names,
      SpecFiles.extractFunctionNames content extension = Return names
      /\ (length names <= SpecFiles.countFunctionsInFile content extension)%nat)
  /\ (exists names,
         SpecFiles.extractFunctionNames content ".py" = Return names
         /\ length names = SpecFiles.countFunctionsInFile content ".py")
  /\ SpecFiles.extractFunctionNames content ".java" = Return []
  /\ SpecFiles.extractFunctionNames content ".rs" = Return [].
Proof.
  assert (Hdeclared : forall keyword,
             exists names,
               SpecFiles.namesIn keyword
                 (SpecFiles.matchAll
                    (Seq [Lit keyword; Plus ws; Grp 1 (Plus word); Star ws; Lit "("]) content)
               = Return names
               /\ length names
                  = countMatches (Seq [Lit keyword; Plus ws; Plus word; Star ws; Lit "("])
                      content).
  { intros keyword.
    destruct (namesIn_returns keyword _ (matchAll_sound _ content)) as (names & Hnames & Hlen).
    exists names. split; [exact Hnames|].
    rewrite Hlen, matchAll_length, countMatches_strip. f_equal.
    cbn [Seq strip]. f_equal. clear. induction keyword as [|a l IH]; [reflexivity|].
    cbn [Lit strip]. rewrite IH. reflexivity. }
  split; [|split; [|split; reflexivity]].
  - unfold SpecFiles.extractFunctionNames, SpecFiles.countFunctionsInFile,
      SpecFiles.patternsFor.
    destruct (String.eqb extension ".js" || String.eqb extension ".ts").
    + destruct (Hdeclared "function") as (names & Hnames & Hlen).
      exists names. split; [exact Hnames|]. rewrite Hlen. cbn [fold_left].
      rewrite Nat.add_0_l.
      match goal with
      | |- (?n <= ?total)%nat => generalize n; intros n0
      end.
      lia.
    + destruct (String.eqb extension ".py").
      * destruct (Hdeclared "def") as (names & Hnames & Hlen).
        exists names. split; [exact Hnames|]. rewrite Hlen. cbn [fold_left]. lia.
      * exists []. split; [reflexivity|]. cbn [length]. lia.
  - destruct (Hdeclared "def") as (names & Hnames & Hlen).
    exists names. split; [exact Hnames|]. rewrite Hlen. reflexivity.
Qed.
End PatternScans.
Section PatternCaptures.
Import Regex SpecCoverage.

Lemma execFrom_sound (r : regex) (s : string) :
  forall (pos b e : nat) (c : caps),
    execFrom r pos s = Some (b, e, c) ->
    exists pre s', s = pre +:+ s' /\ matchAt r b s' = Some (e, c).
Proof.
  induction s as [|a s IH]; intros pos b e c; cbn [execFrom].
  - destruct (matchAt r pos "") as [[e' c']|] eqn:Hmatch; [|discriminate].
    intros [= <- <- <-]. exists "", "". split; [reflexivity|exact Hmatch].
  - destruct (matchAt r pos (String a s)) as [[e' c']|] eqn:Hmatch.
    + intros [= <- <- <-]. exists "", (String a s). split; [reflexivity|exact Hmatch].
    + intros Hrest. destruct (IH _ _ _ _ Hrest) as (pre & s' & -> & Hfound).
      exists (String a pre), s'. split; [reflexivity|exact Hfound].
Qed.

(** The text of a group between two parts without groups. *)
Lemma matchAt_group (before inside after : regex) (n pos : nat) (s : string)
      (e : nat) (c : caps) :
  groupless before = true -> groupless inside = true -> groupless after = true ->
  matchAt (Cat before (Cat (Grp n inside) after)) pos s = Some (e, c) ->
  exists a d rest pos',
    s = a +:+ d +:+ rest /\ Matches before pos a (d +:+ rest)
    /\ Matches inside pos' d rest /\ ref n c = d.
Proof.
  intros Hbefore Hinside Hafter. unfold matchAt. cbn [run]. intros Hrun.
  destruct (run_sound before _ _ _ _ _ _ Hrun) as (a & t & c1 & -> & Ha & Hrun1 & Hc1).
  rewrite (Hc1 Hbefore) in Hrun1. clear Hrun Hc1.
  destruct (run_sound inside _ _ _ _ _ _ Hrun1) as (d & u & c2 & -> & Hd & Hrun2 & Hc2).
  rewrite (Hc2 Hinside) in Hrun2. clear Hrun1 Hc2.
  destruct (run_sound after _ _ _ _ _ _ Hrun2) as (p & rest & c3 & -> & Hp & Hk & Hc3).
  rewrite (Hc3 Hafter) in Hk. injection Hk as _ <-.
  exists a, d, (p +:+ rest), (pos + String.length a)%nat.
  split; [reflexivity|]. split; [exact Ha|]. split; [exact Hd|].
  unfold ref. cbn [group]. rewrite Nat.eqb_refl.
  replace (pos + String.length a + String.length d - (pos + String.length a))%nat
    with (String.length d) by lia.
  apply substring_prefix.
Qed.

(** The text of a group that ends the pattern. *)
Lemma matchAt_group_last (before inside : regex) (n pos : nat) (s : string)
      (e : nat) (c : caps) :
  groupless before = true -> groupless inside = true ->
  matchAt (Cat before (Grp n inside)) pos s = Some (e, c) ->
  exists a d rest pos',
    s = a +:+ d +:+ rest /\ Matches before pos a (d +:+ rest)
    /\ Matches inside pos' d rest /\ ref n c = d.
Proof.
  intros Hbefore Hinside. unfold matchAt. cbn [run]. intros Hrun.
  destruct (run_sound before _ _ _ _ _ _ Hrun) as (a & t & c1 & -> & Ha & Hrun1 & Hc1).
  rewrite (Hc1 Hbefore) in Hrun1. clear Hrun Hc1.
  destruct (run_sound inside _ _ _ _ _ _ Hrun1) as (d & rest & c2 & -> & Hd & Hk & Hc2).
  rewrite (Hc2 Hinside) in Hk. injection Hk as _ <-.
  exists a, d, rest, (pos + String.length a)%nat.
  split; [reflexivity|]. split; [exact Ha|]. split; [exact Hd|].
  unfold ref. cbn [group]. rewrite Nat.eqb_refl.
  replace (pos + String.length a + String.length d - (pos + String.length a))%nat
    with (String.length d) by lia.
  apply substring_prefix.
Qed.

Lemma Matches_star_chr (p : ascii -> bool) (r : regex) (pos : nat) (s rest : string) :
  Matches r pos s rest -> r = Star (Chr p) -> drawn p s.
Proof.
  intros HM. induction HM as [| | | | | |r0 pos a b rest Hne Ha _ _ IHb| | |];
    intros Hr; try discriminate Hr; [exact I|]. injection Hr as ->.
  inversion Ha as [|p' x pos' rest' Hp| | | | | | | |]; subst.
  rewrite append_cons, append_empty_l. split; [exact Hp|exact (IHb eq_refl)].
Qed.

(** [c+] matches a text that is not empty and made of such characters. *)
Lemma Matches_plus_chr (p : ascii -> bool) (pos : nat) (s rest : string) :
  Matches (Plus (Chr p)) pos s rest -> s <> "" /\ drawn p s.
Proof.
  unfold Plus. intros HM.
  inversion HM as [| |r1 r2 pos' a b rest' Ha Hb| | | | | | |]; subst.
  inversion Ha as [|p' x pos' rest' Hp| | | | | | | |]; subst.
  rewrite append_cons, append_empty_l. split; [discriminate|].
  split; [exact Hp|exact (Matches_star_chr _ _ _ _ _ Hb eq_refl)].
Qed.

Lemma Matches_Lit (l : string) :
  forall pos s rest, Matches (Lit l) pos s rest -> s = l.
Proof.
  induction l as [|x l IH]; intros pos s rest HM; cbn [Lit] in HM.
  - inversion HM; reflexivity.
  - inversion HM as [| |r1 r2 pos' a b rest' Ha Hb| | | | | | |]; subst.
    inversion Ha as [|p' y pos' rest' Hp| | | | | | | |]; subst.
    apply Ascii.eqb_eq in Hp as <-.
    rewrite append_cons, append_empty_l. f_equal. exact (IH _ _ _ Hb).
Qed.

Lemma parseDigits_nonnegative (s : string) :
  forall acc, (0 <= acc)%Z ->
              drawn (fun a => (48 <=? nat_of_ascii a)%nat && (nat_of_ascii a <=? 57)%nat) s ->
              (0 <= SpecFiles.parseDigits acc s)%Z.
Proof.
  induction s as [|a s IH]; intros acc Hacc Hs; [exact Hacc|].
  destruct Hs as [Ha Hs]. cbn [SpecFiles.parseDigits]. apply IH; [|exact Hs].
  apply andb_prop in Ha as [Hlow _]. apply Nat.leb_le in Hlow. lia.
Qed.

(** X27. The confidence that [parseSpecFile] reads from a specification
    file is never negative: it is 0, or the value of the digits that stand
    between [-- Confidence: ] and the percent sign. *)
Theorem parseSpecFile_confidence (content : string) :
  (0 <= specConfidence (SpecFiles.parseSpecFile content))%Z.
Proof.
  unfold SpecFiles.parseSpecFile. cbn [specConfidence].
  unfold exec at 1.
  destruct (execFrom _ 0 content) as [[[b e] c]|] eqn:Hexec; [|lia].
  destruct (execFrom_sound _ _ _ _ _ _ Hexec) as (pre & s' & _ & Hmatch).
  cbn [Seq] in Hmatch.
  apply matchAt_group in Hmatch as (a & d & rest & pos' & _ & _ & Hd & ->);
    [|apply anchorless_Lit || reflexivity ..].
  apply Matches_plus_chr in Hd as [_ Hdigits].
  apply parseDigits_nonnegative; [lia|exact Hdigits].
Qed.

Lemma prefix_here (p rest : string) : String.prefix p (p +:+ rest) = true.
Proof.
  induction p as [|x p IH]; [destruct rest; reflexivity|].
  rewrite append_cons. cbn [String.prefix]. destruct (ascii_dec x x); [exact IH|congruence].
Qed.

Lemma includes_later (p pre s : string) :
  Js.includes p s = true -> Js.includes p (pre +:+ s) = true.
Proof.
  intros Hs. induction pre as [|x pre IH]; [exact Hs|].
  rewrite append_cons. cbn [Js.includes]. rewrite IH. apply Bool.orb_true_r.
Qed.

Lemma includes_here (p rest : string) : Js.includes p (p +:+ rest) = true.
Proof.
  destruct (p +:+ rest) eqn:Hs; cbn [Js.includes]; rewrite <- Hs, prefix_here; reflexivity.
Qed.

(** X28. The function name that the coverage report reads from a
    specification file is a non-empty word, and the drift search for that
    name accepts the same file: the two readers of the header agree. *)
Theorem extractFunctionNameFromSpec_found (content name : string) :
  SpecFiles.extractFunctionNameFromSpec content = Some name ->
  name <> "" /\ drawn isWord name
  /\ Js.includes ("Function: " +:+ name) content = true.
Proof.
  unfold SpecFiles.extractFunctionNameFromSpec, exec.
  destruct (execFrom _ 0 content) as [[[b e] c]|] eqn:Hexec; [|discriminate].
  intros [= <-].
  destruct (execFrom_sound _ _ _ _ _ _ Hexec) as (pre & s' & -> & Hmatch).
  apply matchAt_group_last in Hmatch as (a & d & rest & pos' & -> & Ha & Hd & ->);
    [|reflexivity ..].
  apply Matches_Lit in Ha as ->.
  apply Matches_plus_chr in Hd as [Hne Hword].
  split; [exact Hne|]. split; [exact Hword|].
  apply includes_later.
  change ("-- Function: " +:+ d +:+ rest) with ("-- " +:+ ("Function: " +:+ d +:+ rest)).
  apply includes_later. rewrite <- append_assoc. apply includes_here.
Qed.
End PatternCaptures.

Section PatternScenario.

Lemma extractFunctionNameFromSpec_found_witness :
  SpecFiles.extractFunctionNameFromSpec storedAddress = Some "address"
  /\ Js.includes ("Function: " +:+ "address") storedAddress = true.
Proof.
  assert (Hname : SpecFiles.extractFunctionNameFromSpec storedAddress = Some "address")
    by (vm_compute; reflexivity).
  split; [exact Hname|].
  exact (proj2 (proj2 (extractFunctionNameFromSpec_found storedAddress "address" Hname))).
Defined.
End PatternScenario.

Section PatternGroups.
Import Regex.
Variable n : nat.
Variable Q : string -> Prop.

(** The captures of a match: a group [n] that is set holds a text with
    the property of the patterns that group [n] encloses, a group that was
    set stays set, and a pattern whose every match goes through a group [n]
    sets it. *)
Lemma run_captures (r : regex) :
  forall (A : Type) (pos : nat) (s : string) (c : caps)
         (k : nat -> string -> caps -> option A) (x : A),
    groupsOk n Q r ->
    run r pos s c k = Some x ->
    (forall t, group n c = Some t -> Q t) ->
    exists s1 s2 c',
      s = s1 +:+ s2 /\ Matches r pos s1 s2
      /\ k (pos + String.length s1)%nat s2 c' = Some x
      /\ (forall t, group n c' = Some t -> Q t)
      /\ (group n c <> None -> group n c' <> None)
      /\ (sets n r = true -> group n c' <> None).
Proof.
  induction r as [|p|r1 IH1 r2 IH2|r1 IH1 r2 IH2|r1 IH1|m r1 IH1| |];
    intros A pos s c k x Hok Hrun Hc.
  - cbn [run] in Hrun. exists "", s, c. rewrite Nat.add_0_r.
    split; [reflexivity|]. split; [constructor|]. split; [exact Hrun|].
    split; [exact Hc|]. split; [tauto|discriminate].
  - cbn [run] in Hrun.
    destruct s as [|a s]; [discriminate|]. destruct (p a) eqn:Hp; [|discriminate].
    exists (String a ""), s, c. cbn [String.length]. rewrite Nat.add_1_r.
    split; [reflexivity|]. split; [constructor; exact Hp|]. split; [exact Hrun|].
    split; [exact Hc|]. split; [tauto|discriminate].
  - cbn [run] in Hrun. destruct Hok as [Hok1 Hok2].
    destruct (IH1 _ _ _ _ _ _ Hok1 Hrun Hc)
      as (s1 & t & c1 & -> & HM1 & Hrun2 & HQ1 & Hkeep1 & Hset1).
    destruct (IH2 _ _ _ _ _ _ Hok2 Hrun2 HQ1)
      as (s2 & u & c2 & -> & HM2 & Hk & HQ2 & Hkeep2 & Hset2).
    exists (s1 +:+ s2), u, c2. rewrite length_append, Nat.add_assoc, append_assoc.
    split; [reflexivity|]. split; [constructor; assumption|]. split; [exact Hk|].
    split; [exact HQ2|]. split; [tauto|].
    cbn [sets]. intros [H|H]%Bool.orb_true_iff; tauto.
  - cbn [run] in Hrun. destruct Hok as [Hok1 Hok2].
    destruct (run r1 pos s c k) as [y|] eqn:Hfirst.
    + injection Hrun as <-.
      destruct (IH1 _ _ _ _ _ _ Hok1 Hfirst Hc)
        as (s1 & t & c1 & -> & HM1 & Hk & HQ1 & Hkeep1 & Hset1).
      exists s1, t, c1.
      split; [reflexivity|]. split; [apply M_alt_l; exact HM1|]. split; [exact Hk|].
      split; [exact HQ1|]. split; [exact Hkeep1|].
      cbn [sets]. intros [H _]%andb_prop. tauto.
    + destruct (IH2 _ _ _ _ _ _ Hok2 Hrun Hc)
        as (s2 & t & c2 & -> & HM2 & Hk & HQ2 & Hkeep2 & Hset2).
      exists s2, t, c2.
      split; [reflexivity|]. split; [apply M_alt_r; exact HM2|]. split; [exact Hk|].
      split; [exact HQ2|]. split; [exact Hkeep2|].
      cbn [sets]. intros [_ H]%andb_prop. tauto.
  - change (starLoop r1 k (S (String.length s)) pos s c = Some x) in Hrun.
    cbn [groupsOk] in Hok.
    revert Hrun. generalize (S (String.length s)) as fuel. intros fuel. revert pos s c Hc.
    induction fuel as [|fuel IHfuel]; intros pos s c Hc Hrun.
    + change (k pos s c = Some x) in Hrun. exists "", s, c. rewrite Nat.add_0_r.
      split; [reflexivity|]. split; [constructor|]. split; [exact Hrun|].
      split; [exact Hc|]. split; [tauto|discriminate].
    + change (match run r1 pos s c
                      (fun pos' s' c' =>
                         if (pos <? pos')%nat then starLoop r1 k fuel pos' s' c' else None)
              with Some y => Some y | None => k pos s c end = Some x) in Hrun.
      match type of Hrun with
      | match ?first with _ => _ end = _ => destruct first as [y|] eqn:Hfirst
      end.
      * injection Hrun as <-.
        destruct (IH1 _ _ _ _ _ _ Hok Hfirst Hc)
          as (s1 & t & c1 & -> & HM1 & Hk & HQ1 & Hkeep1 & _).
        destruct (pos <? pos + String.length s1)%nat eqn:Hlt; [|discriminate].
        apply Nat.ltb_lt in Hlt.
        destruct (IHfuel _ _ _ HQ1 Hk) as (s2 & u & c2 & -> & HM2 & Hk2 & HQ2 & Hkeep2 & _).
        exists (s1 +:+ s2), u, c2. rewrite length_append, Nat.add_assoc, append_assoc.
        split; [reflexivity|]. split.
        { apply M_star_cons; [|exact HM1|exact HM2].
          intros ->. simpl in Hlt. lia. }
        split; [exact Hk2|]. split; [exact HQ2|]. split; [tauto|discriminate].
      * exists "", s, c. rewrite Nat.add_0_r.
        split; [reflexivity|]. split; [constructor|]. split; [exact Hrun|].
        split; [exact Hc|]. split; [tauto|discriminate].
  - cbn [run] in Hrun. destruct Hok as [Hinside Hok].
    destruct (IH1 _ _ _ _ _ _ Hok Hrun Hc)
      as (s1 & t & c1 & -> & HM1 & Hk & HQ1 & Hkeep1 & Hset1).
    replace (pos + String.length s1 - pos)%nat with (String.length s1) in Hk by lia.
    rewrite substring_prefix in Hk.
    exists s1, t, ((m, s1) :: c1).
    split; [reflexivity|]. split; [constructor; exact HM1|]. split; [exact Hk|].
    cbn [group sets]. destruct (m =? n)%nat eqn:Hm.
    + apply Nat.eqb_eq in Hm.
      split; [intros t0 [= <-]; exact (Hinside Hm _ _ _ HM1)|].
      split; discriminate.
    + split; [exact HQ1|]. split; [exact Hkeep1|exact Hset1].
  - cbn [run] in Hrun.
    destruct (pos =? 0)%nat eqn:Hpos; [|discriminate]. apply Nat.eqb_eq in Hpos. subst pos.
    exists "", s, c. split; [reflexivity|]. split; [constructor|]. split; [exact Hrun|].
    split; [exact Hc|]. split; [tauto|discriminate].
  - cbn [run] in Hrun. destruct s as [|a s]; [|discriminate].
    exists "", "", c. rewrite Nat.add_0_r.
    split; [reflexivity|]. split; [constructor|]. split; [exact Hrun|].
    split; [exact Hc|]. split; [tauto|discriminate].
Qed.

(** The group [n] of the leftmost match of a pattern that always sets it. *)
Lemma exec_group (r : regex) (s : string) (c : caps) :
  groupsOk n Q r -> sets n r = true ->
  exec r s = Some c ->
  exists t, group n c = Some t /\ Q t.
Proof.
  intros Hok Hsets. unfold exec.
  destruct (execFrom r 0 s) as [[[b e] c0]|] eqn:Hexec; [|discriminate].
  intros [= ->].
  destruct (execFrom_sound _ _ _ _ _ _ Hexec) as (pre & s' & _ & Hmatch).
  unfold matchAt in Hmatch.
  destruct (run_captures r _ _ _ _ _ _ Hok Hmatch)
    as (s1 & s2 & c' & _ & _ & [= _ <-] & HQ & _ & Hset); [discriminate|].
  destruct (group n c') as [t|] eqn:Hgroup; [|exfalso; exact (Hset Hsets eq_refl)].
  exists t. split; [reflexivity|exact (HQ t eq_refl)].
Qed.
End PatternGroups.
Section SegmenterNames.
Import Regex DiffParser.

Lemma functionPatterns_name :
  Forall (fun pattern =>
            groupsOk 2 (fun t => t <> "" /\ drawn isWord t) pattern
            /\ sets 2 pattern = true)
    functionPatterns.
Proof.
  unfold functionPatterns.
  repeat (apply List.Forall_cons; [split; [|reflexivity]|]); [..|apply List.Forall_nil].
  all: cbn; repeat split; try exact I; try (exfalso; lia).
  all: match goal with
       | HM : Matches _ _ _ _ |- _ => apply Matches_plus_chr in HM; destruct HM; assumption
       end.
Qed.

Lemma firstMatch_exec (patterns : list regex) (line : string) (c : caps) :
  firstMatch patterns line = Some c ->
  exists pattern, In pattern patterns /\ exec pattern line = Some c.
Proof.
  induction patterns as [|p ps IH]; cbn [firstMatch]; [discriminate|].
  destruct (exec p line) as [c'|] eqn:Hexec.
  - intros [= <-]. exists p. split; [left; reflexivity|exact Hexec].
  - intros H. destruct (IH H) as (q & Hin & Hq). exists q. split; [right; exact Hin|exact Hq].
Qed.

Lemma firstMatch_name (line : string) (c : caps) :
  firstMatch functionPatterns line = Some c ->
  ref 2 c <> "" /\ drawn isWord (ref 2 c).
Proof.
  intros Hfirst. destruct (firstMatch_exec _ _ _ Hfirst) as (pattern & Hin & Hexec).
  pose proof (proj1 (List.Forall_forall _ _) functionPatterns_name pattern Hin) as [Hok Hsets].
  destruct (exec_group 2 _ pattern line c Hok Hsets Hexec) as (t & Hgroup & Ht).
  unfold ref. rewrite Hgroup. exact Ht.
Qed.

Lemma openings_names (ls : list string) :
  forall i, Forall (fun o => fst (fst o) <> "" /\ drawn isWord (fst (fst o))) (openings i ls).
Proof.
  induction ls as [|line ls IH]; intros i; cbn [openings]; [constructor|].
  destruct (firstMatch functionPatterns line) as [c|] eqn:Hfirst; [|apply IH].
  constructor; [exact (firstMatch_name _ _ Hfirst)|apply IH].
Qed.

Lemma extractFunctions_word (fileDiff : string) (func : Func) :
  In func (extractFunctions fileDiff) ->
  name func <> "" /\ drawn isWord (name func).
Proof.
  intros Hin.
  assert (Hsummary : map summary (extractFunctions fileDiff) = openings 0 (Js.lines fileDiff)).
  { unfold extractFunctions.
    pose proof (collected_scanLines (Js.lines fileDiff) 0 startScan) as H.
    unfold collected in H at 1.
    destruct (currentFunction (scanLines 0 (Js.lines fileDiff) startScan));
      rewrite ?app_nil_r in H; exact H. }
  pose proof (openings_names (Js.lines fileDiff) 0) as Hnames.
  rewrite <- Hsummary in Hnames.
  apply (proj1 (List.Forall_forall _ _) Hnames (summary func)).
  apply in_map. exact Hin.
Qed.

(** X29. Every function that [extractFunctions] returns has a name: the
    second group of the pattern that matched is always set, and what it
    holds is a non-empty word of letters, digits and underscores. *)
Theorem extractFunctions_names (fileDiff : string) :
  Forall (fun func => name func <> "" /\ drawn isWord (name func))
    (extractFunctions fileDiff).
Proof.
  apply List.Forall_forall. intros func Hin.
  exact (extractFunctions_word fileDiff func Hin).
Qed.

Lemma drawn_free (s : string) : drawn isWord s -> free ":" s.
Proof.
  induction s as [|a s IH]; [intros _; exact I|].
  intros [Ha Hs]. split; [|exact (IH Hs)].
  intros ->. discriminate Ha.
Qed.

Lemma parseDiff_word (diff : string) (changedFiles : list string) (change : FunctionChange) :
  In change (parseDiff diff changedFiles) ->
  drawn isWord (functionName change).
Proof.
  unfold parseDiff. intros Hin. apply in_flat_map in Hin as (filename & _ & Hin).
  destruct (isCodeFile filename); [|destruct Hin].
  unfold parseFileDiff in Hin.
  destruct (Js.truthy (extractFileDiff diff filename)); [|destruct Hin].
  unfold segment in Hin. apply in_map_iff in Hin as (func & <- & Hfunc).
  exact (proj2 (extractFunctions_word _ _ Hfunc)).
Qed.

(** X30. The functions of a diff never share a cache entry by accident:
    two analyses of changes that [parseDiff] returned have the same cache
    key only when they are of the same function name in the same file. *)
Theorem parseDiff_cache_keys
        (diff : string) (changedFiles : list string)
        (first second : ASTExtractor.Analysis) :
  In (ASTExtractor.change first) (parseDiff diff changedFiles) ->
  In (ASTExtractor.change second) (parseDiff diff changedFiles) ->
  SpecAnalyzer.cacheKey first = SpecAnalyzer.cacheKey second ->
  pathOf first = pathOf second /\ nameOf first = nameOf second.
Proof.
  intros Hfirst Hsecond Hkey.
  apply parseDiff_word, drawn_free in Hfirst.
  apply parseDiff_word, drawn_free in Hsecond.
  exact (colon_split _ _ _ _ Hfirst Hsecond Hkey).
Qed.

Lemma parseDiff_cache_keys_witness :
  In (ASTExtractor.change (analysisOf (hunkB +:+ Js.nl +:+ hunkB)))
     (parseDiff ("diff --git a/src/add.js b/src/add.js" +:+ Js.nl +:+ hunkB) ["src/add.js"])
  /\ SpecAnalyzer.cacheKey (analysisOf (hunkB +:+ Js.nl +:+ hunkB)) = "src/add.js:add"
  /\ pathOf (analysisOf (hunkB +:+ Js.nl +:+ hunkB))
     = pathOf (analysisOf (hunkB +:+ Js.nl +:+ hunkB))
  /\ nameOf (analysisOf (hunkB +:+ Js.nl +:+ hunkB))
     = nameOf (analysisOf (hunkB +:+ Js.nl +:+ hunkB)).
Proof.
  assert (Hin : In (ASTExtractor.change (analysisOf (hunkB +:+ Js.nl +:+ hunkB)))
                  (parseDiff ("diff --git a/src/add.js b/src/add.js" +:+ Js.nl +:+ hunkB)
                     ["src/add.js"]))
    by (vm_compute; left; reflexivity).
  split; [exact Hin|]. split; [reflexivity|].
  exact (parseDiff_cache_keys _ _ _ _ Hin Hin eq_refl).
Defined.
End SegmenterNames.
